(** * TP5: stereo matching by loopy belief propagation

    A shallow embedding of [TP5/TP5.py] and the properties of its functions.
    NumPy arrays are nested lists, floating-point numbers are rationals
    (exact arithmetic), Python exceptions are the [Raise] results of an
    error monad.  Where a property depends on the rounding of the numbers,
    the function is also given on binary64 numbers (module [F64]). *)

From Stdlib Require Import List ZArith QArith Qminmax Qabs Bool Lia Lqa.
From Stdlib Require Floats.
Import ListNotations.

Set Implicit Arguments.

(** ** Python: exceptions, indices, loops *)

Module Py.

Inductive exn : Set :=
| IndexError
| ValueError
| UnboundLocalError.

Inductive result (A : Type) : Type :=
| Ok (a : A)
| Raise (e : exn).

Arguments Ok {A} a.
Arguments Raise {A} e.

Definition bind {A B : Type} (m : result A) (k : A -> result B) : result B :=
  match m with
  | Ok a => k a
  | Raise e => Raise e
  end.

Definition raises {A : Type} (m : result A) : Prop :=
  exists e, m = Raise e.

(** [a[i]] on an axis of length [n]: an index in [-n, n), negative ones
    counted from the end; anything else is an [IndexError]. *)
Definition py_index (n : nat) (i : Z) : result nat :=
  if ((0 <=? i) && (i <? Z.of_nat n))%Z then Ok (Z.to_nat i)
  else if ((- Z.of_nat n <=? i) && (i <? 0))%Z then Ok (Z.to_nat (i + Z.of_nat n))
  else Raise IndexError.

(** [f(x) for x in l], stopping at the first exception. *)
Fixpoint mapM {A B : Type} (f : A -> result B) (l : list A) : result (list B) :=
  match l with
  | [] => Ok []
  | a :: t =>
      bind (f a) (fun b => bind (mapM f t) (fun bs => Ok (b :: bs)))
  end.

(** [for i in range(start, start + n): s = body(i, s)]. *)
Fixpoint for_from {St : Type} (start n : nat) (body : nat -> St -> result St) (s : St)
  : result St :=
  match n with
  | O => Ok s
  | S k => bind (body start s) (for_from (S start) k body)
  end.

Definition for_range {St : Type} (n : nat) (body : nat -> St -> result St) (s : St)
  : result St :=
  for_from 0 n body s.

End Py.

Export Py.

Declare Scope py_scope.
Delimit Scope py_scope with py.
Notation "x <- m ;; k" := (bind m (fun x => k))
  (at level 61, m at next level, right associativity) : py_scope.
Notation "' pat <- m ;; k" := (bind m (fun x => match x with pat => k end))
  (at level 61, pat pattern, m at next level, right associativity) : py_scope.
Open Scope py_scope.

(** ** NumPy: arrays as nested lists

    An array of shape [(h, w, L)] is a list of [h] rows, each a list of [w]
    pixels, each a list of [L] numbers.  Arrays with an empty leading axis
    are all represented by [[]]; the program raises [IndexError] on them
    before their other dimensions are looked at.  Broadcasting between
    operands of different shapes is not part of the model, apart from the
    channel vectors of [vsub]: a binary operation on arrays of different
    shapes raises [ValueError]. *)

Module Np.

Abbreviation vec := (list Q) (only parsing).
Abbreviation matrix := (list (list Q)) (only parsing).
Abbreviation volume := (list (list (list Q))) (only parsing).

Definition shape2 {A : Type} (a : list (list A)) : nat * nat :=
  (length a, length (hd [] a)).

Definition shape3 {A : Type} (a : list (list (list A))) : nat * nat * nat :=
  (length a, length (hd [] a), length (hd [] (hd [] a))).

Definition shape2_eqb (s t : nat * nat) : bool :=
  (fst s =? fst t)%nat && (snd s =? snd t)%nat.

Definition shape3_eqb (s t : nat * nat * nat) : bool :=
  shape2_eqb (fst s) (fst t) && (snd s =? snd t)%nat.

Definition get2 {A : Type} (d : A) (a : list (list A)) (y x : nat) : A :=
  nth x (nth y a []) d.

Definition get3 (a : volume) (y x l : nat) : Q :=
  nth l (nth x (nth y a []) []) 0.

(** Rectangular nested lists of a given shape. *)
Definition wf2 {A : Type} (h w : nat) (a : list (list A)) : Prop :=
  length a = h /\ Forall (fun r => length r = w) a.

Definition wf3 {A : Type} (h w L : nat) (a : list (list (list A))) : Prop :=
  length a = h /\
  Forall (fun r => length r = w /\ Forall (fun v => length v = L) r) a.

Fixpoint map2 {A B C : Type} (f : A -> B -> C) (l1 : list A) (l2 : list B)
  : list C :=
  match l1, l2 with
  | a :: t1, b :: t2 => f a b :: map2 f t1 t2
  | _, _ => []
  end.

(** [l[k] = f(l[k])] for an index already resolved. *)
Fixpoint upd {A : Type} (k : nat) (f : A -> A) (l : list A) : list A :=
  match l, k with
  | [], _ => []
  | a :: t, O => f a :: t
  | a :: t, S k' => a :: upd k' f t
  end.

(** [np.zeros((h, w, L))]; a negative dimension is a [ValueError]. *)
Definition zeros3 (h w L : nat) : volume :=
  repeat (repeat (repeat 0 L) w) h.

Definition np_zeros3 (h w : nat) (L : Z) : result volume :=
  if (L <? 0)%Z then Raise ValueError else Ok (zeros3 h w (Z.to_nat L)).

Definition np_zeros1 (n : Z) : result vec :=
  if (n <? 0)%Z then Raise ValueError else Ok (repeat 0 (Z.to_nat n)).

(** [np.roll] along one axis: the element at [i] moves to [(i + shift) mod n]. *)
Definition roll {A : Type} (shift : Z) (l : list A) : list A :=
  let k := Z.to_nat ((- shift) mod Z.of_nat (length l)) in
  skipn k l ++ firstn k l.

Definition np_roll {A : Type} (a : list (list A)) (shift : Z) (axis : nat)
  : list (list A) :=
  match axis with
  | O => roll shift a
  | _ => map (roll shift) a
  end.

(** [a[i, ...] = 0] and [a[:, i, ...] = 0]; [z] zeroes one entry of the
    second axis. *)
Definition assign_axis0 {A : Type} (z : A -> A) (a : list (list A)) (i : Z)
  : result (list (list A)) :=
  k <- py_index (length a) i ;;
  Ok (upd k (map z) a).

Definition assign_axis1 {A : Type} (z : A -> A) (a : list (list A)) (i : Z)
  : result (list (list A)) :=
  k <- py_index (length (hd [] a)) i ;;
  Ok (map (upd k z) a).

Definition zeros_like (v : vec) : vec := map (fun _ => 0) v.

(** [a + b] on arrays of one shape. *)
Definition np_add (a b : volume) : result volume :=
  if shape3_eqb (shape3 a) (shape3 b)
  then Ok (map2 (map2 (map2 Qplus)) a b)
  else Raise ValueError.

(** [np.amin(a, axis=2)]: a reduction without identity, a [ValueError] on
    an empty label axis. *)
Definition amin (v : vec) : result Q :=
  match v with
  | [] => Raise ValueError
  | c :: t => Ok (fold_left Qmin t c)
  end.

Definition np_amin (a : volume) : result matrix :=
  mapM (mapM amin) a.

(** [a[:, :, l]] *)
Definition slice_axis2 (a : volume) (l : nat) : result matrix :=
  if (l <? snd (shape3 a))%nat
  then Ok (map (map (fun v => nth l v 0)) a)
  else Raise IndexError.

(** [a[:, :, l] = m] *)
Definition assign_slice_axis2 (a : volume) (l : nat) (m : matrix)
  : result volume :=
  if (l <? snd (shape3 a))%nat
  then if shape2_eqb (fst (shape3 a)) (shape2 m)
       then Ok (map2 (map2 (fun v c => upd l (fun _ => c) v)) a m)
       else Raise ValueError
  else Raise IndexError.

Definition np_minimum (a b : matrix) : matrix := map2 (map2 Qmin) a b.

Definition scalar_add (c : Q) (a : matrix) : matrix := map (map (Qplus c)) a.

Definition vsum (v : vec) : Q := fold_right Qplus 0 v.

(** [np.mean] over the label axis.  On an empty vector NumPy gives nan; the
    value chosen here is never used, an empty vector has no entry to
    subtract it from. *)
Definition mean (v : vec) : Q := vsum v / inject_Z (Z.of_nat (length v)).

Definition np_mean (a : volume) : matrix := map (map mean) a.

(** [a -= avg[:, :, np.newaxis]] *)
Definition isub_newaxis (a : volume) (avg : matrix) : volume :=
  map2 (map2 (fun v m => map (fun e => e - m) v)) a avg.

(** [np.argmin]: the index of the first occurrence of the minimum. *)
Fixpoint argmin_from (best : Q) (bi i : nat) (v : vec) : nat :=
  match v with
  | [] => bi
  | c :: t =>
      match Qcompare c best with
      | Lt => argmin_from c i (S i) t
      | _ => argmin_from best bi (S i) t
      end
  end.

Definition argmin (v : vec) : result Z :=
  match v with
  | [] => Raise ValueError
  | c :: t => Ok (Z.of_nat (argmin_from c 0 1 t))
  end.

Definition np_argmin (a : volume) : result (list (list Z)) :=
  mapM (mapM argmin) a.

(** [np.sum] of a matrix, and of a boolean matrix (the number of [True]). *)
Definition np_sum (a : matrix) : Q := vsum (map vsum a).

Definition count_true (b : list (list bool)) : Z :=
  Z.of_nat (length (filter (fun c => c) (concat b))).

(** [np.linalg.norm(v, 1)] *)
Definition norm1 (v : vec) : Q := vsum (map Qabs v).

(** [a - b] on two pixel vectors, a one-channel operand being broadcast. *)
Definition vsub (a b : vec) : result vec :=
  if (length a =? length b)%nat then Ok (map2 Qminus a b)
  else match a, b with
       | [c], _ => Ok (map (fun e => c - e) b)
       | _, [c] => Ok (map (fun e => e - c) a)
       | _, _ => Raise ValueError
       end.

(** [a[y, x]] with Python indices. *)
Definition getitem {A : Type} (l : list A) (i : Z) : result A :=
  k <- py_index (length l) i ;;
  match nth_error l k with
  | Some a => Ok a
  | None => Raise IndexError
  end.

Definition getitem2 {A : Type} (a : list (list A)) (y x : Z) : result A :=
  r <- getitem a y ;; getitem r x.

(** [l[i] = c] with a Python index. *)
Definition setitem {A : Type} (l : list A) (i : Z) (c : A) : result (list A) :=
  k <- py_index (length l) i ;;
  Ok (upd k (fun _ => c) l).

(** [a[y_values, x_values, idx]] for the index grids of [np.meshgrid]:
    entry [(y, x)] is [a[y, x, idx[y, x]]].  An index array of another shape
    is an [IndexError] (broadcastable ones are not modelled). *)
Definition take_along_axis2 (a : volume) (idx : list (list Z)) : result matrix :=
  if shape2_eqb (fst (shape3 a)) (shape2 idx)
  then mapM (fun p => mapM (fun q => getitem (fst q) (snd q))
                           (combine (fst p) (snd p)))
            (combine a idx)
  else Raise IndexError.

(** Integer arrays: [a - b], [a != 0]; boolean arrays: [a + b], which NumPy
    computes as the logical or. *)
Definition np_subZ (a b : list (list Z)) : list (list Z) :=
  map2 (map2 Z.sub) a b.

Definition np_ne0 (a : list (list Z)) : list (list bool) :=
  map (map (fun d => negb (d =? 0)%Z)) a.

Definition np_add_bool (a b : list (list bool)) : list (list bool) :=
  map2 (map2 orb) a b.

End Np.

Export Np.

(** ** The program *)

Abbreviation image := (list (list (list Q))) (only parsing).

(** Left-associated sums of arrays, as in [a + b + c + d]. *)
Definition radd (ra : result volume) (b : volume) : result volume :=
  a <- ra ;; np_add a b.

Infix "+." := radd (at level 50, left associativity) : py_scope.

(** The module-level [num_disp_values = 16] of the script, a global of the
    functions below; [compute_data_cost] and [stereo_bp] have a parameter of
    the same name, which hides it there. *)
Definition num_disp_values : Z := 16.

(** [compute_data_cost]: the array is allocated, then the three nested loops
    write each entry once, [y] outermost and [l] innermost. *)
Definition compute_data_cost (I1 I2 : image) (num_disp_values : Z) (Tau : Q)
  : result volume :=
  let '(h, w, _) := shape3 I1 in
  _ <- np_zeros3 h w num_disp_values ;;
  mapM (fun y =>
    mapM (fun x =>
      mapM (fun l =>
        p1 <- getitem2 I1 (Z.of_nat y) (Z.of_nat x) ;;
        p2 <- getitem2 I2 (Z.of_nat y) (Z.of_nat x - Z.of_nat l) ;;
        d <- vsub p1 p2 ;;
        Ok (Qmin ((1 # 3) * norm1 d) Tau))
      (seq 0 (Z.to_nat num_disp_values)))
    (seq 0 w))
  (seq 0 h).

(** [compute_energy]; the four [potts] arrays are boolean, their sum is the
    logical or of NumPy and [np.sum] counts its [True] entries. *)
Definition compute_energy (dataCost : volume) (disparity : list (list Z))
  (Lambda : Q) : result Q :=
  let '(h, w, _) := shape3 dataCost in
  costs <- take_along_axis2 dataCost disparity ;;
  let energy := np_sum costs in
  let pottsU := np_ne0 (np_subZ disparity (np_roll disparity (-1) 0)) in
  let pottsD := np_ne0 (np_subZ disparity (np_roll disparity 1 0)) in
  let pottsL := np_ne0 (np_subZ disparity (np_roll disparity (-1) 1)) in
  let pottsR := np_ne0 (np_subZ disparity (np_roll disparity 1 1)) in
  pottsU <- assign_axis0 (fun _ => false) pottsU 0 ;;
  pottsD <- assign_axis0 (fun _ => false) pottsD (Z.of_nat h - 1) ;;
  pottsL <- assign_axis1 (fun _ => false) pottsL 0 ;;
  pottsR <- assign_axis1 (fun _ => false) pottsR (Z.of_nat w - 1) ;;
  let potts :=
    np_add_bool (np_add_bool (np_add_bool pottsU pottsD) pottsL) pottsR in
  Ok (energy + Lambda * inject_Z (count_true potts)).

Abbreviation messages := (volume * volume * volume * volume)%type (only parsing).

(** The body of the loop over the labels of [update_msg]. *)
Definition update_label (AU AD AL AR : volume) (BU BD BL BR : matrix)
  (Lambda : Q) (l : nat) (m : messages) : result messages :=
  let '(msgU, msgD, msgL, msgR) := m in
  sU <- slice_axis2 AU l ;;
  msgU <- assign_slice_axis2 msgU l (np_minimum sU (scalar_add Lambda BU)) ;;
  sD <- slice_axis2 AD l ;;
  msgD <- assign_slice_axis2 msgD l (np_minimum sD (scalar_add Lambda BD)) ;;
  sL <- slice_axis2 AL l ;;
  msgL <- assign_slice_axis2 msgL l (np_minimum sL (scalar_add Lambda BL)) ;;
  sR <- slice_axis2 AR l ;;
  msgR <- assign_slice_axis2 msgR l (np_minimum sR (scalar_add Lambda BR)) ;;
  Ok (msgU, msgD, msgL, msgR).

(** [update_msg]; its loop runs over [range(num_disp_values)], the global. *)
Definition update_msg (msgUPrev msgDPrev msgLPrev msgRPrev dataCost : volume)
  (Lambda : Q) : result messages :=
  let '(h, w, L) := shape3 dataCost in
  let msgU := zeros3 h w L in
  let msgD := zeros3 h w L in
  let msgL := zeros3 h w L in
  let msgR := zeros3 h w L in
  let incMsgU := np_roll msgDPrev (-1) 0 in
  let incMsgD := np_roll msgUPrev 1 0 in
  let incMsgL := np_roll msgRPrev (-1) 1 in
  let incMsgR := np_roll msgLPrev 1 1 in
  incMsgU <- assign_axis0 zeros_like incMsgU (Z.of_nat h - 1) ;;
  incMsgD <- assign_axis0 zeros_like incMsgD 0 ;;
  incMsgL <- assign_axis1 zeros_like incMsgL (Z.of_nat w - 1) ;;
  incMsgR <- assign_axis1 zeros_like incMsgR 0 ;;
  AU <- Ok dataCost +. incMsgD +. incMsgL +. incMsgR ;;
  AD <- Ok dataCost +. incMsgU +. incMsgL +. incMsgR ;;
  AL <- Ok dataCost +. incMsgU +. incMsgD +. incMsgR ;;
  AR <- Ok dataCost +. incMsgU +. incMsgD +. incMsgL ;;
  BU <- np_amin AU ;;
  BD <- np_amin AD ;;
  BL <- np_amin AL ;;
  BR <- np_amin AR ;;
  for_range (Z.to_nat num_disp_values)
    (update_label AU AD AL AR BU BD BL BR Lambda)
    (msgU, msgD, msgL, msgR).

(** [normalize_msg] works in place; the arrays it returns are its (changed)
    arguments. *)
Definition normalize_msg (msgU msgD msgL msgR : volume) : messages :=
  let avg := np_mean msgU in
  let msgU := isub_newaxis msgU avg in
  let avg := np_mean msgD in
  let msgD := isub_newaxis msgD avg in
  let avg := np_mean msgL in
  let msgL := isub_newaxis msgL avg in
  let avg := np_mean msgR in
  let msgR := isub_newaxis msgR avg in
  (msgU, msgD, msgL, msgR).

(** [compute_belief]; the copy of [dataCost] changes nothing here. *)
Definition compute_belief (dataCost msgU msgD msgL msgR : volume)
  : result volume :=
  Ok dataCost +. msgU +. msgD +. msgL +. msgR.

Definition MAP_labeling (beliefs : volume) : result (list (list Z)) :=
  np_argmin beliefs.

(** The variables of the loop of [stereo_bp]; [disparity] is unbound until
    the first iteration assigns it. *)
Record bp_state : Type := mk_state {
  st_msgs : messages;
  st_disparity : option (list (list Z));
  st_energy : vec
}.

(** The body of the loop of [stereo_bp]. *)
Definition bp_iteration (dataCost : volume) (Lambda : Q) (iter : nat)
  (st : bp_state) : result bp_state :=
  let '(msgU, msgD, msgL, msgR) := st_msgs st in
  '(msgU, msgD, msgL, msgR) <-
    update_msg msgU msgD msgL msgR dataCost Lambda ;;
  let '(msgU, msgD, msgL, msgR) := normalize_msg msgU msgD msgL msgR in
  beliefs <- compute_belief dataCost msgU msgD msgL msgR ;;
  disparity <- MAP_labeling beliefs ;;
  e <- compute_energy dataCost disparity Lambda ;;
  energy <- setitem (st_energy st) (Z.of_nat iter) e ;;
  Ok (mk_state (msgU, msgD, msgL, msgR) (Some disparity) energy).

(** [stereo_bp], with [Tau] and [num_iterations] given; the call of the
    script leaves them at their defaults, 15 and 60. *)
Definition stereo_bp (I1 I2 : image) (num_disp_values : Z) (Lambda Tau : Q)
  (num_iterations : Z) : result (list (list Z) * vec) :=
  dataCost <- compute_data_cost I1 I2 num_disp_values Tau ;;
  energy <- np_zeros1 num_iterations ;;
  let '(h, w, _) := shape3 I1 in
  msgU <- np_zeros3 h w num_disp_values ;;
  msgD <- np_zeros3 h w num_disp_values ;;
  msgL <- np_zeros3 h w num_disp_values ;;
  msgR <- np_zeros3 h w num_disp_values ;;
  st <- for_range (Z.to_nat num_iterations) (bp_iteration dataCost Lambda)
          (mk_state (msgU, msgD, msgL, msgR) None energy) ;;
  match st_disparity st with
  | Some disparity => Ok (disparity, st_energy st)
  | None => Raise UnboundLocalError
  end.

(** ** Notions used in the statements *)

(** A label vector with its mean subtracted. *)
Definition normalize_vec (v : vec) : vec := map (fun e => e - mean v) v.

(** Arrays of one shape with equal numbers at every index. *)
Definition vol_eq : volume -> volume -> Prop :=
  Forall2 (Forall2 (Forall2 Qeq)).

Definition msgs_eq (m n : messages) : Prop :=
  let '(mU, mD, mL, mR) := m in
  let '(nU, nD, nL, nR) := n in
  vol_eq mU nU /\ vol_eq mD nD /\ vol_eq mL nL /\ vol_eq mR nR.

(** The truncated matching cost of the docstring of [compute_data_cost],
    [min(1/3 ||I1[y,x] - I2[y,x2]||_1, Tau)], over [c] channels and with the
    column [x2] of the second image given. *)
Definition matching_cost (I1 I2 : image) (c : nat) (Tau : Q) (y x x2 : nat)
  : Q :=
  Qmin ((1 # 3) *
        vsum (map (fun k => Qabs (get3 I1 y x k - get3 I2 y x2 k)) (seq 0 c)))
       Tau.

(** The four directions of the message fields. *)
Inductive direction : Set := dir_U | dir_D | dir_L | dir_R.

Definition field {T : Type} (dir : direction) (m : T * T * T * T) : T :=
  let '(mU, mD, mL, mR) := m in
  match dir with
  | dir_U => mU
  | dir_D => mD
  | dir_L => mL
  | dir_R => mR
  end.

(** What a pixel received in the previous round from its neighbour above
    (that neighbour's [msgU]), below ([msgD]), on the left ([msgL]) and on
    the right ([msgR]); nothing where the image has no such neighbour. *)
Definition from_above (prev : messages) (y x l : nat) : Q :=
  if (y =? 0)%nat then 0 else get3 (field dir_U prev) (y - 1) x l.

Definition from_below (h : nat) (prev : messages) (y x l : nat) : Q :=
  if (S y =? h)%nat then 0 else get3 (field dir_D prev) (S y) x l.

Definition from_left (prev : messages) (y x l : nat) : Q :=
  if (x =? 0)%nat then 0 else get3 (field dir_L prev) y (x - 1) l.

Definition from_right (w : nat) (prev : messages) (y x l : nat) : Q :=
  if (S x =? w)%nat then 0 else get3 (field dir_R prev) y (S x) l.

(** The sum [A] of a direction: the data cost of the pixel and what it
    received from three of its neighbours. *)
Definition incoming_sum (dir : direction) (h w : nat) (prev : messages)
  (dataCost : volume) (y x l : nat) : Q :=
  match dir with
  | dir_U => get3 dataCost y x l + from_above prev y x l
             + from_right w prev y x l + from_left prev y x l
  | dir_D => get3 dataCost y x l + from_below h prev y x l
             + from_right w prev y x l + from_left prev y x l
  | dir_L => get3 dataCost y x l + from_below h prev y x l
             + from_above prev y x l + from_left prev y x l
  | dir_R => get3 dataCost y x l + from_below h prev y x l
             + from_above prev y x l + from_right w prev y x l
  end.

(** [m] is the least of [f 0], ..., [f (L - 1)]. *)
Definition is_min (m : Q) (f : nat -> Q) (L : nat) : Prop :=
  (exists l, (l < L)%nat /\ m == f l) /\
  forall l, (l < L)%nat -> m <= f l.

Definition wf_messages (h w L : nat) (m : messages) : Prop :=
  forall dir, wf3 h w L (field dir m).

(** The value the loop of [update_msg] writes at label [l] of a field:
    [np.minimum(A[:, :, l], Lambda + B)]. *)
Definition written (A : messages)
  (B : list (list Q) * list (list Q) * list (list Q) * list (list Q))
  (Lambda : Q) (dir : direction) (y x l : nat) : Q :=
  Qmin (get3 (field dir A) y x l) (Lambda + get2 0 (field dir B) y x).

Ltac step H := rewrite H; cbn [bind].

(** The state in which [stereo_bp] enters its loop. *)
Definition initial_state (h w L n : nat) : bp_state :=
  mk_state (zeros3 h w L, zeros3 h w L, zeros3 h w L, zeros3 h w L)
           None (repeat 0 n).

(** A cost vector of sixteen labels, label 0 the cheapest. *)
Definition cost16 : vec := 0 :: repeat 3 15.

(** A row of fifteen black pixels, one channel; the same with a second row. *)
Definition flat15 : image := [repeat [0] 15].

Definition tall15 : image := [repeat [0] 15; repeat [0] 15].

(** The energy as the specification words it.  [differing_neighbours] counts,
    over all pixels, the neighbours inside the image (above, below, left,
    right) whose disparity differs: every pair of neighbours once from each
    of its two ends. *)
Definition differs (d : list (list Z)) (y x y' x' : nat) : Z :=
  if (get2 0 d y x =? get2 0 d y' x')%Z then 0%Z else 1%Z.

Definition differing_neighbours (h w : nat) (d : list (list Z)) : Z :=
  fold_right Z.add 0%Z
    (map (fun y =>
       fold_right Z.add 0%Z
         (map (fun x =>
            (if (0 <? y)%nat then differs d y x (y - 1) x else 0) +
            (if (S y <? h)%nat then differs d y x (S y) x else 0) +
            (if (0 <? x)%nat then differs d y x y (x - 1) else 0) +
            (if (S x <? w)%nat then differs d y x y (S x) else 0))%Z
          (seq 0 w)))
     (seq 0 h)).

Definition data_term (h w : nat) (dataCost : volume) (d : list (list Z)) : Q :=
  vsum (map (fun y =>
         vsum (map (fun x => get3 dataCost y x (Z.to_nat (get2 0%Z d y x)))
                   (seq 0 w)))
       (seq 0 h)).

Definition energy_spec (h w : nat) (dataCost : volume) (d : list (list Z))
  (Lambda : Q) : Q :=
  data_term h w dataCost d + Lambda * inject_Z (differing_neighbours h w d).

(** Arrays without negative entry; disparity maps with labels in [0, L). *)
Definition nonneg (v : vec) : Prop := Forall (fun q => 0 <= q) v.

Definition nonneg3 (a : volume) : Prop := Forall (Forall nonneg) a.

Definition labels_in_range (h w L : nat) (d : list (list Z)) : Prop :=
  forall y x, (y < h)%nat -> (x < w)%nat ->
    (0 <= get2 0 d y x < Z.of_nat L)%Z.

(** The cyclic neighbours of an index on an axis of [n] entries, as
    [np.roll] pairs them. *)
Definition cyc_succ (n i : nat) : nat :=
  if (S i =? n)%nat then 0%nat else S i.

Definition cyc_pred (n i : nat) : nat :=
  if (i =? 0)%nat then (n - 1)%nat else (i - 1)%nat.

(** The pixels [compute_energy] marks: outside row 0 those that differ from
    the cyclic next row, outside row [h - 1] those that differ from the
    cyclic previous row, and the same along the columns. *)
Definition marked (h w : nat) (d : list (list Z)) (y x : nat) : bool :=
  let v := get2 0%Z d y x in
  (negb (y =? 0)%nat && negb (v =? get2 0%Z d (cyc_succ h y) x)%Z)
  || (negb (S y =? h)%nat && negb (v =? get2 0%Z d (cyc_pred h y) x)%Z)
  || (negb (x =? 0)%nat && negb (v =? get2 0%Z d y (cyc_succ w x))%Z)
  || (negb (S x =? w)%nat && negb (v =? get2 0%Z d y (cyc_pred w x))%Z).

Definition count_pixels (h w : nat) (p : nat -> nat -> bool) : Z :=
  fold_right Z.add 0%Z
    (map (fun y =>
       fold_right Z.add 0%Z
         (map (fun x => if p y x then 1%Z else 0%Z) (seq 0 w)))
     (seq 0 h)).

Definition marked_pixels (h w : nat) (d : list (list Z)) : Z :=
  count_pixels h w (marked h w d).

(** ** [normalize_msg] on binary64 numbers

    The arrays of the program hold binary64 numbers.  For shapes, indices,
    exceptions and the comparisons of computed numbers the rationals above
    say what the program does; equalities between the results of different
    computations also depend on the roundings, which [F64] keeps:
    [normalize_msg] on the numbers of the code.  [np.mean] adds fewer than
    eight numbers from left to right, starting from 0, and divides the sum
    by their count; the subtraction rounds each entry. *)
Module F64.

Definition matrix64 : Type := list (list PrimFloat.float).

Definition volume64 : Type := list (list (list PrimFloat.float)).

Definition fields : Type := (volume64 * volume64 * volume64 * volume64)%type.

Definition of_nat (n : nat) : PrimFloat.float :=
  PrimFloat.of_uint63 (Uint63.of_Z (Z.of_nat n)).

Definition vsum (v : list PrimFloat.float) : PrimFloat.float :=
  fold_left PrimFloat.add v PrimFloat.zero.

Definition mean (v : list PrimFloat.float) : PrimFloat.float :=
  PrimFloat.div (vsum v) (of_nat (length v)).

Definition np_mean (a : volume64) : matrix64 :=
  map (map mean) a.

Definition isub_newaxis (a : volume64)
  (avg : matrix64) : volume64 :=
  map2 (map2 (fun v m => map (fun e => PrimFloat.sub e m) v)) a avg.

Definition normalize_msg (msgU msgD msgL msgR : volume64) : fields :=
  let avg := np_mean msgU in
  let msgU := isub_newaxis msgU avg in
  let avg := np_mean msgD in
  let msgD := isub_newaxis msgD avg in
  let avg := np_mean msgL in
  let msgL := isub_newaxis msgL avg in
  let avg := np_mean msgR in
  let msgR := isub_newaxis msgR avg in
  (msgU, msgD, msgL, msgR).

(** One pixel with the messages 1, 2 and 4 for its three labels. *)
Definition labels124 : volume64 :=
  [[[of_nat 1; of_nat 2; of_nat 4]]].

Definition entry (a : volume64) (y x l : nat) : PrimFloat.float :=
  nth l (nth x (nth y a []) []) PrimFloat.zero.

End F64.

(** * Properties *)

(** ** Lists *)

Section ListFacts.

Context {A B C : Type}.

Lemma length_map2 (f : A -> B -> C) (l1 : list A) (l2 : list B) :
  length (map2 f l1 l2) = Nat.min (length l1) (length l2).
Proof.
  revert l2; induction l1 as [|a t IH]; intros [|b t2]; simpl; auto.
Qed.

Lemma nth_map2 (f : A -> B -> C) (l1 : list A) (l2 : list B) i da db dc :
  (i < length l1)%nat -> (i < length l2)%nat ->
  nth i (map2 f l1 l2) dc = f (nth i l1 da) (nth i l2 db).
Proof.
  revert l2 i; induction l1 as [|a t IH]; intros [|b t2] [|i]; simpl;
    intros H1 H2; try lia; auto.
  apply IH; lia.
Qed.

Lemma map2_map_r (f : A -> B -> C) (g : A -> B) (l : list A) :
  map2 f l (map g l) = map (fun a => f a (g a)) l.
Proof.
  induction l as [|a t IH]; simpl; congruence.
Qed.

Lemma length_upd (k : nat) (f : A -> A) (l : list A) :
  length (upd k f l) = length l.
Proof.
  revert k; induction l as [|a t IH]; intros [|k]; simpl; auto.
Qed.

Lemma nth_upd (k : nat) (f : A -> A) (l : list A) i d :
  (i < length l)%nat ->
  nth i (upd k f l) d = if (i =? k)%nat then f (nth i l d) else nth i l d.
Proof.
  revert k i; induction l as [|a t IH]; intros [|k] [|i]; simpl;
    intros H; try lia; auto.
  apply IH; lia.
Qed.

Lemma nth_rotate (k : nat) (l : list A) i d :
  (k <= length l)%nat -> (i < length l)%nat ->
  nth i (skipn k l ++ firstn k l) d =
  nth (if (i <? length l - k)%nat then i + k else i - (length l - k))%nat l d.
Proof.
  intros Hk Hi.
  destruct (Nat.ltb_spec i (length l - k)) as [Hlt|Hge].
  - rewrite app_nth1 by (rewrite length_skipn; lia).
    rewrite nth_skipn. f_equal; lia.
  - rewrite app_nth2 by (rewrite length_skipn; lia).
    rewrite length_skipn.
    rewrite nth_firstn.
    destruct (Nat.ltb_spec (i - (length l - k)) k); [reflexivity | lia].
Qed.

Lemma length_roll (shift : Z) (l : list A) : length (roll shift l) = length l.
Proof.
  unfold roll. rewrite length_app, length_skipn, length_firstn. lia.
Qed.

(** [np.roll(a, -1)]: entry [i] is the old entry [i + 1], cyclically. *)
Lemma nth_roll_back (l : list A) i d :
  (i < length l)%nat ->
  nth i (roll (-1) l) d =
  nth (if (S i =? length l)%nat then 0 else S i)%nat l d.
Proof.
  intros Hi. unfold roll.
  assert (Hk : Z.to_nat ((- -1) mod Z.of_nat (length l)) =
               if (length l =? 1)%nat then 0%nat else 1%nat).
  { destruct (Nat.eqb_spec (length l) 1) as [E|E].
    - rewrite E. reflexivity.
    - rewrite Z.mod_small by lia. reflexivity. }
  rewrite Hk.
  destruct (Nat.eqb_spec (length l) 1) as [E|E].
  - rewrite nth_rotate by lia.
    destruct (Nat.ltb_spec i (length l - 0)); [|lia].
    destruct (Nat.eqb_spec (S i) (length l)); [|lia].
    f_equal; lia.
  - rewrite nth_rotate by lia.
    destruct (Nat.ltb_spec i (length l - 1));
      destruct (Nat.eqb_spec (S i) (length l)); try lia; f_equal; lia.
Qed.

(** [np.roll(a, 1)]: entry [i] is the old entry [i - 1], cyclically. *)
Lemma nth_roll_forth (l : list A) i d :
  (i < length l)%nat ->
  nth i (roll 1 l) d =
  nth (if (i =? 0)%nat then length l - 1 else i - 1)%nat l d.
Proof.
  intros Hi. unfold roll.
  assert (Hk : Z.to_nat (Z.opp 1 mod Z.of_nat (length l)) = (length l - 1)%nat).
  { replace (Z.opp 1) with (Z.of_nat (length l - 1) + (-1) * Z.of_nat (length l))%Z
      by lia.
    rewrite Z.mod_add by lia. rewrite Z.mod_small by lia. lia. }
  rewrite Hk, nth_rotate by lia.
  destruct (Nat.ltb_spec i (length l - (length l - 1)));
    destruct (Nat.eqb_spec i 0); try lia; f_equal; lia.
Qed.

End ListFacts.

(** ** Normalisation of the messages *)

Lemma isub_newaxis_mean (a : volume) :
  isub_newaxis a (np_mean a) = map (map normalize_vec) a.
Proof.
  unfold isub_newaxis, np_mean. rewrite map2_map_r.
  apply map_ext. intros r. now rewrite map2_map_r.
Qed.

Lemma normalize_msg_fields (msgU msgD msgL msgR : volume) :
  normalize_msg msgU msgD msgL msgR =
  (map (map normalize_vec) msgU, map (map normalize_vec) msgD,
   map (map normalize_vec) msgL, map (map normalize_vec) msgR).
Proof.
  unfold normalize_msg. now rewrite !isub_newaxis_mean.
Qed.

Lemma vsum_shift (m : Q) (v : vec) :
  vsum (map (fun e => e - m) v) ==
  vsum v - inject_Z (Z.of_nat (length v)) * m.
Proof.
  induction v as [|a t IH].
  - simpl. ring.
  - change (a - m + vsum (map (fun e => e - m) t) ==
            a + vsum t - inject_Z (Z.of_nat (S (length t))) * m).
    rewrite IH, Nat2Z.inj_succ. unfold Z.succ. rewrite inject_Z_plus. ring.
Qed.

Lemma mean_normalize_vec (v : vec) : v <> [] -> mean (normalize_vec v) == 0.
Proof.
  intros Hv. unfold mean at 1, normalize_vec.
  rewrite length_map, vsum_shift. unfold mean.
  assert (Hn : ~ inject_Z (Z.of_nat (length v)) == 0).
  { destruct v as [|a t]; [congruence|].
    change 0 with (inject_Z 0). rewrite inject_Z_injective. simpl length. lia. }
  field. exact Hn.
Qed.

Lemma normalize_vec_idempotent (v : vec) :
  Forall2 Qeq (normalize_vec (normalize_vec v)) (normalize_vec v).
Proof.
  destruct v as [|a t]; [constructor|].
  assert (H0 : mean (normalize_vec (a :: t)) == 0)
    by (apply mean_normalize_vec; discriminate).
  unfold normalize_vec at 1.
  generalize dependent (mean (normalize_vec (a :: t))). intros m Hm.
  induction (normalize_vec (a :: t)) as [|b u IH]; simpl; constructor; auto.
  rewrite Hm. ring.
Qed.

Lemma normalize_field_idempotent (a : volume) :
  vol_eq (map (map normalize_vec) (map (map normalize_vec) a))
         (map (map normalize_vec) a).
Proof.
  unfold vol_eq.
  induction a as [|r a IH]; simpl; constructor; auto.
  clear IH. induction r as [|v r IH]; simpl; constructor; auto.
  apply normalize_vec_idempotent.
Qed.

(** C9, in exact arithmetic.  Normalising the four message fields a second
    time changes nothing: the result of [normalize_msg] on its own result
    has the same shape and the same numbers. *)
Theorem normalize_msg_idempotent (msgU msgD msgL msgR : volume) :
  let '(nU, nD, nL, nR) := normalize_msg msgU msgD msgL msgR in
  msgs_eq (normalize_msg nU nD nL nR) (nU, nD, nL, nR).
Proof.
  rewrite (normalize_msg_fields msgU msgD msgL msgR). cbv beta iota.
  rewrite normalize_msg_fields. unfold msgs_eq. repeat split; apply normalize_field_idempotent.
Qed.

(** C6. After [normalize_msg], in each of the four fields the mean over the
    labels of the message vector of every pixel is zero (the label axis not
    being empty). *)
Theorem normalize_msg_zero_mean (msgU msgD msgL msgR : volume)
  (F : volume) (row : list vec) (v : vec) :
  (let '(nU, nD, nL, nR) := normalize_msg msgU msgD msgL msgR in
   In F [nU; nD; nL; nR]) ->
  In row F -> In v row -> v <> [] ->
  mean v == 0.
Proof.
  rewrite normalize_msg_fields. intros HF Hrow Hv Hne.
  assert (HF' : exists a, F = map (map normalize_vec) a).
  { simpl in HF. destruct HF as [H|[H|[H|[H|[]]]]]; eauto. }
  destruct HF' as [a ->].
  apply in_map_iff in Hrow. destruct Hrow as [r [<- _]].
  apply in_map_iff in Hv. destruct Hv as [u [<- _]].
  apply mean_normalize_vec. intros ->. now apply Hne.
Qed.

(** ** Comprehensions and loops in the error monad *)

Section MonadFacts.

Context {A B : Type}.

Lemma mapM_Forall2 (P : A -> B -> Prop) (f : A -> result B) (l : list A) :
  (forall a, In a l -> exists b, f a = Ok b /\ P a b) ->
  exists bs, mapM f l = Ok bs /\ Forall2 P l bs.
Proof.
  induction l as [|a t IH]; intros H.
  - exists []. split; [reflexivity | constructor].
  - destruct (H a (or_introl eq_refl)) as [b [Hb Pb]].
    destruct IH as [bs [Hbs Pbs]]; [intros; apply H; now right|].
    exists (b :: bs). simpl. rewrite Hb. simpl. rewrite Hbs. simpl.
    split; [reflexivity | now constructor].
Qed.

Lemma mapM_raises (f : A -> result B) (l : list A) (a : A) :
  In a l -> raises (f a) -> raises (mapM f l).
Proof.
  induction l as [|c t IH]; intros Hin [e He]; [contradiction|].
  simpl. destruct Hin as [->|Hin].
  - rewrite He. now exists e.
  - destruct (f c); simpl; [|eexists; reflexivity].
    destruct (IH Hin (ex_intro _ e He)) as [e' ->]. now exists e'.
Qed.

Lemma Forall2_nth_rel (P : A -> B -> Prop) (l : list A) (bs : list B) i da db :
  Forall2 P l bs -> (i < length l)%nat -> P (nth i l da) (nth i bs db).
Proof.
  intros H; revert i; induction H; intros [|i] Hi; simpl in *; try lia; auto.
  apply IHForall2; lia.
Qed.

End MonadFacts.

Lemma for_from_invariant {St : Type} (I : nat -> St -> Prop)
  (body : nat -> St -> result St) (n start : nat) (s : St) :
  (forall i t, (start <= i < start + n)%nat -> I i t ->
               exists t', body i t = Ok t' /\ I (S i) t') ->
  I start s ->
  exists s', for_from start n body s = Ok s' /\ I (start + n)%nat s'.
Proof.
  revert start s; induction n as [|n IH]; intros start s Hstep H0.
  - exists s. rewrite Nat.add_0_r. now split.
  - destruct (Hstep start s) as [t [Ht It]]; [lia | assumption |].
    destruct (IH (S start) t) as [s' [Hs' Is']]; [|assumption|].
    + intros i u Hi. apply Hstep. lia.
    + exists s'. simpl. rewrite Ht. simpl. rewrite Hs'.
      replace (start + S n)%nat with (S start + n)%nat by lia. now split.
Qed.

(** ** Shapes *)

Lemma wf3_row {A : Type} h w L (a : list (list (list A))) y :
  wf3 h w L a -> (y < h)%nat -> length (nth y a []) = w.
Proof.
  intros [Hh Hf] Hy. rewrite Forall_forall in Hf.
  apply Hf, nth_In. lia.
Qed.

Lemma wf3_pixel {A : Type} h w L (a : list (list (list A))) y x :
  wf3 h w L a -> (y < h)%nat -> (x < w)%nat ->
  length (nth x (nth y a []) []) = L.
Proof.
  intros [Hh Hf] Hy Hx. rewrite Forall_forall in Hf.
  destruct (Hf (nth y a [])) as [Hw Hr]; [apply nth_In; lia|].
  rewrite Forall_forall in Hr. apply Hr, nth_In. lia.
Qed.

Lemma wf3_intro {A : Type} h w L (a : list (list (list A))) :
  length a = h ->
  (forall y, (y < h)%nat -> length (nth y a []) = w) ->
  (forall y x, (y < h)%nat -> (x < w)%nat ->
               length (nth x (nth y a []) []) = L) ->
  wf3 h w L a.
Proof.
  intros Hh Hw HL. split; [assumption|].
  apply Forall_forall. intros r Hr.
  destruct (In_nth _ _ [] Hr) as [y [Hy <-]]. rewrite Hh in Hy.
  split; [now apply Hw|].
  apply Forall_forall. intros v Hv.
  destruct (In_nth _ _ [] Hv) as [x [Hx <-]]. rewrite Hw in Hx by assumption.
  now apply HL.
Qed.

Lemma wf3_shape {A : Type} h w L (a : list (list (list A))) :
  wf3 h w L a -> (0 < h)%nat -> (0 < w)%nat -> shape3 a = (h, w, L).
Proof.
  intros Hwf Hh Hw. unfold shape3.
  pose proof (wf3_row (y:=0%nat) Hwf Hh) as H1.
  pose proof (wf3_pixel (y:=0%nat) (x:=0%nat) Hwf Hh Hw) as H2.
  destruct Hwf as [H0 _].
  destruct a as [|r a]; simpl in *; [lia|].
  destruct r as [|v r]; simpl in *; [lia|]. congruence.
Qed.

(** ** The argmin of a label vector *)

Lemma argmin_from_spec (v pre : vec) (best : Q) (bi : nat) :
  (bi < length pre)%nat ->
  nth bi pre 0 = best ->
  (forall j, (j < length pre)%nat -> best <= nth j pre 0) ->
  (forall j, (j < bi)%nat -> best < nth j pre 0) ->
  let k := argmin_from best bi (length pre) v in
  (k < length (pre ++ v))%nat /\
  (forall j, (j < length (pre ++ v))%nat ->
             nth k (pre ++ v) 0 <= nth j (pre ++ v) 0) /\
  (forall j, (j < k)%nat -> nth k (pre ++ v) 0 < nth j (pre ++ v) 0).
Proof.
  revert pre best bi. induction v as [|c t IH]; intros pre best bi Hbi Hb Hle Hlt.
  - simpl. rewrite app_nil_r. subst best. repeat split; auto.
  - assert (Hlen : length (pre ++ [c]) = S (length pre))
      by (rewrite length_app; simpl; lia).
    assert (Hold : forall j, (j < length pre)%nat ->
                             nth j (pre ++ [c]) 0 = nth j pre 0)
      by (intros; now apply app_nth1).
    assert (Hnew : nth (length pre) (pre ++ [c]) 0 = c)
      by (rewrite app_nth2, Nat.sub_diag by lia; reflexivity).
    replace (pre ++ c :: t) with ((pre ++ [c]) ++ t)
      by (rewrite <- app_assoc; reflexivity).
    simpl argmin_from. rewrite <- Hlen.
    destruct (Qcompare c best) eqn:Hc.
    + apply Qeq_alt in Hc. apply IH.
      * lia.
      * rewrite Hold; assumption.
      * intros j Hj. rewrite Hlen in Hj.
        destruct (Nat.eq_dec j (length pre)) as [->|Hne].
        -- rewrite Hnew, Hc. apply Qle_refl.
        -- rewrite Hold by lia. apply Hle; lia.
      * intros j Hj. rewrite Hold by lia. now apply Hlt.
    + apply Qlt_alt in Hc. apply IH.
      * lia.
      * assumption.
      * intros j Hj. rewrite Hlen in Hj.
        destruct (Nat.eq_dec j (length pre)) as [->|Hne].
        -- rewrite Hnew. apply Qle_refl.
        -- rewrite Hold by lia. apply Qlt_le_weak.
           eapply Qlt_le_trans; [exact Hc | apply Hle; lia].
      * intros j Hj. rewrite Hold by lia.
        eapply Qlt_le_trans; [exact Hc | apply Hle; lia].
    + apply Qgt_alt in Hc. apply IH.
      * lia.
      * rewrite Hold; assumption.
      * intros j Hj. rewrite Hlen in Hj.
        destruct (Nat.eq_dec j (length pre)) as [->|Hne].
        -- rewrite Hnew. now apply Qlt_le_weak.
        -- rewrite Hold by lia. apply Hle; lia.
      * intros j Hj. rewrite Hold by lia. now apply Hlt.
Qed.

Lemma argmin_spec (v : vec) :
  v <> [] ->
  exists k : nat,
    argmin v = Ok (Z.of_nat k) /\ (k < length v)%nat /\
    (forall j, (j < length v)%nat -> nth k v 0 <= nth j v 0) /\
    (forall j, (j < k)%nat -> nth k v 0 < nth j v 0).
Proof.
  destruct v as [|c t]; [congruence|]. intros _.
  exists (argmin_from c 0 1 t). split; [reflexivity|].
  apply (@argmin_from_spec t [c] c 0%nat).
  - simpl; lia.
  - reflexivity.
  - intros [|j] Hj; simpl in *; [apply Qle_refl | lia].
  - intros j Hj; lia.
Qed.

Lemma np_argmin_first_minimum (beliefs : volume) (h w L : nat) :
  wf3 h w L beliefs -> (0 < L)%nat ->
  exists d,
    np_argmin beliefs = Ok d /\ wf2 h w d /\
    forall y x, (y < h)%nat -> (x < w)%nat ->
      let k := get2 0%Z d y x in
      (0 <= k < Z.of_nat L)%Z /\
      (forall l, (l < L)%nat ->
                 get3 beliefs y x (Z.to_nat k) <= get3 beliefs y x l) /\
      (forall l, (l < Z.to_nat k)%nat ->
                 get3 beliefs y x (Z.to_nat k) < get3 beliefs y x l).
Proof.
  intros Hwf HL.
  set (Pv := fun (v : vec) (k : Z) =>
    exists n, k = Z.of_nat n /\ (n < length v)%nat /\
      (forall j, (j < length v)%nat -> nth n v 0 <= nth j v 0) /\
      (forall j, (j < n)%nat -> nth n v 0 < nth j v 0)).
  destruct (@mapM_Forall2 _ _ (Forall2 Pv) (mapM argmin) beliefs)
    as [d [Hd Hrel]].
  { intros r Hr. apply mapM_Forall2. intros v Hv.
    destruct Hwf as [_ Hf]. rewrite Forall_forall in Hf.
    destruct (Hf r Hr) as [_ Hvs]. rewrite Forall_forall in Hvs.
    destruct (@argmin_spec v) as [n [Hn Hs]].
    - intros ->. specialize (Hvs [] Hv). simpl in Hvs. lia.
    - exists (Z.of_nat n). split; [assumption|]. exists n. now split. }
  exists d. split; [exact Hd|].
  pose proof (Forall2_length Hrel) as Hlen.
  assert (Hh : length beliefs = h) by apply Hwf.
  split.
  - split; [lia|]. apply Forall_forall. intros r' Hr'.
    destruct (In_nth _ _ [] Hr') as [y [Hy <-]].
    assert (Hy' : (y < length beliefs)%nat) by lia.
    pose proof (Forall2_nth_rel [] [] Hrel Hy') as Hrow.
    rewrite <- (Forall2_length Hrow). apply (wf3_row Hwf). lia.
  - intros y x Hy Hx k.
    assert (Hy' : (y < length beliefs)%nat) by lia.
    pose proof (Forall2_nth_rel [] [] Hrel Hy') as Hrow.
    assert (Hx' : (x < length (nth y beliefs []))%nat)
      by (rewrite (wf3_row Hwf Hy); exact Hx).
    pose proof (Forall2_nth_rel [] 0%Z Hrow Hx') as [n [Hk [Hn [Hmin Hfirst]]]].
    pose proof (wf3_pixel Hwf Hy Hx) as HLv.
    fold (get2 0%Z d y x) in Hk. fold k in Hk.
    rewrite HLv in Hn, Hmin. rewrite Hk, Nat2Z.id. unfold get3.
    repeat split; try lia; auto.
Qed.

(** C7. [MAP_labeling] gives every pixel the index of the smallest entry of
    its belief vector, the lowest such index when several entries are
    smallest; every label of the map is in [0, L-1]. *)
Theorem MAP_labeling_first_minimum (beliefs : volume) (h w L : nat) :
  wf3 h w L beliefs -> (0 < L)%nat ->
  exists d,
    MAP_labeling beliefs = Ok d /\ wf2 h w d /\
    forall y x, (y < h)%nat -> (x < w)%nat ->
      let k := get2 0%Z d y x in
      (0 <= k < Z.of_nat L)%Z /\
      (forall l, (l < L)%nat ->
                 get3 beliefs y x (Z.to_nat k) <= get3 beliefs y x l) /\
      (forall l, (l < Z.to_nat k)%nat ->
                 get3 beliefs y x (Z.to_nat k) < get3 beliefs y x l).
Proof.
  intros Hwf HL. unfold MAP_labeling.
  exact (np_argmin_first_minimum Hwf HL).
Qed.

Lemma normalize_msg_zero_mean_witness :
  mean (normalize_vec [1; 2; 3]) == 0.
Proof.
  apply (@normalize_msg_zero_mean
           [[[1; 2; 3]]] [[[0]]] [[[0]]] [[[0]]]
           (map (map normalize_vec) [[[1; 2; 3]]])
           [normalize_vec [1; 2; 3]] (normalize_vec [1; 2; 3])).
  - vm_compute. left. reflexivity.
  - simpl. left. reflexivity.
  - simpl. left. reflexivity.
  - discriminate.
Defined.

Lemma MAP_labeling_first_minimum_witness :
  exists d,
    MAP_labeling [[[3; 1; 1]]] = Ok d /\ wf2 1 1 d /\
    forall y x, (y < 1)%nat -> (x < 1)%nat ->
      let k := get2 0%Z d y x in
      (0 <= k < Z.of_nat 3)%Z /\
      (forall l, (l < 3)%nat ->
                 get3 [[[3; 1; 1]]] y x (Z.to_nat k) <= get3 [[[3; 1; 1]]] y x l) /\
      (forall l, (l < Z.to_nat k)%nat ->
                 get3 [[[3; 1; 1]]] y x (Z.to_nat k) < get3 [[[3; 1; 1]]] y x l).
Proof.
  apply (@MAP_labeling_first_minimum [[[3; 1; 1]]] 1 1 3).
  - split; [reflexivity | repeat constructor].
  - lia.
Defined.

(** ** The data cost *)

Lemma mapM_map {A B : Type} (f : A -> result B) (g : A -> B) (l : list A) :
  (forall a, In a l -> f a = Ok (g a)) -> mapM f l = Ok (map g l).
Proof.
  induction l as [|a t IH]; intros H; [reflexivity|].
  simpl. rewrite (H a (or_introl eq_refl)). simpl.
  rewrite IH by (intros; apply H; now right). reflexivity.
Qed.

Lemma nth_map_seq {B : Type} (g : nat -> B) (n i : nat) (d : B) :
  (i < n)%nat -> nth i (map g (seq 0 n)) d = g i.
Proof.
  intros Hi. rewrite (nth_indep _ d (g 0%nat)) by (now rewrite length_map, length_seq).
  rewrite map_nth, seq_nth by assumption. reflexivity.
Qed.

Lemma py_index_mod (n : nat) (i : Z) :
  (- Z.of_nat n <= i < Z.of_nat n)%Z ->
  py_index n i = Ok (Z.to_nat (i mod Z.of_nat n)).
Proof.
  intros Hi. unfold py_index.
  destruct (Z.leb_spec 0 i); destruct (Z.ltb_spec i (Z.of_nat n)); simpl;
    try lia.
  - now rewrite Z.mod_small by lia.
  - destruct (Z.leb_spec (- Z.of_nat n) i); destruct (Z.ltb_spec i 0); simpl;
      try lia.
    replace i with (i + Z.of_nat n + (-1) * Z.of_nat n)%Z at 2 by lia.
    rewrite Z.mod_add by lia. now rewrite Z.mod_small by lia.
Qed.

Lemma py_index_out (n : nat) (i : Z) :
  (i < - Z.of_nat n \/ Z.of_nat n <= i)%Z -> py_index n i = Raise IndexError.
Proof.
  intros Hi. unfold py_index.
  destruct (Z.leb_spec 0 i); destruct (Z.ltb_spec i (Z.of_nat n)); simpl;
    try lia; try reflexivity;
    destruct (Z.leb_spec (- Z.of_nat n) i); destruct (Z.ltb_spec i 0); simpl;
      try lia; reflexivity.
Qed.

Lemma getitem_mod {A : Type} (l : list A) (i : Z) (d : A) :
  (- Z.of_nat (length l) <= i < Z.of_nat (length l))%Z ->
  getitem l i = Ok (nth (Z.to_nat (i mod Z.of_nat (length l))) l d).
Proof.
  intros Hi. unfold getitem. rewrite py_index_mod by assumption. simpl.
  assert (Hk : (Z.to_nat (i mod Z.of_nat (length l)) < length l)%nat).
  { pose proof (Z.mod_pos_bound i (Z.of_nat (length l))). lia. }
  rewrite (nth_error_nth' l d Hk). reflexivity.
Qed.

Lemma getitem_nat {A : Type} (l : list A) (i : nat) (d : A) :
  (i < length l)%nat -> getitem l (Z.of_nat i) = Ok (nth i l d).
Proof.
  intros Hi. rewrite (@getitem_mod _ l (Z.of_nat i) d) by lia.
  rewrite Z.mod_small by lia. now rewrite Nat2Z.id.
Qed.

Lemma norm1_difference (p q : vec) (c : nat) :
  length p = c -> length q = c ->
  norm1 (map2 Qminus p q) =
  vsum (map (fun k => Qabs (nth k p 0 - nth k q 0)) (seq 0 c)).
Proof.
  intros Hp Hq. unfold norm1. f_equal.
  apply (nth_ext _ _ 0 0).
  - rewrite !length_map, length_map2, length_seq. lia.
  - intros k Hk. rewrite length_map, length_map2 in Hk.
    rewrite nth_map_seq by lia.
    rewrite (nth_indep _ 0 (Qabs 0)) by (rewrite length_map, length_map2; lia).
    rewrite map_nth. f_equal. apply nth_map2; lia.
Qed.

Lemma compute_data_cost_cells (I1 I2 : image) (h w c : nat) (L : Z)
  (Tau : Q) :
  wf3 h w c I1 -> wf3 h w c I2 -> (0 <= L <= Z.of_nat w + 1)%Z ->
  exists dataCost,
    compute_data_cost I1 I2 L Tau = Ok dataCost /\
    wf3 h w (Z.to_nat L) dataCost /\
    forall y x l, (y < h)%nat -> (x < w)%nat -> (l < Z.to_nat L)%nat ->
      get3 dataCost y x l =
      matching_cost I1 I2 c Tau y x
        (Z.to_nat ((Z.of_nat x - Z.of_nat l) mod Z.of_nat w)).
Proof.
  intros W1 W2 HL.
  set (cell := fun y x l =>
         matching_cost I1 I2 c Tau y x
           (Z.to_nat ((Z.of_nat x - Z.of_nat l) mod Z.of_nat w))).
  set (vol := map (fun y => map (fun x => map (cell y x)
                (seq 0 (Z.to_nat L))) (seq 0 w)) (seq 0 h)).
  assert (Hrun : compute_data_cost I1 I2 L Tau = Ok vol).
  { unfold compute_data_cost, shape3, np_zeros3.
    destruct (Z.ltb_spec L 0); [lia|]. simpl bind.
    assert (Hh : length I1 = h) by apply W1. rewrite Hh.
    destruct (Nat.eq_dec h 0) as [->|Hpos]; [reflexivity|].
    assert (Hw : length (hd [] I1) = w).
    { pose proof (wf3_row (y:=0%nat) W1 ltac:(lia)) as Hr.
      destruct I1; simpl in *; [lia | assumption]. }
    rewrite Hw. unfold vol.
    apply mapM_map. intros y Hy. apply in_seq in Hy.
    apply mapM_map. intros x Hx. apply in_seq in Hx.
    apply mapM_map. intros l Hl. apply in_seq in Hl.
    assert (Hh2 : length I2 = h) by apply W2.
    unfold getitem2.
    rewrite (@getitem_nat _ I1 y []) by lia. simpl bind.
    rewrite (@getitem_nat _ (nth y I1 []) x [])
      by (rewrite (wf3_row W1); lia). simpl bind.
    rewrite (@getitem_nat _ I2 y []) by lia. simpl bind.
    rewrite (@getitem_mod _ (nth y I2 []) (Z.of_nat x - Z.of_nat l) [])
      by (rewrite (wf3_row W2); lia).
    simpl bind. rewrite (wf3_row W2) by lia.
    set (x2 := Z.to_nat ((Z.of_nat x - Z.of_nat l) mod Z.of_nat w)).
    assert (Hx2 : (x2 < w)%nat).
    { pose proof (Z.mod_pos_bound (Z.of_nat x - Z.of_nat l) (Z.of_nat w)).
      unfold x2. lia. }
    unfold vsub.
    rewrite (wf3_pixel (y:=y) (x:=x) W1), (wf3_pixel (y:=y) (x:=x2) W2) by lia.
    rewrite Nat.eqb_refl. simpl bind.
    rewrite (@norm1_difference _ _ c)
      by (first [apply (wf3_pixel W1) | apply (wf3_pixel W2)]; lia).
    reflexivity. }
  exists vol. split; [exact Hrun|]. split.
  - apply wf3_intro.
    + unfold vol. now rewrite length_map, length_seq.
    + intros y Hy. unfold vol. rewrite nth_map_seq by assumption.
      now rewrite length_map, length_seq.
    + intros y x Hy Hx. unfold vol. rewrite !nth_map_seq by assumption.
      now rewrite length_map, length_seq.
  - intros y x l Hy Hx Hl. unfold get3, vol.
    rewrite !nth_map_seq by assumption. reflexivity.
Qed.

(** C3, as the code has it.  For images of one shape and at most [w + 1]
    labels, [compute_data_cost] returns a volume of shape [(h, w, L)] whose
    entry [(y, x, l)] is [min(1/3 * sum_c |I1[y][x][c] - I2[y][x'][c]|, Tau)]
    with [x' = (x - l) mod w], the divisor being 3 for any number of
    channels. *)
Theorem compute_data_cost_entries (I1 I2 : image) (h w c : nat) (L : Z)
  (Tau : Q) :
  wf3 h w c I1 -> wf3 h w c I2 -> (0 <= L <= Z.of_nat w + 1)%Z ->
  exists dataCost,
    compute_data_cost I1 I2 L Tau = Ok dataCost /\
    wf3 h w (Z.to_nat L) dataCost /\
    forall y x l, (y < h)%nat -> (x < w)%nat -> (l < Z.to_nat L)%nat ->
      get3 dataCost y x l =
      matching_cost I1 I2 c Tau y x
        (Z.to_nat ((Z.of_nat x - Z.of_nat l) mod Z.of_nat w)).
Proof.
  apply compute_data_cost_cells.
Qed.

(** C3, as the claim has it, fails: one-pixel images and three labels, the
    label 2 reads column [-2] of a one-column image. *)
Lemma compute_data_cost_three_labels_one_column :
  wf3 1 1 1 [[[1]]] /\
  compute_data_cost [[[1]]] [[[1]]] 3 15 = Raise IndexError.
Proof.
  split; [split; [reflexivity | repeat constructor] | reflexivity].
Qed.

Lemma compute_data_cost_entries_witness :
  exists dataCost,
    compute_data_cost [[[1]; [4]]] [[[2]; [6]]] 3 15 = Ok dataCost /\
    wf3 1 2 (Z.to_nat 3) dataCost /\
    forall y x l, (y < 1)%nat -> (x < 2)%nat -> (l < Z.to_nat 3)%nat ->
      get3 dataCost y x l =
      matching_cost [[[1]; [4]]] [[[2]; [6]]] 1 15 y x
        (Z.to_nat ((Z.of_nat x - Z.of_nat l) mod Z.of_nat 2)).
Proof.
  apply (@compute_data_cost_entries [[[1]; [4]]] [[[2]; [6]]] 1 2 1 3 15).
  - split; [reflexivity | repeat constructor].
  - split; [reflexivity | repeat constructor].
  - lia.
Defined.

(** ** Arrays: entries of the results of the NumPy operations *)

Lemma nth_map_in {A B : Type} (f : A -> B) (l : list A) i d d' :
  (i < length l)%nat -> nth i (map f l) d' = f (nth i l d).
Proof.
  intros Hi. rewrite (nth_indep _ d' (f d)) by (now rewrite length_map).
  apply map_nth.
Qed.

Lemma In_roll {A : Type} (shift : Z) (l : list A) (a : A) :
  In a (roll shift l) -> In a l.
Proof.
  unfold roll. intros H. apply in_app_or in H.
  rewrite <- (firstn_skipn (Z.to_nat (- shift mod Z.of_nat (length l))) l).
  apply in_or_app. tauto.
Qed.

Lemma wf2_row {A : Type} h w (a : list (list A)) y :
  wf2 h w a -> (y < h)%nat -> length (nth y a []) = w.
Proof.
  intros [Hh Hf] Hy. rewrite Forall_forall in Hf. apply Hf, nth_In. lia.
Qed.

Lemma wf2_intro {A : Type} h w (a : list (list A)) :
  length a = h -> (forall y, (y < h)%nat -> length (nth y a []) = w) ->
  wf2 h w a.
Proof.
  intros Hh Hw. split; [assumption|].
  apply Forall_forall. intros r Hr.
  destruct (In_nth _ _ [] Hr) as [y [Hy <-]]. apply Hw. lia.
Qed.

Lemma wf2_shape {A : Type} h w (a : list (list A)) :
  wf2 h w a -> (0 < h)%nat -> shape2 a = (h, w).
Proof.
  intros Hwf Hh. unfold shape2.
  pose proof (wf2_row (y:=0%nat) Hwf Hh) as H1. destruct Hwf as [H0 _].
  destruct a as [|r a]; simpl in *; [lia | congruence].
Qed.

Section VolumeFacts.

Variables h w L : nat.

Lemma wf3_zeros3 : wf3 h w L (zeros3 h w L).
Proof.
  unfold zeros3. split; [apply repeat_length|].
  apply Forall_forall. intros r Hr. apply repeat_spec in Hr. subst r.
  split; [apply repeat_length|].
  apply Forall_forall. intros v Hv. apply repeat_spec in Hv. subst v.
  apply repeat_length.
Qed.

Lemma wf3_roll_axis0 (a : volume) (shift : Z) :
  wf3 h w L a -> wf3 h w L (np_roll a shift 0).
Proof.
  intros [Hh Hf]. split; [simpl; now rewrite length_roll|].
  rewrite Forall_forall in *. intros r Hr. apply Hf. eapply In_roll, Hr.
Qed.

Lemma wf3_roll_axis1 (a : volume) (shift : Z) :
  wf3 h w L a -> wf3 h w L (np_roll a shift 1).
Proof.
  intros [Hh Hf]. split; [simpl; now rewrite length_map|].
  rewrite Forall_forall in *. intros r' Hr'. simpl in Hr'.
  apply in_map_iff in Hr'. destruct Hr' as [r [<- Hr]].
  destruct (Hf r Hr) as [Hw Hv]. split; [now rewrite length_roll|].
  rewrite Forall_forall in *. intros v Hin. apply Hv. eapply In_roll, Hin.
Qed.

Lemma get3_roll_back_axis0 (a : volume) y x l :
  wf3 h w L a -> (y < h)%nat ->
  get3 (np_roll a (-1) 0) y x l =
  get3 a (if (S y =? h)%nat then 0 else S y)%nat x l.
Proof.
  intros [Hh _] Hy. unfold get3. simpl np_roll.
  rewrite nth_roll_back by lia. now rewrite Hh.
Qed.

Lemma get3_roll_forth_axis0 (a : volume) y x l :
  wf3 h w L a -> (y < h)%nat ->
  get3 (np_roll a 1 0) y x l =
  get3 a (if (y =? 0)%nat then h - 1 else y - 1)%nat x l.
Proof.
  intros [Hh _] Hy. unfold get3. simpl np_roll.
  rewrite nth_roll_forth by lia. now rewrite Hh.
Qed.

Lemma get3_roll_back_axis1 (a : volume) y x l :
  wf3 h w L a -> (y < h)%nat -> (x < w)%nat ->
  get3 (np_roll a (-1) 1) y x l =
  get3 a y (if (S x =? w)%nat then 0 else S x)%nat l.
Proof.
  intros Hwf Hy Hx. unfold get3. simpl np_roll.
  rewrite (@nth_map_in _ _ _ a y [] []) by (destruct Hwf; lia).
  rewrite nth_roll_back by (rewrite (wf3_row Hwf); lia).
  now rewrite (wf3_row Hwf).
Qed.

Lemma get3_roll_forth_axis1 (a : volume) y x l :
  wf3 h w L a -> (y < h)%nat -> (x < w)%nat ->
  get3 (np_roll a 1 1) y x l =
  get3 a y (if (x =? 0)%nat then w - 1 else x - 1)%nat l.
Proof.
  intros Hwf Hy Hx. unfold get3. simpl np_roll.
  rewrite (@nth_map_in _ _ _ a y [] []) by (destruct Hwf; lia).
  rewrite nth_roll_forth by (rewrite (wf3_row Hwf); lia).
  now rewrite (wf3_row Hwf).
Qed.

Lemma nth_zeros_like (v : vec) l : nth l (zeros_like v) 0 = 0.
Proof.
  unfold zeros_like. destruct (Nat.lt_ge_cases l (length v)) as [H|H].
  - now rewrite (@nth_map_in _ _ _ v l 0 0).
  - apply nth_overflow. now rewrite length_map.
Qed.

(** [a[k, :, :] = 0] *)
Lemma assign_axis0_zero (a : volume) (k : nat) :
  wf3 h w L a -> (k < h)%nat ->
  exists b, assign_axis0 zeros_like a (Z.of_nat k) = Ok b /\ wf3 h w L b /\
    forall y x l, (y < h)%nat -> (x < w)%nat ->
      get3 b y x l = if (y =? k)%nat then 0 else get3 a y x l.
Proof.
  intros Hwf Hk. assert (Hh : length a = h) by apply Hwf.
  exists (upd k (map zeros_like) a). split; [|split].
  - unfold assign_axis0. rewrite py_index_mod by lia.
    rewrite Z.mod_small by lia. now rewrite Nat2Z.id.
  - apply wf3_intro.
    + now rewrite length_upd.
    + intros y Hy. rewrite nth_upd by lia.
      destruct (y =? k)%nat; [rewrite length_map|]; now apply (wf3_row Hwf).
    + intros y x Hy Hx. rewrite nth_upd by lia.
      destruct (y =? k)%nat; [|now apply (wf3_pixel Hwf)].
      rewrite (@nth_map_in _ _ _ _ x [] []) by (rewrite (wf3_row Hwf); lia).
      unfold zeros_like. rewrite length_map. now apply (wf3_pixel Hwf).
  - intros y x l Hy Hx. unfold get3. rewrite nth_upd by lia.
    destruct (y =? k)%nat; [|reflexivity].
    rewrite (@nth_map_in _ _ _ _ x [] []) by (rewrite (wf3_row Hwf); lia).
    apply nth_zeros_like.
Qed.

(** [a[:, k, :] = 0] *)
Lemma assign_axis1_zero (a : volume) (k : nat) :
  wf3 h w L a -> (0 < h)%nat -> (k < w)%nat ->
  exists b, assign_axis1 zeros_like a (Z.of_nat k) = Ok b /\ wf3 h w L b /\
    forall y x l, (y < h)%nat -> (x < w)%nat ->
      get3 b y x l = if (x =? k)%nat then 0 else get3 a y x l.
Proof.
  intros Hwf Hh0 Hk. assert (Hh : length a = h) by apply Hwf.
  assert (Hw : length (hd [] a) = w).
  { pose proof (wf3_row (y:=0%nat) Hwf Hh0). destruct a; simpl in *; [lia|auto]. }
  exists (map (upd k zeros_like) a). split; [|split].
  - unfold assign_axis1. rewrite Hw, py_index_mod by lia.
    rewrite Z.mod_small by lia. now rewrite Nat2Z.id.
  - apply wf3_intro.
    + now rewrite length_map.
    + intros y Hy. rewrite (@nth_map_in _ _ _ a y [] []) by lia.
      rewrite length_upd. now apply (wf3_row Hwf).
    + intros y x Hy Hx. rewrite (@nth_map_in _ _ _ a y [] []) by lia.
      rewrite nth_upd by (rewrite (wf3_row Hwf); lia).
      destruct (x =? k)%nat; [unfold zeros_like; rewrite length_map|];
        now apply (wf3_pixel Hwf).
  - intros y x l Hy Hx. unfold get3.
    rewrite (@nth_map_in _ _ _ a y [] []) by lia.
    rewrite nth_upd by (rewrite (wf3_row Hwf); lia).
    destruct (x =? k)%nat; [apply nth_zeros_like | reflexivity].
Qed.

(** [a + b] *)
Lemma np_add_entries (a b : volume) :
  wf3 h w L a -> wf3 h w L b -> (0 < h)%nat -> (0 < w)%nat ->
  exists c, np_add a b = Ok c /\ wf3 h w L c /\
    forall y x l, (y < h)%nat -> (x < w)%nat -> (l < L)%nat ->
      get3 c y x l = get3 a y x l + get3 b y x l.
Proof.
  intros Ha Hb Hh Hw.
  exists (map2 (map2 (map2 Qplus)) a b).
  assert (Hla : length a = h) by apply Ha.
  assert (Hlb : length b = h) by apply Hb.
  split; [|split].
  - unfold np_add. rewrite (wf3_shape Ha), (wf3_shape Hb) by assumption.
    unfold shape3_eqb, shape2_eqb. simpl. now rewrite !Nat.eqb_refl.
  - apply wf3_intro.
    + rewrite length_map2. lia.
    + intros y Hy. rewrite (@nth_map2 _ _ _ _ a b y [] [] []) by lia.
      rewrite length_map2, (wf3_row Ha), (wf3_row Hb) by assumption. lia.
    + intros y x Hy Hx. rewrite (@nth_map2 _ _ _ _ a b y [] [] []) by lia.
      rewrite (@nth_map2 _ _ _ _ _ _ x [] [] [])
        by (rewrite ?(wf3_row Ha), ?(wf3_row Hb); assumption).
      rewrite length_map2, (wf3_pixel Ha), (wf3_pixel Hb) by assumption. lia.
  - intros y x l Hy Hx Hl. unfold get3.
    rewrite (@nth_map2 _ _ _ _ a b y [] [] []) by lia.
    rewrite (@nth_map2 _ _ _ _ _ _ x [] [] [])
      by (rewrite ?(wf3_row Ha), ?(wf3_row Hb); assumption).
    apply nth_map2; rewrite ?(wf3_pixel Ha), ?(wf3_pixel Hb); assumption.
Qed.

End VolumeFacts.

(** ** The minimum over the labels *)

Lemma fold_left_Qmin_spec (t : vec) (c : Q) :
  (fold_left Qmin t c <= c /\
   forall j, (j < length t)%nat -> fold_left Qmin t c <= nth j t 0) /\
  (fold_left Qmin t c == c \/
   exists j, (j < length t)%nat /\ fold_left Qmin t c == nth j t 0).
Proof.
  revert c. induction t as [|a t IH]; intros c; simpl.
  - split; [split; [apply Qle_refl | intros; lia] | left; reflexivity].
  - destruct (IH (Qmin c a)) as [[Hc Ht] Hex]. split; [split|].
    + eapply Qle_trans; [exact Hc | apply Q.le_min_l].
    + intros [|j] Hj.
      * eapply Qle_trans; [exact Hc | apply Q.le_min_r].
      * apply Ht. lia.
    + destruct Hex as [Hex|[j [Hj Hex]]].
      * destruct (Q.min_spec c a) as [[_ Hm]|[_ Hm]].
        -- left. eapply Qeq_trans; [exact Hex | exact Hm].
        -- right. exists 0%nat. split; [lia|].
           eapply Qeq_trans; [exact Hex | exact Hm].
      * right. exists (S j). split; [lia | assumption].
Qed.

Lemma amin_is_min (v : vec) :
  v <> [] ->
  exists m, amin v = Ok m /\ is_min m (fun l => nth l v 0) (length v).
Proof.
  destruct v as [|c t]; [congruence|]. intros _.
  exists (fold_left Qmin t c). split; [reflexivity|].
  destruct (fold_left_Qmin_spec t c) as [[Hc Ht] Hex]. split.
  - destruct Hex as [Hex|[j [Hj Hex]]].
    + exists 0%nat. split; [simpl; lia | assumption].
    + exists (S j). split; [simpl; lia | assumption].
  - intros [|l] Hl; [assumption|]. apply Ht. simpl in Hl. lia.
Qed.

Section LabelLoop.

Variables h w L : nat.
Hypothesis Hh : (0 < h)%nat.
Hypothesis Hw : (0 < w)%nat.

Lemma np_amin_is_min (a : volume) :
  wf3 h w L a -> (0 < L)%nat ->
  exists B, np_amin a = Ok B /\ wf2 h w B /\
    forall y x, (y < h)%nat -> (x < w)%nat ->
      is_min (get2 0 B y x) (get3 a y x) L.
Proof.
  intros Hwf HL.
  set (Pv := fun (v : list Q) (m : Q) =>
               is_min m (fun l => nth l v 0) (length v)).
  destruct (@mapM_Forall2 _ _ (Forall2 Pv) (mapM amin) a) as [B [HB Hrel]].
  { intros r Hr. apply mapM_Forall2. intros v Hv.
    destruct Hwf as [_ Hf]. rewrite Forall_forall in Hf.
    destruct (Hf r Hr) as [_ Hvs]. rewrite Forall_forall in Hvs.
    apply amin_is_min. intros ->. specialize (Hvs [] Hv). simpl in Hvs. lia. }
  exists B. split; [exact HB|].
  assert (Hla : length a = h) by apply Hwf.
  pose proof (Forall2_length Hrel) as Hlen.
  split.
  - apply wf2_intro; [lia|]. intros y Hy.
    assert (Hy' : (y < length a)%nat) by lia.
    pose proof (Forall2_nth_rel [] [] Hrel Hy') as Hrow.
    rewrite <- (Forall2_length Hrow). now apply (wf3_row Hwf).
  - intros y x Hy Hx.
    assert (Hy' : (y < length a)%nat) by lia.
    pose proof (Forall2_nth_rel [] [] Hrel Hy') as Hrow.
    assert (Hx' : (x < length (nth y a []))%nat)
      by (rewrite (wf3_row Hwf Hy); exact Hx).
    pose proof (Forall2_nth_rel [] 0 Hrow Hx') as Hm.
    unfold Pv in Hm. rewrite (wf3_pixel Hwf Hy Hx) in Hm. exact Hm.
Qed.

Lemma slice_axis2_entries (a : volume) (l : nat) :
  wf3 h w L a -> (l < L)%nat ->
  exists s, slice_axis2 a l = Ok s /\ wf2 h w s /\
    forall y x, (y < h)%nat -> (x < w)%nat -> get2 0 s y x = get3 a y x l.
Proof.
  intros Hwf Hl. assert (Hla : length a = h) by apply Hwf.
  exists (map (map (fun v => nth l v 0)) a). split; [|split].
  - unfold slice_axis2. rewrite (wf3_shape Hwf Hh Hw). simpl.
    destruct (Nat.ltb_spec l L); [reflexivity | lia].
  - apply wf2_intro; [now rewrite length_map|]. intros y Hy.
    rewrite (@nth_map_in _ _ _ a y [] []) by lia.
    rewrite length_map. now apply (wf3_row Hwf).
  - intros y x Hy Hx. unfold get2, get3.
    rewrite (@nth_map_in _ _ _ a y [] []) by lia.
    now rewrite (@nth_map_in _ _ _ _ x [] 0) by (rewrite (wf3_row Hwf); lia).
Qed.

Lemma np_minimum_entries (s B : list (list Q)) (c : Q) :
  wf2 h w s -> wf2 h w B ->
  wf2 h w (np_minimum s (scalar_add c B)) /\
  forall y x, (y < h)%nat -> (x < w)%nat ->
    get2 0 (np_minimum s (scalar_add c B)) y x =
    Qmin (get2 0 s y x) (c + get2 0 B y x).
Proof.
  intros Hs HB.
  assert (Hls : length s = h) by apply Hs.
  assert (HlB : length B = h) by apply HB.
  assert (Hrow : forall y, (y < h)%nat ->
            nth y (np_minimum s (scalar_add c B)) [] =
            map2 Qmin (nth y s []) (map (Qplus c) (nth y B []))).
  { intros y Hy. unfold np_minimum, scalar_add.
    rewrite (@nth_map2 _ _ _ _ _ _ y [] [] []) by (rewrite ?length_map; lia).
    now rewrite (@nth_map_in _ _ _ B y [] []) by lia. }
  split.
  - apply wf2_intro.
    + unfold np_minimum, scalar_add. rewrite length_map2, length_map. lia.
    + intros y Hy. rewrite Hrow by assumption.
      rewrite length_map2, length_map, (wf2_row Hs), (wf2_row HB) by assumption.
      lia.
  - intros y x Hy Hx. unfold get2. rewrite Hrow by assumption.
    rewrite (@nth_map2 _ _ _ _ _ _ x 0 0 0)
      by (rewrite ?length_map, ?(wf2_row Hs), ?(wf2_row HB); assumption).
    now rewrite (@nth_map_in _ _ _ _ x 0 0) by (rewrite (wf2_row HB); assumption).
Qed.

Lemma assign_slice_axis2_entries (a : volume) (l : nat) (m : list (list Q)) :
  wf3 h w L a -> wf2 h w m -> (l < L)%nat ->
  exists b, assign_slice_axis2 a l m = Ok b /\ wf3 h w L b /\
    forall y x l', (y < h)%nat -> (x < w)%nat -> (l' < L)%nat ->
      get3 b y x l' = if (l' =? l)%nat then get2 0 m y x else get3 a y x l'.
Proof.
  intros Ha Hm Hl.
  assert (Hla : length a = h) by apply Ha.
  assert (Hlm : length m = h) by apply Hm.
  set (b := map2 (map2 (fun v c => upd l (fun _ : Q => c) v)) a m).
  assert (Hrow : forall y, (y < h)%nat ->
            nth y b [] =
            map2 (fun v c => upd l (fun _ : Q => c) v) (nth y a []) (nth y m [])).
  { intros y Hy. unfold b. apply nth_map2; lia. }
  assert (Hpx : forall y x, (y < h)%nat -> (x < w)%nat ->
            nth x (nth y b []) [] =
            upd l (fun _ : Q => get2 0 m y x) (nth x (nth y a []) [])).
  { intros y x Hy Hx. rewrite Hrow by assumption. unfold get2.
    rewrite (@nth_map2 _ _ _ _ _ _ x [] 0 [])
      by (rewrite ?(wf3_row Ha), ?(wf2_row Hm); assumption).
    reflexivity. }
  exists b. split; [|split].
  - unfold assign_slice_axis2.
    rewrite (wf3_shape Ha Hh Hw), (wf2_shape Hm Hh). simpl.
    destruct (Nat.ltb_spec l L); [|lia].
    unfold shape2_eqb. simpl. now rewrite !Nat.eqb_refl.
  - apply wf3_intro.
    + unfold b. rewrite length_map2. lia.
    + intros y Hy. rewrite Hrow by assumption.
      rewrite length_map2, (wf3_row Ha), (wf2_row Hm) by assumption. lia.
    + intros y x Hy Hx. rewrite Hpx by assumption.
      rewrite length_upd. now apply (wf3_pixel Ha).
  - intros y x l' Hy Hx Hl'. unfold get3 at 1. rewrite Hpx by assumption.
    rewrite nth_upd by (rewrite (wf3_pixel Ha); assumption).
    reflexivity.
Qed.

End LabelLoop.

(** ** One round of message updates *)

Lemma is_min_ext (m : Q) (f g : nat -> Q) (L : nat) :
  (forall l, (l < L)%nat -> f l = g l) -> is_min m f L -> is_min m g L.
Proof.
  intros Hfg [[l [Hl Hm]] Hle]. split.
  - exists l. split; [assumption|]. now rewrite <- Hfg.
  - intros l' Hl'. rewrite <- Hfg by assumption. now apply Hle.
Qed.

Section Round.

Variables h w L : nat.
Hypothesis Hh : (0 < h)%nat.
Hypothesis Hw : (0 < w)%nat.

Lemma radd3_entries (a b c d : volume) :
  wf3 h w L a -> wf3 h w L b -> wf3 h w L c -> wf3 h w L d ->
  exists s, Ok a +. b +. c +. d = Ok s /\ wf3 h w L s /\
    forall y x l, (y < h)%nat -> (x < w)%nat -> (l < L)%nat ->
      get3 s y x l = get3 a y x l + get3 b y x l + get3 c y x l + get3 d y x l.
Proof.
  intros Ha Hb Hc Hd.
  destruct (np_add_entries Ha Hb Hh Hw) as [s1 [E1 [W1 G1]]].
  destruct (np_add_entries W1 Hc Hh Hw) as [s2 [E2 [W2 G2]]].
  destruct (np_add_entries W2 Hd Hh Hw) as [s3 [E3 [W3 G3]]].
  exists s3. unfold radd. cbn [bind]. step E1. step E2.
  split; [exact E3|]. split; [exact W3|].
  intros y x l Hy Hx Hl. now rewrite G3, G2, G1.
Qed.

Variables AU AD AL AR : volume.
Variables BU BD BL BR : list (list Q).
Variable Lambda : Q.

Hypothesis HA : wf_messages h w L (AU, AD, AL, AR).
Hypothesis HB : forall dir, wf2 h w (field dir (BU, BD, BL, BR)).

Local Abbreviation written :=
  (written (AU, AD, AL, AR) (BU, BD, BL, BR) Lambda) (only parsing).

Lemma update_label_entries (l : nat) (m : messages) :
  wf_messages h w L m -> (l < L)%nat ->
  exists m',
    update_label AU AD AL AR BU BD BL BR Lambda l m = Ok m' /\
    wf_messages h w L m' /\
    forall dir y x l', (y < h)%nat -> (x < w)%nat -> (l' < L)%nat ->
      get3 (field dir m') y x l' =
      if (l' =? l)%nat then written dir y x l else get3 (field dir m) y x l'.
Proof.
  intros Hm Hl. destruct m as [[[mU mD] mL] mR].
  assert (Hone : forall dir,
    exists s, slice_axis2 (field dir (AU, AD, AL, AR)) l = Ok s /\
    exists b,
      assign_slice_axis2 (field dir (mU, mD, mL, mR)) l
        (np_minimum s (scalar_add Lambda (field dir (BU, BD, BL, BR)))) = Ok b /\
      wf3 h w L b /\
      forall y x l', (y < h)%nat -> (x < w)%nat -> (l' < L)%nat ->
        get3 b y x l' =
        if (l' =? l)%nat then written dir y x l
        else get3 (field dir (mU, mD, mL, mR)) y x l').
  { intros dir.
    destruct (slice_axis2_entries Hh Hw (HA dir) Hl) as [s [Es [Ws Gs]]].
    exists s. split; [exact Es|].
    destruct (np_minimum_entries Hh Hw Lambda Ws (HB dir)) as [Wm Gm].
    destruct (assign_slice_axis2_entries Hh Hw (Hm dir) Wm Hl) as [b [Eb [Wb Gb]]].
    exists b. split; [exact Eb|]. split; [exact Wb|].
    intros y x l' Hy Hx Hl'. rewrite Gb by assumption.
    destruct (l' =? l)%nat; [|reflexivity].
    rewrite Gm, Gs by assumption. reflexivity. }
  destruct (Hone dir_U) as [sU [EsU [bU [EbU [WU GU]]]]].
  destruct (Hone dir_D) as [sD [EsD [bD [EbD [WD GD]]]]].
  destruct (Hone dir_L) as [sL [EsL [bL [EbL [WL GL]]]]].
  destruct (Hone dir_R) as [sR [EsR [bR [EbR [WR GR]]]]].
  simpl field in *.
  exists (bU, bD, bL, bR). split; [|split].
  - unfold update_label.
    step EsU. step EbU. step EsD. step EbD.
    step EsL. step EbL. step EsR. step EbR. reflexivity.
  - intros [| | |]; assumption.
  - intros [| | |]; assumption.
Qed.

Lemma label_loop_entries (g : nat) (m0 : messages) :
  wf_messages h w L m0 -> (g <= L)%nat ->
  exists m,
    for_range g (update_label AU AD AL AR BU BD BL BR Lambda) m0 = Ok m /\
    wf_messages h w L m /\
    forall dir y x l, (y < h)%nat -> (x < w)%nat -> (l < L)%nat ->
      get3 (field dir m) y x l =
      if (l <? g)%nat then written dir y x l else get3 (field dir m0) y x l.
Proof.
  intros Hm0 Hg. unfold for_range.
  set (I := fun (k : nat) (m : messages) =>
    wf_messages h w L m /\
    forall dir y x l, (y < h)%nat -> (x < w)%nat -> (l < L)%nat ->
      get3 (field dir m) y x l =
      if (l <? k)%nat then written dir y x l else get3 (field dir m0) y x l).
  destruct (@for_from_invariant _ I
              (update_label AU AD AL AR BU BD BL BR Lambda) g 0%nat m0)
    as [m [Em [Wm Gm]]].
  - intros i t Hi [Wt Gt].
    destruct (@update_label_entries i t Wt ltac:(lia)) as [t' [Et [Wt' Gt']]].
    exists t'. split; [exact Et|]. split; [exact Wt'|].
    intros dir y x l Hy Hx Hl. rewrite Gt', Gt by assumption.
    destruct (Nat.eqb_spec l i) as [->|Hne].
    + destruct (Nat.ltb_spec i (S i)); [reflexivity | lia].
    + destruct (Nat.ltb_spec l i); destruct (Nat.ltb_spec l (S i));
        try lia; reflexivity.
  - split; [exact Hm0|]. intros dir y x l Hy Hx Hl. reflexivity.
  - exists m. split; [exact Em|]. split; [exact Wm | exact Gm].
Qed.

End Round.

(** The part of [update_msg] that comes before its loop: the four sums [A]
    of the data cost and of what each pixel received from three neighbours,
    and their minima [B] over the labels. *)
Lemma update_msg_sums (h w L : nat) (prev : messages) (dataCost : volume)
  (Lambda : Q) :
  (0 < h)%nat -> (0 < w)%nat -> (0 < L)%nat ->
  wf_messages h w L prev -> wf3 h w L dataCost ->
  exists AU AD AL AR BU BD BL BR,
    update_msg (field dir_U prev) (field dir_D prev) (field dir_L prev)
               (field dir_R prev) dataCost Lambda =
    for_range (Z.to_nat num_disp_values)
      (update_label AU AD AL AR BU BD BL BR Lambda)
      (zeros3 h w L, zeros3 h w L, zeros3 h w L, zeros3 h w L) /\
    wf_messages h w L (AU, AD, AL, AR) /\
    (forall dir, wf2 h w (field dir (BU, BD, BL, BR))) /\
    (forall dir y x l, (y < h)%nat -> (x < w)%nat -> (l < L)%nat ->
       get3 (field dir (AU, AD, AL, AR)) y x l =
       incoming_sum dir h w prev dataCost y x l) /\
    (forall dir y x, (y < h)%nat -> (x < w)%nat ->
       is_min (get2 0 (field dir (BU, BD, BL, BR)) y x)
              (get3 (field dir (AU, AD, AL, AR)) y x) L).
Proof.
  intros Hh Hw HL Hprev Hcost.
  (* the four incoming arrays *)
  destruct (@assign_axis0_zero h w L _ (h - 1)
              (wf3_roll_axis0 (-1) (Hprev dir_D)) ltac:(lia))
    as [iU [EiU [WiU GiU]]].
  destruct (@assign_axis0_zero h w L _ 0
              (wf3_roll_axis0 1 (Hprev dir_U)) Hh)
    as [iD [EiD [WiD GiD]]].
  destruct (@assign_axis1_zero h w L _ (w - 1)
              (wf3_roll_axis1 (-1) (Hprev dir_R)) Hh ltac:(lia))
    as [iL [EiL [WiL GiL]]].
  destruct (@assign_axis1_zero h w L _ 0
              (wf3_roll_axis1 1 (Hprev dir_L)) Hh Hw)
    as [iR [EiR [WiR GiR]]].
  replace (Z.of_nat (h - 1)) with (Z.of_nat h - 1)%Z in EiU by lia.
  replace (Z.of_nat (w - 1)) with (Z.of_nat w - 1)%Z in EiL by lia.
  change (Z.of_nat 0) with 0%Z in EiD, EiR.
  (* what they hold *)
  assert (FiU : forall y x l, (y < h)%nat -> (x < w)%nat ->
                  get3 iU y x l = from_below h prev y x l).
  { intros y x l Hy Hx. rewrite GiU by assumption. unfold from_below.
    rewrite (get3_roll_back_axis0 x l (Hprev dir_D) Hy).
    destruct (Nat.eqb_spec y (h - 1)); destruct (Nat.eqb_spec (S y) h);
      try lia; reflexivity. }
  assert (FiD : forall y x l, (y < h)%nat -> (x < w)%nat ->
                  get3 iD y x l = from_above prev y x l).
  { intros y x l Hy Hx. rewrite GiD by assumption. unfold from_above.
    rewrite (get3_roll_forth_axis0 x l (Hprev dir_U) Hy).
    destruct (Nat.eqb_spec y 0); reflexivity. }
  assert (FiL : forall y x l, (y < h)%nat -> (x < w)%nat ->
                  get3 iL y x l = from_right w prev y x l).
  { intros y x l Hy Hx. rewrite GiL by assumption. unfold from_right.
    rewrite (get3_roll_back_axis1 l (Hprev dir_R) Hy Hx).
    destruct (Nat.eqb_spec x (w - 1)); destruct (Nat.eqb_spec (S x) w);
      try lia; reflexivity. }
  assert (FiR : forall y x l, (y < h)%nat -> (x < w)%nat ->
                  get3 iR y x l = from_left prev y x l).
  { intros y x l Hy Hx. rewrite GiR by assumption. unfold from_left.
    rewrite (get3_roll_forth_axis1 l (Hprev dir_L) Hy Hx).
    destruct (Nat.eqb_spec x 0); reflexivity. }
  (* the sums and their minima *)
  destruct (radd3_entries Hh Hw Hcost WiD WiL WiR) as [AU [EAU [WAU GAU]]].
  destruct (radd3_entries Hh Hw Hcost WiU WiL WiR) as [AD [EAD [WAD GAD]]].
  destruct (radd3_entries Hh Hw Hcost WiU WiD WiR) as [AL [EAL [WAL GAL]]].
  destruct (radd3_entries Hh Hw Hcost WiU WiD WiL) as [AR [EAR [WAR GAR]]].
  destruct (np_amin_is_min Hh Hw WAU HL) as [BU [EBU [WBU MBU]]].
  destruct (np_amin_is_min Hh Hw WAD HL) as [BD [EBD [WBD MBD]]].
  destruct (np_amin_is_min Hh Hw WAL HL) as [BL [EBL [WBL MBL]]].
  destruct (np_amin_is_min Hh Hw WAR HL) as [BR [EBR [WBR MBR]]].
  assert (HA : wf_messages h w L (AU, AD, AL, AR))
    by (intros [| | |]; assumption).
  assert (HB : forall dir, wf2 h w (field dir (BU, BD, BL, BR)))
    by (intros [| | |]; assumption).
  assert (Hsum : forall dir y x l, (y < h)%nat -> (x < w)%nat -> (l < L)%nat ->
            get3 (field dir (AU, AD, AL, AR)) y x l =
            incoming_sum dir h w prev dataCost y x l).
  { intros [| | |] y x l Hy Hx Hl; simpl field; unfold incoming_sum;
      rewrite ?GAU, ?GAD, ?GAL, ?GAR by assumption;
      rewrite ?FiU, ?FiD, ?FiL, ?FiR by assumption; reflexivity. }
  exists AU, AD, AL, AR, BU, BD, BL, BR.
  split; [|split; [exact HA | split; [exact HB | split; [exact Hsum|]]]].
  - unfold update_msg. rewrite (wf3_shape Hcost Hh Hw).
    step EiU. step EiD. step EiL. step EiR.
    step EAU. step EAD. step EAL. step EAR.
    step EBU. step EBD. step EBL. step EBR.
    reflexivity.
  - intros [| | |] y x Hy Hx; simpl field; auto.
Qed.

Lemma wf_messages_zeros (h w L : nat) :
  wf_messages h w L (zeros3 h w L, zeros3 h w L, zeros3 h w L, zeros3 h w L).
Proof.
  intros [| | |]; apply wf3_zeros3.
Qed.

(** One round of [update_msg] on arrays of one shape with at least
    [num_disp_values] labels.  For each direction, pixel and label [l] below
    [num_disp_values] the new message is [min(A[l], Lambda + min_l' A[l'])],
    [A] being the data cost of the pixel plus what it received from three
    neighbours in the previous round; the labels from [num_disp_values] on
    keep the zero of the allocation. *)
Lemma update_msg_entries (h w L : nat) (prev : messages) (dataCost : volume)
  (Lambda : Q) :
  (0 < h)%nat -> (0 < w)%nat -> (0 < L)%nat ->
  (Z.to_nat num_disp_values <= L)%nat ->
  wf_messages h w L prev -> wf3 h w L dataCost ->
  exists out,
    update_msg (field dir_U prev) (field dir_D prev) (field dir_L prev)
               (field dir_R prev) dataCost Lambda = Ok out /\
    wf_messages h w L out /\
    forall dir y x, (y < h)%nat -> (x < w)%nat ->
      exists B,
        is_min B (incoming_sum dir h w prev dataCost y x) L /\
        forall l, (l < L)%nat ->
          get3 (field dir out) y x l =
          if (l <? Z.to_nat num_disp_values)%nat
          then Qmin (incoming_sum dir h w prev dataCost y x l) (Lambda + B)
          else 0.
Proof.
  intros Hh Hw HL Hg Hprev Hcost.
  destruct (@update_msg_sums h w L prev dataCost Lambda Hh Hw HL Hprev Hcost)
    as [AU [AD [AL [AR [BU [BD [BL [BR [Eup [HA [HB [Hsum Hmin]]]]]]]]]]]].
  destruct (@label_loop_entries h w L Hh Hw AU AD AL AR BU BD BL BR Lambda
              HA HB (Z.to_nat num_disp_values) _ (wf_messages_zeros h w L) Hg)
    as [out [Eout [Wout Gout]]].
  exists out. split; [|split].
  - rewrite Eup. exact Eout.
  - exact Wout.
  - intros dir y x Hy Hx.
    exists (get2 0 (field dir (BU, BD, BL, BR)) y x). split.
    + apply (@is_min_ext _ (get3 (field dir (AU, AD, AL, AR)) y x)).
      * intros l Hl. now apply Hsum.
      * now apply Hmin.
    + intros l Hl. rewrite Gout by assumption.
      destruct (l <? Z.to_nat num_disp_values)%nat.
      * unfold written. now rewrite Hsum.
      * destruct dir; simpl field; unfold get3, zeros3;
          rewrite !nth_repeat_lt by assumption; reflexivity.
Qed.

Lemma for_from_add {St : Type} (body : nat -> St -> result St)
  (n1 n2 start : nat) (s : St) :
  for_from start (n1 + n2) body s =
  bind (for_from start n1 body s) (for_from (start + n1) n2 body).
Proof.
  revert start s. induction n1 as [|n1 IH]; intros start s; simpl.
  - now rewrite Nat.add_0_r.
  - destruct (body start s) as [t|e]; simpl; [|reflexivity].
    rewrite IH. now replace (S start + n1)%nat with (start + S n1)%nat by lia.
Qed.

(** The loop run beyond the last label: [AU[:, :, L]] is out of range. *)
Lemma label_loop_out_of_range (h w L g : nat)
  (AU AD AL AR : volume) (BU BD BL BR : list (list Q)) (Lambda : Q)
  (m0 : messages) :
  (0 < h)%nat -> (0 < w)%nat ->
  wf_messages h w L (AU, AD, AL, AR) ->
  (forall dir, wf2 h w (field dir (BU, BD, BL, BR))) ->
  wf_messages h w L m0 -> (L < g)%nat ->
  for_range g (update_label AU AD AL AR BU BD BL BR Lambda) m0
  = Raise IndexError.
Proof.
  intros Hh Hw HA HB Hm0 Hg.
  destruct (@label_loop_entries h w L Hh Hw AU AD AL AR BU BD BL BR Lambda
              HA HB L m0 Hm0 (Nat.le_refl L)) as [m [Em _]].
  unfold for_range in *.
  replace g with (L + S (g - L - 1))%nat by lia.
  rewrite for_from_add, Em. cbn [bind]. simpl for_from.
  destruct m as [[[mU mD] mL] mR]. unfold update_label, slice_axis2.
  pose proof (wf3_shape (HA dir_U) Hh Hw) as Hs. simpl field in Hs.
  rewrite Hs. simpl snd. now rewrite Nat.ltb_irrefl.
Qed.

(** With fewer labels than the global [num_disp_values], [update_msg] ends
    in the [IndexError] of its loop. *)
Lemma update_msg_fewer_labels (h w L : nat) (prev : messages)
  (dataCost : volume) (Lambda : Q) :
  (0 < h)%nat -> (0 < w)%nat -> (0 < L)%nat ->
  (L < Z.to_nat num_disp_values)%nat ->
  wf_messages h w L prev -> wf3 h w L dataCost ->
  update_msg (field dir_U prev) (field dir_D prev) (field dir_L prev)
             (field dir_R prev) dataCost Lambda = Raise IndexError.
Proof.
  intros Hh Hw HL Hg Hprev Hcost.
  destruct (@update_msg_sums h w L prev dataCost Lambda Hh Hw HL Hprev Hcost)
    as [AU [AD [AL [AR [BU [BD [BL [BR [Eup [HA [HB _]]]]]]]]]]].
  rewrite Eup.
  apply (@label_loop_out_of_range h w L); auto using wf_messages_zeros.
Qed.

(** ** An image of one pixel *)

Lemma wf3_one_pixel {A : Type} (L : nat) (a : list (list (list A))) :
  wf3 1 1 L a -> exists v, a = [[v]] /\ length v = L.
Proof.
  intros [Hh Hf].
  destruct a as [|r [|? ?]]; simpl in Hh; try lia.
  inversion Hf as [|? ? [Hw Hv] _]; subst.
  destruct r as [|v [|? ?]]; simpl in Hw; try lia.
  inversion Hv; subst. now exists v.
Qed.

Lemma num_disp_values_positive : (0 < Z.to_nat num_disp_values)%nat.
Proof.
  unfold num_disp_values. simpl. lia.
Qed.

(** ** Parameters out of range *)

Lemma bind_raises {A B : Type} (m : result A) (k : A -> result B) :
  raises m -> raises (bind m k).
Proof.
  intros [e ->]. now exists e.
Qed.

Lemma bind_raises_all {A B : Type} (m : result A) (k : A -> result B) :
  (forall a, raises (k a)) -> raises (bind m k).
Proof.
  intros H. destruct m as [a|e]; [apply H | now exists e].
Qed.

Lemma np_amin_empty_labels (a : volume) (h w : nat) :
  wf3 h w 0 a -> (0 < h)%nat -> (0 < w)%nat -> raises (np_amin a).
Proof.
  intros Hwf Hh Hw.
  pose proof (wf3_row (y:=0%nat) Hwf Hh) as H1.
  pose proof (wf3_pixel (y:=0%nat) (x:=0%nat) Hwf Hh Hw) as H2.
  destruct Hwf as [H0 _].
  destruct a as [|r a]; simpl in *; [lia|].
  destruct r as [|v r]; simpl in *; [lia|].
  destruct v; simpl in *; [|lia].
  unfold np_amin. simpl. exists ValueError. reflexivity.
Qed.

(** With fewer labels than the global [num_disp_values], [update_msg]
    raises whatever the shape: an [IndexError] on an image without pixel,
    the [ValueError] of [np.amin] on an empty label axis, the [IndexError]
    of its loop otherwise. *)
Lemma update_msg_below_global (h w L : nat) (prev : messages)
  (dataCost : volume) (Lambda : Q) :
  wf_messages h w L prev -> wf3 h w L dataCost ->
  (L < Z.to_nat num_disp_values)%nat ->
  raises (update_msg (field dir_U prev) (field dir_D prev) (field dir_L prev)
                     (field dir_R prev) dataCost Lambda).
Proof.
  intros Hprev Hcost Hg.
  assert (Hdeg : (0 < h /\ 0 < w /\ 0 < L)%nat \/ (h = 0 \/ w = 0 \/ L = 0)%nat)
    by lia.
  destruct Hdeg as [[Hh [Hw HL]]|Hdeg];
    [exists IndexError; now apply (@update_msg_fewer_labels h w L)|].
  unfold update_msg.
  assert (Hlen : length dataCost = h) by apply Hcost.
  destruct (shape3 dataCost) as [[h' w'] L'] eqn:Hshape.
  assert (Hh' : h' = h) by (unfold shape3 in Hshape; congruence).
  subst h'.
  destruct (Nat.eq_dec h 0) as [->|Hh].
  { (* no row: [incMsgU[h-1, :, :]] *)
    apply bind_raises. unfold assign_axis0. apply bind_raises.
    simpl np_roll. rewrite length_roll.
    replace (length (field dir_D prev)) with 0%nat
      by (symmetry; apply (Hprev dir_D)).
    exists IndexError. reflexivity. }
  assert (Hw' : w' = w).
  { pose proof (wf3_row (y:=0%nat) Hcost ltac:(lia)) as Hr.
    unfold shape3 in Hshape. destruct dataCost; simpl in *; [lia|congruence]. }
  subst w'.
  destruct (@assign_axis0_zero h w L _ (h - 1)
              (wf3_roll_axis0 (-1) (Hprev dir_D)) ltac:(lia))
    as [iU [EiU [WiU _]]].
  destruct (@assign_axis0_zero h w L _ 0
              (wf3_roll_axis0 1 (Hprev dir_U)) ltac:(lia))
    as [iD [EiD [WiD _]]].
  replace (Z.of_nat (h - 1)) with (Z.of_nat h - 1)%Z in EiU by lia.
  change (Z.of_nat 0) with 0%Z in EiD.
  step EiU. step EiD.
  destruct (Nat.eq_dec w 0) as [->|Hw].
  { (* no column: [incMsgL[:, w-1, :]] *)
    apply bind_raises. unfold assign_axis1. apply bind_raises.
    pose proof (wf3_roll_axis1 (-1) (Hprev dir_R)) as WR.
    pose proof (wf3_row (y:=0%nat) WR ltac:(lia)) as Hr.
    assert (H0 : length (hd [] (np_roll (field dir_R prev) (-1) 1)) = 0%nat).
    { destruct WR as [Hl _].
      destruct (np_roll (field dir_R prev) (-1) 1); simpl in *; [reflexivity|assumption]. }
    rewrite H0. exists IndexError. reflexivity. }
  destruct (@assign_axis1_zero h w L _ (w - 1)
              (wf3_roll_axis1 (-1) (Hprev dir_R)) ltac:(lia) ltac:(lia))
    as [iL [EiL [WiL _]]].
  destruct (@assign_axis1_zero h w L _ 0
              (wf3_roll_axis1 1 (Hprev dir_L)) ltac:(lia) ltac:(lia))
    as [iR [EiR [WiR _]]].
  replace (Z.of_nat (w - 1)) with (Z.of_nat w - 1)%Z in EiL by lia.
  change (Z.of_nat 0) with 0%Z in EiR.
  step EiL. step EiR.
  destruct (@radd3_entries h w L ltac:(lia) ltac:(lia) _ _ _ _ Hcost WiD WiL WiR)
    as [AU [EAU [WAU _]]].
  destruct (@radd3_entries h w L ltac:(lia) ltac:(lia) _ _ _ _ Hcost WiU WiL WiR)
    as [AD [EAD _]].
  destruct (@radd3_entries h w L ltac:(lia) ltac:(lia) _ _ _ _ Hcost WiU WiD WiR)
    as [AL [EAL _]].
  destruct (@radd3_entries h w L ltac:(lia) ltac:(lia) _ _ _ _ Hcost WiU WiD WiL)
    as [AR [EAR _]].
  step EAU. step EAD. step EAL. step EAR.
  apply bind_raises. assert (HL : L = 0%nat) by lia. subst L.
  apply (@np_amin_empty_labels AU h w); [assumption|lia|lia].
Qed.

Lemma for_range_first_raises {St : Type} (n : nat)
  (body : nat -> St -> result St) (s : St) :
  (0 < n)%nat -> raises (body 0%nat s) -> raises (for_range n body s).
Proof.
  intros Hn Hr. destruct n as [|n]; [lia|].
  unfold for_range. simpl. now apply bind_raises.
Qed.

(** The cost volume built without labels. *)
Lemma compute_data_cost_no_label (I1 I2 : image) (Tau : Q) :
  exists dataCost,
    compute_data_cost I1 I2 0 Tau = Ok dataCost /\
    wf3 (length I1) (length (hd [] I1)) 0 dataCost.
Proof.
  set (h := length I1). set (w := length (hd [] I1)).
  exists (map (fun _ : nat => map (fun _ : nat => @nil Q) (seq 0 w)) (seq 0 h)).
  split.
  - unfold compute_data_cost, shape3. fold h w. simpl bind.
    apply mapM_map. intros y _. apply mapM_map. intros x _. reflexivity.
  - apply wf3_intro.
    + now rewrite length_map, length_seq.
    + intros y Hy. rewrite nth_map_seq by assumption.
      now rewrite length_map, length_seq.
    + intros y x Hy Hx. now rewrite !nth_map_seq by assumption.
Qed.

Lemma stereo_bp_raises_not_positive (I1 I2 : image)
  (num_disp_values : Z) (Lambda Tau : Q) (num_iterations : Z) :
  (num_disp_values <= 0 \/ num_iterations <= 0)%Z ->
  raises (stereo_bp I1 I2 num_disp_values Lambda Tau num_iterations).
Proof.
  intros Hparam. unfold stereo_bp.
  destruct (Z_lt_le_dec num_disp_values 0) as [Hneg|Hnn].
  { (* the allocation of the cost volume *)
    apply bind_raises. unfold compute_data_cost.
    destruct (shape3 I1) as [[h w] c]. apply bind_raises.
    unfold np_zeros3. destruct (Z.ltb_spec num_disp_values 0); [|lia].
    now exists ValueError. }
  destruct (Z_le_gt_dec num_iterations 0) as [Hit|Hit].
  { (* no iteration: the energy array, or [disparity] at the return *)
    apply bind_raises_all. intros dataCost.
    unfold np_zeros1. destruct (Z.ltb_spec num_iterations 0) as [Hlt|Hge].
    - now exists ValueError.
    - cbn [bind]. destruct (shape3 I1) as [[h w] c].
      do 4 (apply bind_raises_all; intros ?).
      replace (Z.to_nat num_iterations) with 0%nat by lia.
      simpl. now exists UnboundLocalError. }
  (* no label *)
  assert (num_disp_values = 0%Z) by lia. subst num_disp_values.
  destruct (compute_data_cost_no_label I1 I2 Tau) as [dataCost [Ecost Wcost]].
  step Ecost.
  unfold np_zeros1. destruct (Z.ltb_spec num_iterations 0); [lia|].
  cbn [bind]. unfold shape3, np_zeros3.
  change (0 <? 0)%Z with false. change (Z.to_nat 0) with 0%nat. cbn [bind].
  apply bind_raises. apply for_range_first_raises; [lia|].
  unfold bp_iteration. simpl st_msgs. apply bind_raises.
  set (h := length I1) in *. set (w := length (hd [] I1)) in *.
  apply (@update_msg_below_global h w 0
           (zeros3 h w 0, zeros3 h w 0, zeros3 h w 0, zeros3 h w 0)).
  - apply wf_messages_zeros.
  - exact Wcost.
  - apply num_disp_values_positive.
Qed.

Lemma mapM_Ok_Forall2 {A B : Type} (f : A -> result B) (l : list A)
  (bs : list B) :
  mapM f l = Ok bs -> Forall2 (fun a b => f a = Ok b) l bs.
Proof.
  revert bs. induction l as [|a t IH]; intros bs H; simpl in H.
  - inversion H. constructor.
  - destruct (f a) as [b|e] eqn:Hb; simpl in H; [|discriminate].
    destruct (mapM f t) as [bt|e] eqn:Ht; simpl in H; [|discriminate].
    inversion H. constructor; auto.
Qed.

(** A cost volume that was built has the shape asked for. *)
Lemma compute_data_cost_shape (I1 I2 : image) (L : Z) (Tau : Q)
  (dataCost : volume) :
  compute_data_cost I1 I2 L Tau = Ok dataCost ->
  (0 <= L)%Z /\
  wf3 (length I1) (length (hd [] I1)) (Z.to_nat L) dataCost.
Proof.
  unfold compute_data_cost, shape3, np_zeros3.
  destruct (Z.ltb_spec L 0) as [Hneg|Hnn]; [discriminate|]. cbn [bind].
  set (h := length I1). set (w := length (hd [] I1)).
  intros H. split; [assumption|].
  pose proof (mapM_Ok_Forall2 _ _ H) as Hrows.
  pose proof (Forall2_length Hrows) as Hlen. rewrite length_seq in Hlen.
  assert (Hrow : forall y, (y < h)%nat ->
            Forall2 (fun x px => length px = Z.to_nat L)
                    (seq 0 w) (nth y dataCost [])).
  { intros y Hy.
    assert (Hy' : (y < length (seq 0 h))%nat) by now rewrite length_seq.
    pose proof (Forall2_nth_rel 0%nat [] Hrows Hy') as Hr. cbv beta in Hr.
    apply mapM_Ok_Forall2 in Hr.
    eapply Forall2_impl; [|exact Hr].
    intros x px Hpx. apply mapM_Ok_Forall2, Forall2_length in Hpx.
    now rewrite length_seq in Hpx. }
  apply wf3_intro.
  - lia.
  - intros y Hy. rewrite <- (Forall2_length (Hrow y Hy)). apply length_seq.
  - intros y x Hy Hx.
    assert (Hx' : (x < length (seq 0 w))%nat) by now rewrite length_seq.
    exact (Forall2_nth_rel 0%nat [] (Hrow y Hy) Hx').
Qed.

(** [stereo_bp] with fewer labels than the global [num_disp_values] of
    [update_msg]: every run ends in an exception. *)
Lemma stereo_bp_below_global (I1 I2 : image) (labels : Z) (Lambda Tau : Q)
  (num_iterations : Z) :
  (labels < num_disp_values)%Z ->
  raises (stereo_bp I1 I2 labels Lambda Tau num_iterations).
Proof.
  intros Hg.
  destruct (Z_le_gt_dec labels 0) as [Hl|Hl];
    [apply stereo_bp_raises_not_positive; now left|].
  destruct (Z_le_gt_dec num_iterations 0) as [Hn|Hn];
    [apply stereo_bp_raises_not_positive; now right|].
  unfold stereo_bp.
  destruct (compute_data_cost I1 I2 labels Tau) as [dataCost|e] eqn:Ecost;
    [|now exists e].
  destruct (compute_data_cost_shape _ _ _ _ Ecost) as [_ Wcost].
  cbn [bind]. unfold np_zeros1.
  destruct (Z.ltb_spec num_iterations 0); [lia|]. cbn [bind].
  unfold shape3, np_zeros3. destruct (Z.ltb_spec labels 0); [lia|].
  cbn [bind].
  apply bind_raises. apply for_range_first_raises; [lia|].
  unfold bp_iteration. simpl st_msgs. apply bind_raises.
  set (h := length I1) in *. set (w := length (hd [] I1)) in *.
  set (L := Z.to_nat labels) in *.
  apply (@update_msg_below_global h w L
           (zeros3 h w L, zeros3 h w L, zeros3 h w L, zeros3 h w L)).
  - apply wf_messages_zeros.
  - exact Wcost.
  - unfold L. lia.
Qed.

(** On a pair of images of one pixel every run of [stereo_bp] ends in an
    exception: below [num_disp_values] labels by the lemma above, from three
    labels on in [compute_data_cost], which reads column [-2] of an image of
    one column. *)
Lemma stereo_bp_one_pixel_raises (I1 I2 : image) (c1 c2 : nat) (labels : Z)
  (Lambda Tau : Q) (num_iterations : Z) :
  wf3 1 1 c1 I1 -> wf3 1 1 c2 I2 ->
  raises (stereo_bp I1 I2 labels Lambda Tau num_iterations).
Proof.
  intros W1 W2.
  destruct (Z_lt_le_dec labels num_disp_values) as [Hlt|Hge];
    [now apply stereo_bp_below_global|].
  unfold num_disp_values in Hge.
  unfold stereo_bp. apply bind_raises.
  destruct (wf3_one_pixel W1) as [p1 [-> _]].
  destruct (wf3_one_pixel W2) as [p2 [-> _]].
  unfold compute_data_cost, shape3, np_zeros3. simpl length.
  destruct (Z.ltb_spec labels 0); [lia|]. cbn [bind].
  change (seq 0 1) with [0%nat]. cbn [mapM].
  do 2 apply bind_raises.
  apply (@mapM_raises _ _ _ _ 2%nat); [apply in_seq; lia|].
  apply bind_raises_all. intros q. apply bind_raises.
  exists IndexError. reflexivity.
Qed.

(** C4, as the claim has it, fails: a negative [Tau] is accepted, the run
    completes and its energy is negative; so is a second image with one row
    more than the first. *)
Lemma stereo_bp_accepts_negative_Tau :
  -1 < 0 /\
  stereo_bp flat15 flat15 16 10 (-1) 1 = Ok ([repeat 0%Z 15], [-15]) /\
  shape3 flat15 <> shape3 tall15 /\
  exists e, stereo_bp flat15 tall15 16 10 15 1 = Ok ([repeat 0%Z 15], [e]).
Proof.
  split; [reflexivity|]. split; [vm_compute; reflexivity|].
  split; [discriminate|]. eexists. vm_compute. reflexivity.
Qed.

(** ** The label loop of [update_msg] and the global [num_disp_values] *)

(** C1 on the code: with the two labels of a volume of shape (1, 1, 2) the
    loop of [update_msg], which runs over the sixteen labels of the global
    [num_disp_values], reads [AU[:, :, 2]] and raises; no message is
    produced. *)
Theorem update_msg_two_labels :
  wf3 1 1 2 [[[1; 2]]] /\
  update_msg [[[0; 0]]] [[[0; 0]]] [[[0; 0]]] [[[0; 0]]] [[[1; 2]]] 1
  = Raise IndexError.
Proof.
  split; [split; [reflexivity | repeat constructor] | reflexivity].
Qed.

(** C10 on the code: with seventeen labels of cost 5 on one pixel, zero
    previous messages and [Lambda = 1], the sums [A] are 5 for every label,
    the messages of the labels 0 to 15 are 5 and the message of label 16 is
    left at 0, below the minimum of [A]; the spread of the vector is 5. *)
Theorem update_msg_seventeen_labels :
  let z := [[repeat 0 17]] in
  exists out,
    update_msg z z z z [[repeat 5 17]] 1 = Ok out /\
    is_min 5 (incoming_sum dir_U 1 1 (z, z, z, z) [[repeat 5 17]] 0 0) 17 /\
    get3 (field dir_U out) 0 0 0 == 5 /\
    get3 (field dir_U out) 0 0 16 == 0 /\
    ~ 5 <= get3 (field dir_U out) 0 0 16 /\
    ~ get3 (field dir_U out) 0 0 0 - get3 (field dir_U out) 0 0 16 <= 1.
Proof.
  intros z. eexists. split; [vm_compute; reflexivity|].
  split; [|split; [reflexivity|split; [reflexivity|split]]].
  - split.
    + exists 0%nat. split; [lia | reflexivity].
    + intros l Hl.
      do 17 (destruct l as [|l]; [vm_compute; discriminate|]). lia.
  - vm_compute. intros H. now apply H.
  - vm_compute. intros H. now apply H.
Qed.

(** ** The energy *)

(** C2 on the code.  On one row with the disparities 0, 1, 0, zero costs and
    [Lambda = 1] the four neighbours that differ give the energy 4 of the
    specification (2 if every pair counted once); [compute_energy] returns
    1, the number of pixels marked in the union of its four boolean arrays.
    On one column with the disparities 0, 0, 1 it returns 3 where the
    specification has 2: the pixel of row 0 is marked against row 2, across
    the edge. *)
Theorem compute_energy_row_and_column :
  energy_spec 1 3 (zeros3 1 3 2) [[0; 1; 0]]%Z 1 == 4 /\
  (exists e, compute_energy (zeros3 1 3 2) [[0; 1; 0]]%Z 1 = Ok e /\ e == 1) /\
  energy_spec 3 1 (zeros3 3 1 2) [[0]; [0]; [1]]%Z 1 == 2 /\
  (exists e, compute_energy (zeros3 3 1 2) [[0]; [0]; [1]]%Z 1 = Ok e /\ e == 3).
Proof.
  split; [reflexivity|]. split; [eexists; split; [vm_compute|]; reflexivity|].
  split; [reflexivity|]. eexists; split; [vm_compute|]; reflexivity.
Qed.

(** ** The engine *)

(** C8 on the code: two images of one row and two pixels, two labels,
    [Lambda = 10], [Tau = 15] and five iterations are valid inputs, and
    [stereo_bp] ends in the [IndexError] of the first call of [update_msg];
    no iteration completes and nothing is returned. *)
Theorem stereo_bp_two_labels :
  wf3 1 2 1 [[[0]; [0]]] /\
  (exists dataCost,
     compute_data_cost [[[0]; [0]]] [[[0]; [0]]] 2 15 = Ok dataCost /\
     wf3 1 2 2 dataCost) /\
  stereo_bp [[[0]; [0]]] [[[0]; [0]]] 2 10 15 5 = Raise IndexError.
Proof.
  split; [split; [reflexivity | repeat constructor]|].
  split; [|reflexivity].
  eexists. split; [vm_compute; reflexivity|].
  split; [reflexivity | repeat constructor].
Qed.

(** ** Runs with [num_disp_values] labels *)

Lemma mapM_Forall {A B : Type} (P : B -> Prop) (f : A -> result B)
  (l : list A) :
  (forall a, In a l -> exists b, f a = Ok b /\ P b) ->
  exists bs, mapM f l = Ok bs /\ Forall P bs /\ length bs = length l.
Proof.
  intros H.
  destruct (@mapM_Forall2 _ _ (fun _ b => P b) f l H) as [bs [Hbs Hrel]].
  exists bs. split; [assumption|]. split.
  - clear Hbs H. induction Hrel; constructor; auto.
  - symmetry. exact (Forall2_length Hrel).
Qed.

Lemma mapM_Ok_Forall {A B : Type} (P : B -> Prop) (f : A -> result B)
  (l : list A) (bs : list B) :
  mapM f l = Ok bs -> (forall a b, In a l -> f a = Ok b -> P b) ->
  Forall P bs.
Proof.
  intros H HP. apply mapM_Ok_Forall2 in H.
  induction H as [|a b l bs Hab _ IH]; constructor.
  - apply (HP a); [now left | assumption].
  - apply IH. intros a' b' Hin. apply HP. now right.
Qed.

Lemma In_combine_nth {A B : Type} (l1 : list A) (l2 : list B) (p : A * B)
  (d1 : A) (d2 : B) :
  In p (combine l1 l2) ->
  exists i, (i < length l1)%nat /\ (i < length l2)%nat /\
            p = (nth i l1 d1, nth i l2 d2).
Proof.
  revert l2. induction l1 as [|a t IH]; intros [|b t2] H; simpl in H;
    try contradiction.
  destruct H as [<-|H].
  - exists 0%nat. simpl. repeat split; lia.
  - destruct (IH _ H) as [i [H1 [H2 Hp]]].
    exists (S i). simpl. repeat split; try lia. assumption.
Qed.

Lemma vsum_nonneg (v : vec) : nonneg v -> 0 <= vsum v.
Proof.
  induction 1 as [|a t Ha _ IH]; simpl; [apply Qle_refl|].
  change 0 with (0 + 0). now apply Qplus_le_compat.
Qed.

Lemma norm1_nonneg (v : vec) : 0 <= norm1 v.
Proof.
  unfold norm1. apply vsum_nonneg.
  induction v; simpl; constructor; [apply Qabs_nonneg | assumption].
Qed.

Lemma compute_data_cost_nonneg (I1 I2 : image) (L : Z) (Tau : Q)
  (dataCost : volume) :
  compute_data_cost I1 I2 L Tau = Ok dataCost -> 0 <= Tau ->
  nonneg3 dataCost.
Proof.
  unfold compute_data_cost. destruct (shape3 I1) as [[h w] c].
  unfold np_zeros3. destruct (Z.ltb_spec L 0); [discriminate|]. cbn [bind].
  intros Hrun HTau.
  apply (mapM_Ok_Forall _ _ _ Hrun). intros y row _ Hrow.
  apply (mapM_Ok_Forall _ _ _ Hrow). intros x px _ Hpx.
  apply (mapM_Ok_Forall _ _ _ Hpx). intros l q _ Hq.
  destruct (getitem2 I1 (Z.of_nat y) (Z.of_nat x)); [|discriminate].
  destruct (getitem2 I2 (Z.of_nat y) (Z.of_nat x - Z.of_nat l)); [|discriminate].
  cbn [bind] in Hq. destruct (vsub a a0) as [d|]; [|discriminate].
  cbn [bind] in Hq. inversion Hq. apply Q.min_glb; [|assumption].
  pose proof (norm1_nonneg d). lra.
Qed.

Lemma wf3_normalize (h w L : nat) (a : volume) :
  wf3 h w L a -> wf3 h w L (map (map normalize_vec) a).
Proof.
  intros Hwf. assert (Hh : length a = h) by apply Hwf.
  apply wf3_intro.
  - now rewrite length_map.
  - intros y Hy. rewrite (@nth_map_in _ _ _ a y [] []) by lia.
    rewrite length_map. now apply (wf3_row Hwf).
  - intros y x Hy Hx. rewrite (@nth_map_in _ _ _ a y [] []) by lia.
    rewrite (@nth_map_in _ _ _ _ x [] []) by (rewrite (wf3_row Hwf); lia).
    unfold normalize_vec. rewrite length_map. now apply (wf3_pixel Hwf).
Qed.

Lemma nonneg3_pixel (h w L : nat) (a : volume) y x :
  wf3 h w L a -> nonneg3 a -> (y < h)%nat -> (x < w)%nat ->
  nonneg (nth x (nth y a []) []).
Proof.
  intros Hwf Hnn Hy Hx. unfold nonneg3 in Hnn. rewrite Forall_forall in Hnn.
  assert (Hrow : In (nth y a []) a) by (apply nth_In; destruct Hwf; lia).
  specialize (Hnn _ Hrow). rewrite Forall_forall in Hnn.
  apply Hnn, nth_In. rewrite (wf3_row Hwf); assumption.
Qed.

Lemma take_along_axis2_nonneg (h w L : nat) (a : volume) (d : list (list Z)) :
  (0 < h)%nat -> (0 < w)%nat ->
  wf3 h w L a -> nonneg3 a -> wf2 h w d -> labels_in_range h w L d ->
  exists costs, take_along_axis2 a d = Ok costs /\ Forall nonneg costs.
Proof.
  intros Hh Hw Ha Hnn Hd Hrange. unfold take_along_axis2.
  rewrite (wf3_shape Ha Hh Hw), (wf2_shape Hd Hh).
  unfold shape2_eqb. simpl. rewrite !Nat.eqb_refl. simpl.
  assert (Hla : length a = h) by apply Ha.
  assert (Hld : length d = h) by apply Hd.
  destruct (@mapM_Forall _ _ nonneg
              (fun p : list (list Q) * list Z =>
                 mapM (fun q : list Q * Z => getitem (fst q) (snd q))
                      (combine (fst p) (snd p)))
              (combine a d)) as [costs [Ec [Hc _]]].
  - intros p Hp.
    destruct (@In_combine_nth _ _ a d p [] [] Hp) as [y [Hy [_ ->]]].
    rewrite Hla in Hy. simpl fst. simpl snd.
    destruct (@mapM_Forall _ _ (fun q => 0 <= q)
                (fun q : list Q * Z => getitem (fst q) (snd q))
                (combine (nth y a []) (nth y d []))) as [row [Er [Hr _]]].
    + intros q Hq.
      destruct (@In_combine_nth _ _ _ _ q [] 0%Z Hq) as [x [Hx [_ ->]]].
      rewrite (wf3_row Ha Hy) in Hx. simpl fst. simpl snd.
      pose proof (wf3_pixel Ha Hy Hx) as HL.
      pose proof (Hrange y x Hy Hx) as Hk. unfold get2 in Hk.
      pose proof (nonneg3_pixel Ha Hnn Hy Hx) as Hpx.
      set (v := nth x (nth y a []) []) in *.
      set (k := nth x (nth y d []) 0%Z) in *.
      exists (nth (Z.to_nat (k mod Z.of_nat (length v))) v 0). split.
      * apply getitem_mod. lia.
      * unfold nonneg in Hpx. rewrite Forall_forall in Hpx.
        apply Hpx, nth_In.
        pose proof (Z.mod_pos_bound k (Z.of_nat (length v))). lia.
    + exists row. split; assumption.
  - exists costs. split; assumption.
Qed.

Lemma np_sum_nonneg (costs : list (list Q)) :
  Forall nonneg costs -> 0 <= np_sum costs.
Proof.
  intros H. unfold np_sum. apply vsum_nonneg.
  induction H as [|r t Hr _ IH]; simpl; constructor; auto.
  now apply vsum_nonneg.
Qed.

Lemma wf2_roll_axis0 {A : Type} (h w : nat) (d : list (list A)) (shift : Z) :
  wf2 h w d -> wf2 h w (np_roll d shift 0).
Proof.
  intros [Hh Hf]. split; [simpl; now rewrite length_roll|].
  rewrite Forall_forall in *. intros r Hr. apply Hf. eapply In_roll, Hr.
Qed.

Lemma wf2_roll_axis1 {A : Type} (h w : nat) (d : list (list A)) (shift : Z) :
  wf2 h w d -> wf2 h w (np_roll d shift 1).
Proof.
  intros [Hh Hf]. split; [simpl; now rewrite length_map|].
  rewrite Forall_forall in *. intros r' Hr'. simpl in Hr'.
  apply in_map_iff in Hr'. destruct Hr' as [r [<- Hr]].
  rewrite length_roll. now apply Hf.
Qed.

Lemma wf2_potts (h w : nat) (d d' : list (list Z)) :
  wf2 h w d -> wf2 h w d' -> wf2 h w (np_ne0 (np_subZ d d')).
Proof.
  intros Hd Hd'.
  assert (Hl : length d = h) by apply Hd.
  assert (Hl' : length d' = h) by apply Hd'.
  unfold np_ne0, np_subZ. apply wf2_intro.
  - rewrite length_map, length_map2. lia.
  - intros y Hy.
    rewrite (@nth_map_in _ _ _ _ y [] []) by (rewrite length_map2; lia).
    rewrite length_map.
    rewrite (@nth_map2 _ _ _ _ d d' y [] [] []) by lia.
    rewrite length_map2, (wf2_row Hd), (wf2_row Hd') by assumption. lia.
Qed.

Lemma assign_axis0_ok {A : Type} (z : A -> A) (h w : nat)
  (a : list (list A)) (k : nat) :
  wf2 h w a -> (k < h)%nat ->
  exists b, assign_axis0 z a (Z.of_nat k) = Ok b.
Proof.
  intros [Hh _] Hk. unfold assign_axis0.
  rewrite py_index_mod by lia. cbn [bind]. eexists. reflexivity.
Qed.

Lemma assign_axis1_ok {A : Type} (z : A -> A) (h w : nat)
  (a : list (list A)) (k : nat) :
  wf2 h w a -> (0 < h)%nat -> (k < w)%nat ->
  exists b, assign_axis1 z a (Z.of_nat k) = Ok b.
Proof.
  intros Hwf Hh Hk. unfold assign_axis1.
  assert (Hw : length (hd [] a) = w).
  { pose proof (wf2_row (y:=0%nat) Hwf Hh). destruct Hwf as [Hl _].
    destruct a; simpl in *; [lia | assumption]. }
  rewrite Hw, py_index_mod by lia. cbn [bind]. eexists. reflexivity.
Qed.

(** On a volume without negative cost and a map with labels in range,
    with [Lambda >= 0], [compute_energy] returns an energy that is not
    negative. *)
Lemma compute_energy_nonneg (h w L : nat) (dataCost : volume)
  (d : list (list Z)) (Lambda : Q) :
  (0 < h)%nat -> (0 < w)%nat ->
  wf3 h w L dataCost -> nonneg3 dataCost ->
  wf2 h w d -> labels_in_range h w L d -> 0 <= Lambda ->
  exists e, compute_energy dataCost d Lambda = Ok e /\ 0 <= e.
Proof.
  intros Hh Hw Hcost Hnn Hd Hrange HLambda.
  destruct (take_along_axis2_nonneg Hh Hw Hcost Hnn Hd Hrange)
    as [costs [Ec Hc]].
  destruct (@assign_axis0_ok _ (fun _ : bool => false) h w _ 0
              (wf2_potts Hd (wf2_roll_axis0 (-1) Hd)) Hh) as [pU EU].
  destruct (@assign_axis0_ok _ (fun _ : bool => false) h w _ (h - 1)
              (wf2_potts Hd (wf2_roll_axis0 1 Hd)) ltac:(lia)) as [pD ED].
  destruct (@assign_axis1_ok _ (fun _ : bool => false) h w _ 0
              (wf2_potts Hd (wf2_roll_axis1 (-1) Hd)) Hh Hw) as [pL EL].
  destruct (@assign_axis1_ok _ (fun _ : bool => false) h w _ (w - 1)
              (wf2_potts Hd (wf2_roll_axis1 1 Hd)) Hh ltac:(lia)) as [pR ER].
  replace (Z.of_nat (h - 1)) with (Z.of_nat h - 1)%Z in ED by lia.
  replace (Z.of_nat (w - 1)) with (Z.of_nat w - 1)%Z in ER by lia.
  change (Z.of_nat 0) with 0%Z in EU, EL.
  eexists. split.
  - unfold compute_energy. rewrite (wf3_shape Hcost Hh Hw).
    step Ec. step EU. step ED. step EL. step ER. reflexivity.
  - pose proof (np_sum_nonneg Hc) as Hs.
    assert (Hn : 0 <= inject_Z (count_true
               (np_add_bool (np_add_bool (np_add_bool pU pD) pL) pR))).
    { unfold count_true. change 0 with (inject_Z 0).
      rewrite <- Zle_Qle. lia. }
    pose proof (Qmult_le_0_compat _ _ HLambda Hn). lra.
Qed.

Lemma Forall_upd {A : Type} (P : A -> Prop) (k : nat) (c : A) (l : list A) :
  Forall P l -> P c -> Forall P (upd k (fun _ => c) l).
Proof.
  intros Hl Hc. revert k. induction Hl as [|a t Ha Ht IH]; intros [|k]; simpl;
    constructor; auto.
Qed.

(** One iteration of the loop of [stereo_bp] on a volume with
    [num_disp_values] labels and no negative cost. *)
Lemma bp_iteration_runs (h w L : nat) (dataCost : volume) (Lambda : Q)
  (iter : nat) (st : bp_state) :
  (0 < h)%nat -> (0 < w)%nat -> L = Z.to_nat num_disp_values ->
  wf3 h w L dataCost -> nonneg3 dataCost -> 0 <= Lambda ->
  wf_messages h w L (st_msgs st) ->
  (iter < length (st_energy st))%nat -> nonneg (st_energy st) ->
  exists st' d,
    bp_iteration dataCost Lambda iter st = Ok st' /\
    wf_messages h w L (st_msgs st') /\
    length (st_energy st') = length (st_energy st) /\
    nonneg (st_energy st') /\
    st_disparity st' = Some d /\
    wf2 h w d /\ labels_in_range h w L d.
Proof.
  intros Hh Hw HL Hcost Hnn HLambda Hprev Hiter Hen.
  assert (Hpos : (0 < L)%nat) by (rewrite HL; apply num_disp_values_positive).
  destruct (@update_msg_entries h w L (st_msgs st) dataCost Lambda
              Hh Hw Hpos ltac:(lia) Hprev Hcost) as [out [Eup [Wout _]]].
  destruct out as [[[oU oD] oL] oR].
  pose proof (wf3_normalize (Wout dir_U)) as WU.
  pose proof (wf3_normalize (Wout dir_D)) as WD.
  pose proof (wf3_normalize (Wout dir_L)) as WL.
  pose proof (wf3_normalize (Wout dir_R)) as WR.
  simpl field in WU, WD, WL, WR.
  set (nU := map (map normalize_vec) oU) in *.
  set (nD := map (map normalize_vec) oD) in *.
  set (nL := map (map normalize_vec) oL) in *.
  set (nR := map (map normalize_vec) oR) in *.
  destruct (radd3_entries Hh Hw Hcost WU WD WL) as [s3 [E3 [W3 _]]].
  destruct (np_add_entries W3 WR Hh Hw) as [beliefs [Eb [Wb _]]].
  destruct (np_argmin_first_minimum Wb Hpos) as [d [Ed [Wd Hd]]].
  assert (Hrange : labels_in_range h w L d).
  { intros y x Hy Hx. apply (Hd y x Hy Hx). }
  destruct (compute_energy_nonneg Hh Hw Hcost Hnn Wd Hrange HLambda)
    as [e [Ee He]].
  exists (mk_state (nU, nD, nL, nR) (Some d)
                   (upd iter (fun _ => e) (st_energy st))), d.
  split; [|split; [|split; [|split; [|split; [|split]]]]].
  - unfold bp_iteration.
    destruct (st_msgs st) as [[[pU pD] pL] pR]. simpl field in Eup.
    step Eup. rewrite normalize_msg_fields. fold nU nD nL nR.
    unfold compute_belief.
    change (Ok dataCost +. nU +. nD +. nL +. nR)
      with (radd (Ok dataCost +. nU +. nD +. nL) nR).
    rewrite E3. unfold radd at 1. cbn [bind]. step Eb.
    unfold MAP_labeling. step Ed. step Ee.
    unfold setitem. rewrite py_index_mod by lia.
    rewrite Z.mod_small by lia. rewrite Nat2Z.id. reflexivity.
  - intros [| | |]; simpl; assumption.
  - simpl. apply length_upd.
  - simpl. now apply Forall_upd.
  - reflexivity.
  - exact Wd.
  - exact Hrange.
Qed.

(** The runs of [stereo_bp] with the [num_disp_values] labels of the global:
    for images of one shape, at least 15 pixels wide, [Lambda >= 0],
    [Tau >= 0] and a positive number [n] of iterations, [stereo_bp] returns;
    the trace has [n] energies, none negative; the labels of the map are in
    range and the map is the one of the last iteration. *)
Lemma stereo_bp_global_labels (I1 I2 : image) (h w c : nat) (Lambda Tau : Q)
  (n : Z) :
  wf3 h w c I1 -> wf3 h w c I2 -> (0 < h)%nat ->
  (num_disp_values <= Z.of_nat w + 1)%Z ->
  0 <= Lambda -> 0 <= Tau -> (0 < n)%Z ->
  exists dataCost d e,
    compute_data_cost I1 I2 num_disp_values Tau = Ok dataCost /\
    stereo_bp I1 I2 num_disp_values Lambda Tau n = Ok (d, e) /\
    length e = Z.to_nat n /\ nonneg e /\
    wf2 h w d /\ labels_in_range h w (Z.to_nat num_disp_values) d /\
    exists st st',
      for_range (Z.to_nat n - 1) (bp_iteration dataCost Lambda)
        (initial_state h w (Z.to_nat num_disp_values) (Z.to_nat n)) = Ok st /\
      bp_iteration dataCost Lambda (Z.to_nat n - 1) st = Ok st' /\
      st_disparity st' = Some d /\ st_energy st' = e.
Proof.
  intros W1 W2 Hh Hwide HLambda HTau Hn.
  set (L := Z.to_nat num_disp_values).
  assert (Hw : (0 < w)%nat) by (unfold num_disp_values in Hwide; lia).
  destruct (@compute_data_cost_cells I1 I2 h w c num_disp_values Tau W1 W2)
    as [dataCost [Ecost [Wcost _]]];
    [unfold num_disp_values in *; lia|].
  fold L in Wcost.
  pose proof (@compute_data_cost_nonneg I1 I2 _ Tau dataCost Ecost HTau) as Hnn.
  set (I := fun (i : nat) (st : bp_state) =>
    wf_messages h w L (st_msgs st) /\
    length (st_energy st) = Z.to_nat n /\ nonneg (st_energy st)).
  set (k := (Z.to_nat n - 1)%nat).
  destruct (@for_from_invariant _ I (bp_iteration dataCost Lambda) k 0%nat
              (initial_state h w L (Z.to_nat n))) as [st [Est [Wst [Lst Nst]]]].
  { intros i t Hi [Wt [Lt Nt]].
    destruct (@bp_iteration_runs h w L dataCost Lambda i t Hh Hw eq_refl
                Wcost Hnn HLambda Wt ltac:(unfold k in Hi; lia) Nt)
      as [t' [d [Et [Wt' [Lt' [Nt' _]]]]]].
    exists t'. split; [exact Et|]. split; [exact Wt'|]. split; [lia | exact Nt']. }
  { split; [apply wf_messages_zeros|]. split; [apply repeat_length|].
    simpl. apply Forall_forall. intros q Hq. apply repeat_spec in Hq.
    subst q. apply Qle_refl. }
  destruct (@bp_iteration_runs h w L dataCost Lambda k st Hh Hw eq_refl
              Wcost Hnn HLambda Wst ltac:(unfold k; lia) Nst)
    as [st' [d [Est' [_ [Lst' [Nst' [Hd [Wd Hrange]]]]]]]].
  exists dataCost, d, (st_energy st').
  split; [exact Ecost|]. split; [|split; [lia|split; [exact Nst'|
    split; [exact Wd|split; [exact Hrange|]]]]].
  - unfold stereo_bp. step Ecost. unfold np_zeros1.
    destruct (Z.ltb_spec n 0); [lia|]. cbn [bind].
    rewrite (wf3_shape W1 Hh Hw). unfold np_zeros3.
    change (num_disp_values <? 0)%Z with false. cbn [bind]. fold L.
    unfold for_range.
    replace (Z.to_nat n) with (k + 1)%nat at 1 by (unfold k; lia).
    rewrite for_from_add.
    change (for_from 0 k (bp_iteration dataCost Lambda)
              (initial_state h w L (Z.to_nat n)) = Ok st) in Est.
    unfold initial_state in Est. rewrite Est. cbn [bind].
    simpl for_from. rewrite Est'. cbn [bind]. now rewrite Hd.
  - exists st, st'. now repeat split.
Qed.


(** * Further properties of the functions *)

(** ** [update_msg] *)

(** X1. On arrays of one shape with at least [num_disp_values] labels,
    [update_msg] returns four fields of that shape; for each direction and
    pixel, the message of a label [l] below [num_disp_values] is
    [min(A[l], Lambda + min_l' A[l'])], [A] being the data cost of the pixel
    plus what it received from three neighbours in the previous round (zero
    across the edges of the image), and the messages of the labels from
    [num_disp_values] on are 0. *)
Theorem update_msg_round_formula (h w L : nat) (prev : messages)
  (dataCost : volume) (Lambda : Q) :
  (0 < h)%nat -> (0 < w)%nat -> (0 < L)%nat ->
  (Z.to_nat num_disp_values <= L)%nat ->
  wf_messages h w L prev -> wf3 h w L dataCost ->
  exists out,
    update_msg (field dir_U prev) (field dir_D prev) (field dir_L prev)
               (field dir_R prev) dataCost Lambda = Ok out /\
    wf_messages h w L out /\
    forall dir y x, (y < h)%nat -> (x < w)%nat ->
      exists B,
        is_min B (incoming_sum dir h w prev dataCost y x) L /\
        forall l, (l < L)%nat ->
          get3 (field dir out) y x l =
          if (l <? Z.to_nat num_disp_values)%nat
          then Qmin (incoming_sum dir h w prev dataCost y x l) (Lambda + B)
          else 0.
Proof.
  apply update_msg_entries.
Qed.

Lemma update_msg_round_formula_witness :
  let prev := (zeros3 1 1 16, zeros3 1 1 16, zeros3 1 1 16, zeros3 1 1 16) in
  exists out,
    update_msg (field dir_U prev) (field dir_D prev) (field dir_L prev)
               (field dir_R prev) [[cost16]] 1 = Ok out /\
    wf_messages 1 1 16 out /\
    forall dir y x, (y < 1)%nat -> (x < 1)%nat ->
      exists B,
        is_min B (incoming_sum dir 1 1 prev [[cost16]] y x) 16 /\
        forall l, (l < 16)%nat ->
          get3 (field dir out) y x l =
          if (l <? Z.to_nat num_disp_values)%nat
          then Qmin (incoming_sum dir 1 1 prev [[cost16]] y x l) (1 + B)
          else 0.
Proof.
  intros prev.
  apply (@update_msg_round_formula 1 1 16 prev [[cost16]] 1).
  - lia.
  - lia.
  - lia.
  - vm_compute. lia.
  - intros [| | |]; (split; [reflexivity | repeat constructor]).
  - split; [reflexivity | repeat constructor].
Defined.

(** X2. With fewer labels than the global [num_disp_values], [update_msg]
    returns nothing: on arrays of one shape it ends in an exception,
    whatever the image size and the previous messages. *)
Theorem update_msg_raises_below_sixteen (h w L : nat) (prev : messages)
  (dataCost : volume) (Lambda : Q) :
  wf_messages h w L prev -> wf3 h w L dataCost ->
  (L < Z.to_nat num_disp_values)%nat ->
  raises (update_msg (field dir_U prev) (field dir_D prev) (field dir_L prev)
                     (field dir_R prev) dataCost Lambda).
Proof.
  apply update_msg_below_global.
Qed.

Lemma update_msg_raises_below_sixteen_witness :
  let prev := (zeros3 2 2 3, zeros3 2 2 3, zeros3 2 2 3, zeros3 2 2 3) in
  raises (update_msg (field dir_U prev) (field dir_D prev) (field dir_L prev)
                     (field dir_R prev) (zeros3 2 2 3) 1).
Proof.
  intros prev.
  apply (@update_msg_raises_below_sixteen 2 2 3 prev (zeros3 2 2 3) 1).
  - intros [| | |]; (split; [reflexivity | repeat constructor]).
  - split; [reflexivity | repeat constructor].
  - vm_compute. lia.
Defined.



(** ** [stereo_bp] *)

(** X4. Called with fewer labels than the global [num_disp_values] that
    [update_msg] loops over, [stereo_bp] never returns a result, whatever the
    images and the other parameters. *)
Theorem stereo_bp_raises_below_sixteen (I1 I2 : image) (labels : Z)
  (Lambda Tau : Q) (num_iterations : Z) :
  (labels < num_disp_values)%Z ->
  raises (stereo_bp I1 I2 labels Lambda Tau num_iterations).
Proof.
  apply stereo_bp_below_global.
Qed.

Lemma stereo_bp_raises_below_sixteen_witness :
  raises (stereo_bp flat15 flat15 8 10 15 60).
Proof.
  apply (@stereo_bp_raises_below_sixteen flat15 flat15 8 10 15 60).
  reflexivity.
Defined.

(** X5. With the [num_disp_values] labels of the global, two images of one
    shape at least 15 pixels wide, [Lambda >= 0], [Tau >= 0] and [n > 0]
    iterations, [stereo_bp] returns: the trace holds [n] energies, none
    negative, the map has the shape of the images and labels in
    [0, num_disp_values), and it is the map of the last iteration, whose
    energy array is the trace. *)
Theorem stereo_bp_sixteen_labels_run (I1 I2 : image) (h w c : nat)
  (Lambda Tau : Q) (n : Z) :
  wf3 h w c I1 -> wf3 h w c I2 -> (0 < h)%nat ->
  (num_disp_values <= Z.of_nat w + 1)%Z ->
  0 <= Lambda -> 0 <= Tau -> (0 < n)%Z ->
  exists dataCost d e,
    compute_data_cost I1 I2 num_disp_values Tau = Ok dataCost /\
    stereo_bp I1 I2 num_disp_values Lambda Tau n = Ok (d, e) /\
    length e = Z.to_nat n /\ nonneg e /\
    wf2 h w d /\ labels_in_range h w (Z.to_nat num_disp_values) d /\
    exists st st',
      for_range (Z.to_nat n - 1) (bp_iteration dataCost Lambda)
        (initial_state h w (Z.to_nat num_disp_values) (Z.to_nat n)) = Ok st /\
      bp_iteration dataCost Lambda (Z.to_nat n - 1) st = Ok st' /\
      st_disparity st' = Some d /\ st_energy st' = e.
Proof.
  apply stereo_bp_global_labels.
Qed.

Lemma stereo_bp_sixteen_labels_run_witness :
  exists dataCost d e,
    compute_data_cost flat15 flat15 num_disp_values 15 = Ok dataCost /\
    stereo_bp flat15 flat15 num_disp_values 10 15 1 = Ok (d, e) /\
    length e = Z.to_nat 1 /\ nonneg e /\
    wf2 1 15 d /\ labels_in_range 1 15 (Z.to_nat num_disp_values) d /\
    exists st st',
      for_range (Z.to_nat 1 - 1) (bp_iteration dataCost 10)
        (initial_state 1 15 (Z.to_nat num_disp_values) (Z.to_nat 1)) = Ok st /\
      bp_iteration dataCost 10 (Z.to_nat 1 - 1) st = Ok st' /\
      st_disparity st' = Some d /\ st_energy st' = e.
Proof.
  apply (@stereo_bp_sixteen_labels_run flat15 flat15 1 15 1 10 15 1).
  - split; [reflexivity | repeat constructor].
  - split; [reflexivity | repeat constructor].
  - lia.
  - vm_compute. discriminate.
  - discriminate.
  - discriminate.
  - lia.
Defined.

(** X6. On two images of one pixel [stereo_bp] never returns a result,
    whatever the number of labels: below [num_disp_values] labels
    [update_msg] fails, from three labels on [compute_data_cost] reads a
    column that the image does not have. *)
Theorem stereo_bp_single_pixel_raises (I1 I2 : image) (c1 c2 : nat)
  (labels : Z) (Lambda Tau : Q) (num_iterations : Z) :
  wf3 1 1 c1 I1 -> wf3 1 1 c2 I2 ->
  raises (stereo_bp I1 I2 labels Lambda Tau num_iterations).
Proof.
  apply stereo_bp_one_pixel_raises.
Qed.

Lemma stereo_bp_single_pixel_raises_witness :
  raises (stereo_bp [[[1; 2; 3]]] [[[1; 2; 3]]] 16 10 15 60).
Proof.
  apply (@stereo_bp_single_pixel_raises [[[1; 2; 3]]] [[[1; 2; 3]]] 3 3
           16 10 15 60).
  - split; [reflexivity | repeat constructor].
  - split; [reflexivity | repeat constructor].
Defined.

(** ** [compute_energy] *)

(** X7. On a cost volume without negative entry, a disparity map of the same
    height and width with labels in range and [Lambda >= 0],
    [compute_energy] returns an energy that is not negative. *)
Theorem compute_energy_not_negative (h w L : nat) (dataCost : volume)
  (d : list (list Z)) (Lambda : Q) :
  (0 < h)%nat -> (0 < w)%nat ->
  wf3 h w L dataCost -> nonneg3 dataCost ->
  wf2 h w d -> labels_in_range h w L d -> 0 <= Lambda ->
  exists e, compute_energy dataCost d Lambda = Ok e /\ 0 <= e.
Proof.
  apply compute_energy_nonneg.
Qed.

Lemma compute_energy_not_negative_witness :
  exists e, compute_energy [[[1; 2]; [3; 4]]] [[0; 1]]%Z 10 = Ok e /\ 0 <= e.
Proof.
  apply (@compute_energy_not_negative 1 2 2 [[[1; 2]; [3; 4]]] [[0; 1]]%Z 10).
  - lia.
  - lia.
  - split; [reflexivity | repeat constructor].
  - repeat constructor; discriminate.
  - split; [reflexivity | repeat constructor].
  - intros y x Hy Hx.
    destruct y as [|y]; [|lia]. destruct x as [|[|x]]; [| |lia];
      unfold get2; simpl; lia.
  - discriminate.
Defined.

(** ** [compute_data_cost] *)

Lemma mapM_raises_uniform {A B : Type} (f : A -> result B) (l : list A)
  (e : exn) (a : A) :
  (forall c, In c l -> f c = Raise e \/ exists b, f c = Ok b) ->
  In a l -> f a = Raise e -> mapM f l = Raise e.
Proof.
  induction l as [|c t IH]; intros Hall Hin Ha; [contradiction|].
  simpl. destruct (Hall c (or_introl eq_refl)) as [Hc|[b Hc]]; rewrite Hc;
    [reflexivity|]. cbn [bind].
  destruct Hin as [->|Hin]; [congruence|].
  rewrite IH; auto. intros c' Hc'. apply Hall. now right.
Qed.

Lemma getitem_cases {A : Type} (l : list A) (i : Z) :
  getitem l i = Raise IndexError \/ exists a, getitem l i = Ok a /\ In a l.
Proof.
  unfold getitem. destruct (py_index (length l) i) as [k|e] eqn:Hk.
  - cbn [bind]. destruct (nth_error l k) as [a|] eqn:Ha.
    + right. exists a. split; [reflexivity|]. eapply nth_error_In, Ha.
    + now left.
  - left. unfold py_index in Hk.
    destruct ((0 <=? i)%Z && (i <? Z.of_nat (length l))%Z); [discriminate|].
    destruct ((- Z.of_nat (length l) <=? i)%Z && (i <? 0)%Z); [discriminate|].
    inversion Hk. reflexivity.
Qed.

Lemma matching_cost_le_Tau (I1 I2 : image) (c : nat) (Tau : Q) (y x x2 : nat) :
  matching_cost I1 I2 c Tau y x x2 <= Tau.
Proof.
  unfold matching_cost. apply Q.le_min_r.
Qed.

Lemma vsum_Qabs_nonneg {A : Type} (f : A -> Q) (l : list A) :
  0 <= vsum (map (fun k => Qabs (f k)) l).
Proof.
  apply vsum_nonneg. unfold nonneg.
  induction l; simpl; constructor; [apply Qabs_nonneg | assumption].
Qed.

Lemma matching_cost_nonneg (I1 I2 : image) (c : nat) (Tau : Q) (y x x2 : nat) :
  0 <= Tau -> 0 <= matching_cost I1 I2 c Tau y x x2.
Proof.
  intros HTau. unfold matching_cost. apply Q.min_glb; [|assumption].
  pose proof (vsum_Qabs_nonneg
                (fun k => get3 I1 y x k - get3 I2 y x2 k) (seq 0 c)) as H.
  cbv beta in H. lra.
Qed.

(** X8. For two images of one shape, at most [w + 1] labels and [Tau >= 0],
    [compute_data_cost] returns a volume of shape (h, w, L) whose entries
    all lie between 0 and [Tau]. *)
Theorem compute_data_cost_range (I1 I2 : image) (h w c : nat) (L : Z)
  (Tau : Q) :
  wf3 h w c I1 -> wf3 h w c I2 -> (0 <= L <= Z.of_nat w + 1)%Z ->
  0 <= Tau ->
  exists dataCost,
    compute_data_cost I1 I2 L Tau = Ok dataCost /\
    wf3 h w (Z.to_nat L) dataCost /\
    forall y x l, (y < h)%nat -> (x < w)%nat -> (l < Z.to_nat L)%nat ->
      0 <= get3 dataCost y x l <= Tau.
Proof.
  intros W1 W2 HL HTau.
  destruct (@compute_data_cost_cells I1 I2 h w c L Tau W1 W2 HL)
    as [dataCost [E [W G]]].
  exists dataCost. split; [exact E|]. split; [exact W|].
  intros y x l Hy Hx Hl. rewrite (G y x l Hy Hx Hl). split.
  - now apply matching_cost_nonneg.
  - apply matching_cost_le_Tau.
Qed.

Lemma compute_data_cost_range_witness :
  exists dataCost,
    compute_data_cost [[[1]; [4]]] [[[2]; [60]]] 3 15 = Ok dataCost /\
    wf3 1 2 (Z.to_nat 3) dataCost /\
    forall y x l, (y < 1)%nat -> (x < 2)%nat -> (l < Z.to_nat 3)%nat ->
      0 <= get3 dataCost y x l <= 15.
Proof.
  apply (@compute_data_cost_range [[[1]; [4]]] [[[2]; [60]]] 1 2 1 3 15).
  - split; [reflexivity | repeat constructor].
  - split; [reflexivity | repeat constructor].
  - lia.
  - discriminate.
Defined.

Lemma cost_cell_cases (I1 I2 : image) (h w c : nat) (Tau : Q) (y x l : nat) :
  wf3 h w c I1 -> wf3 h w c I2 -> (y < h)%nat -> (x < w)%nat ->
  let cell :=
    (p1 <- getitem2 I1 (Z.of_nat y) (Z.of_nat x) ;;
     p2 <- getitem2 I2 (Z.of_nat y) (Z.of_nat x - Z.of_nat l) ;;
     d <- vsub p1 p2 ;;
     Ok (Qmin ((1 # 3) * norm1 d) Tau)) in
  (cell = Raise IndexError \/ exists q, cell = Ok q) /\
  ((x + w < l)%nat -> cell = Raise IndexError).
Proof.
  intros W1 W2 Hy Hx.
  assert (H1 : length I1 = h) by apply W1.
  assert (H2 : length I2 = h) by apply W2.
  unfold getitem2.
  rewrite (@getitem_nat _ I1 y []) by lia. cbn [bind].
  rewrite (@getitem_nat _ (nth y I1 []) x [])
    by (rewrite (wf3_row W1); lia). cbn [bind].
  rewrite (@getitem_nat _ I2 y []) by lia. cbn [bind].
  split.
  - destruct (getitem_cases (nth y I2 []) (Z.of_nat x - Z.of_nat l))
      as [Hr|[p2 [Hp2 Hin]]]; rewrite ?Hr, ?Hp2; cbn [bind]; [now left|].
    right. unfold vsub.
    assert (Hc : length p2 = c).
    { destruct W2 as [_ Hf]. rewrite Forall_forall in Hf.
      destruct (Hf (nth y I2 [])) as [_ Hv]; [apply nth_In; lia|].
      rewrite Forall_forall in Hv. now apply Hv. }
    rewrite (wf3_pixel (y:=y) (x:=x) W1), Hc by lia.
    rewrite Nat.eqb_refl. cbn [bind]. eexists. reflexivity.
  - intros Hl. unfold getitem at 1.
    rewrite py_index_out by (rewrite (wf3_row W2); lia). reflexivity.
Qed.

(** X9. For two images of one shape with at least one pixel and more than
    [w + 1] labels, [compute_data_cost] raises [IndexError]: the label
    [w + 1] reads column [-(w + 1)] of an image of [w] columns. *)
Theorem compute_data_cost_too_many_labels (I1 I2 : image) (h w c : nat)
  (L : Z) (Tau : Q) :
  wf3 h w c I1 -> wf3 h w c I2 -> (0 < h)%nat -> (0 < w)%nat ->
  (Z.of_nat w + 1 < L)%Z ->
  compute_data_cost I1 I2 L Tau = Raise IndexError.
Proof.
  intros W1 W2 Hh Hw HL.
  unfold compute_data_cost. rewrite (wf3_shape W1 Hh Hw).
  unfold np_zeros3. destruct (Z.ltb_spec L 0); [lia|]. cbn [bind].
  destruct h as [|h']; [lia|]. destruct w as [|w']; [lia|].
  cbn [seq mapM].
  rewrite (@mapM_raises_uniform _ _ _ (seq 0 (Z.to_nat L)) IndexError
             (S (S w'))).
  - reflexivity.
  - intros l _.
    apply (@cost_cell_cases I1 I2 (S h') (S w') c Tau 0 0 l W1 W2); lia.
  - apply in_seq. lia.
  - apply (@cost_cell_cases I1 I2 (S h') (S w') c Tau 0 0 (S (S w')) W1 W2);
      lia.
Qed.

Lemma compute_data_cost_too_many_labels_witness :
  compute_data_cost [[[1]; [4]]] [[[2]; [6]]] 16 15 = Raise IndexError.
Proof.
  apply (@compute_data_cost_too_many_labels [[[1]; [4]]] [[[2]; [6]]] 1 2 1
           16 15).
  - split; [reflexivity | repeat constructor].
  - split; [reflexivity | repeat constructor].
  - lia.
  - lia.
  - lia.
Defined.

Lemma vsum_zero {A : Type} (f : A -> Q) (l : list A) :
  (forall k, f k == 0) -> vsum (map f l) == 0.
Proof.
  intros Hf. induction l as [|a t IH]; simpl; [reflexivity|].
  rewrite Hf, IH. ring.
Qed.

(** X10. For an image matched against itself, with at least one and at most
    [w + 1] labels and [Tau >= 0], the cost of label 0 is zero at every
    pixel. *)
Theorem compute_data_cost_same_image (I : image) (h w c : nat) (L : Z)
  (Tau : Q) :
  wf3 h w c I -> (0 < L <= Z.of_nat w + 1)%Z -> 0 <= Tau ->
  exists dataCost,
    compute_data_cost I I L Tau = Ok dataCost /\
    forall y x, (y < h)%nat -> (x < w)%nat -> get3 dataCost y x 0 == 0.
Proof.
  intros W HL HTau.
  destruct (@compute_data_cost_cells I I h w c L Tau W W ltac:(lia))
    as [dataCost [E [_ G]]].
  exists dataCost. split; [exact E|].
  intros y x Hy Hx. rewrite (G y x 0%nat Hy Hx ltac:(lia)).
  change (Z.of_nat 0) with 0%Z. rewrite Z.sub_0_r, Z.mod_small by lia.
  rewrite Nat2Z.id. unfold matching_cost.
  rewrite (@vsum_zero _ (fun k => Qabs (get3 I y x k - get3 I y x k))).
  - rewrite Qmult_0_r. now apply Q.min_l.
  - intros k. setoid_replace (get3 I y x k - get3 I y x k) with 0 by ring.
    reflexivity.
Qed.

Lemma compute_data_cost_same_image_witness :
  exists dataCost,
    compute_data_cost [[[1]; [4]]] [[[1]; [4]]] 3 15 = Ok dataCost /\
    forall y x, (y < 1)%nat -> (x < 2)%nat -> get3 dataCost y x 0 == 0.
Proof.
  apply (@compute_data_cost_same_image [[[1]; [4]]] 1 2 1 3 15).
  - split; [reflexivity | repeat constructor].
  - lia.
  - discriminate.
Defined.

(** ** [MAP_labeling] *)

(** X13. On a belief field with pixels and an empty label axis,
    [MAP_labeling] raises the [ValueError] of [np.argmin]. *)
Theorem MAP_labeling_no_label (beliefs : volume) (h w : nat) :
  wf3 h w 0 beliefs -> (0 < h)%nat -> (0 < w)%nat ->
  MAP_labeling beliefs = Raise ValueError.
Proof.
  intros Hwf Hh Hw.
  pose proof (wf3_row (y:=0%nat) Hwf Hh) as H1.
  pose proof (wf3_pixel (y:=0%nat) (x:=0%nat) Hwf Hh Hw) as H2.
  destruct Hwf as [H0 _].
  destruct beliefs as [|r a]; simpl in *; [lia|].
  destruct r as [|v r]; simpl in *; [lia|].
  destruct v; simpl in *; [reflexivity | lia].
Qed.

Lemma MAP_labeling_no_label_witness :
  MAP_labeling [[[]; []]; [[]; []]] = Raise ValueError.
Proof.
  apply (@MAP_labeling_no_label [[[]; []]; [[]; []]] 2 2).
  - split; [reflexivity | repeat constructor].
  - lia.
  - lia.
Defined.

(** ** [compute_energy]: the pixels it counts *)

Lemma wf2_tabulate {A : Type} (h w : nat) (a : list (list A)) (d : A)
  (g : nat -> nat -> A) :
  wf2 h w a ->
  (forall y x, (y < h)%nat -> (x < w)%nat -> get2 d a y x = g y x) ->
  a = map (fun y => map (fun x => g y x) (seq 0 w)) (seq 0 h).
Proof.
  intros Hwf Hg. assert (Hh : length a = h) by apply Hwf.
  apply (nth_ext _ _ [] []).
  - now rewrite length_map, length_seq.
  - intros y Hy. rewrite Hh in Hy. rewrite nth_map_seq by assumption.
    apply (nth_ext _ _ d d).
    + rewrite length_map, length_seq. now apply (wf2_row Hwf).
    + intros x Hx. rewrite (wf2_row Hwf) in Hx by assumption.
      rewrite nth_map_seq by assumption. now apply Hg.
Qed.

Lemma np_sum_tabulate (h w : nat) (g : nat -> nat -> Q) :
  np_sum (map (fun y => map (fun x => g y x) (seq 0 w)) (seq 0 h)) =
  vsum (map (fun y => vsum (map (fun x => g y x) (seq 0 w))) (seq 0 h)).
Proof.
  unfold np_sum. now rewrite map_map.
Qed.

Lemma count_true_row {A : Type} (g : A -> bool) (l : list A) :
  Z.of_nat (length (filter (fun c => c) (map g l))) =
  fold_right Z.add 0%Z (map (fun x => if g x then 1%Z else 0%Z) l).
Proof.
  induction l as [|a t IH]; [reflexivity|].
  cbn [map filter fold_right]. destruct (g a); cbn [length];
    rewrite ?Nat2Z.inj_succ; lia.
Qed.

Lemma count_true_tabulate (h w : nat) (g : nat -> nat -> bool) :
  count_true (map (fun y => map (fun x => g y x) (seq 0 w)) (seq 0 h)) =
  count_pixels h w g.
Proof.
  unfold count_true, count_pixels.
  induction (seq 0 h) as [|y t IH]; [reflexivity|].
  cbn [map concat fold_right].
  rewrite filter_app, length_app, Nat2Z.inj_add, IH.
  now rewrite count_true_row.
Qed.

Lemma get2_map {A B : Type} (f : A -> B) (h w : nat) (a : list (list A))
  (da : A) (db : B) y x :
  wf2 h w a -> (y < h)%nat -> (x < w)%nat ->
  get2 db (map (map f) a) y x = f (get2 da a y x).
Proof.
  intros Hwf Hy Hx. unfold get2.
  rewrite (@nth_map_in _ _ _ a y [] []) by (destruct Hwf; lia).
  apply nth_map_in. rewrite (wf2_row Hwf) by assumption. assumption.
Qed.

Lemma wf2_map2 {A B C : Type} (f : A -> B -> C) (h w : nat)
  (a : list (list A)) (b : list (list B)) :
  wf2 h w a -> wf2 h w b -> wf2 h w (map2 (map2 f) a b).
Proof.
  intros Ha Hb.
  assert (Hla : length a = h) by apply Ha.
  assert (Hlb : length b = h) by apply Hb.
  apply wf2_intro.
  - rewrite length_map2. lia.
  - intros y Hy. rewrite (@nth_map2 _ _ _ _ a b y [] [] []) by lia.
    rewrite length_map2, (wf2_row Ha), (wf2_row Hb) by assumption. lia.
Qed.

Lemma get2_map2 {A B C : Type} (f : A -> B -> C) (h w : nat)
  (a : list (list A)) (b : list (list B)) (da : A) (db : B) (dc : C) y x :
  wf2 h w a -> wf2 h w b -> (y < h)%nat -> (x < w)%nat ->
  get2 dc (map2 (map2 f) a b) y x = f (get2 da a y x) (get2 db b y x).
Proof.
  intros Ha Hb Hy Hx.
  assert (Hla : length a = h) by apply Ha.
  assert (Hlb : length b = h) by apply Hb.
  pose proof (wf2_row Ha Hy) as Hra. pose proof (wf2_row Hb Hy) as Hrb.
  unfold get2.
  rewrite (@nth_map2 _ _ _ _ a b y [] [] []) by lia.
  rewrite (@nth_map2 _ _ _ f (nth y a []) (nth y b []) x da db dc) by lia.
  reflexivity.
Qed.

Lemma get2_roll_back_axis0 {A : Type} (h w : nat) (a : list (list A)) (d : A)
  y x :
  wf2 h w a -> (y < h)%nat ->
  get2 d (np_roll a (-1) 0) y x = get2 d a (cyc_succ h y) x.
Proof.
  intros [Hh _] Hy. unfold get2, cyc_succ. simpl np_roll.
  rewrite nth_roll_back by lia. now rewrite Hh.
Qed.

Lemma get2_roll_forth_axis0 {A : Type} (h w : nat) (a : list (list A)) (d : A)
  y x :
  wf2 h w a -> (y < h)%nat ->
  get2 d (np_roll a 1 0) y x = get2 d a (cyc_pred h y) x.
Proof.
  intros [Hh _] Hy. unfold get2, cyc_pred. simpl np_roll.
  rewrite nth_roll_forth by lia. now rewrite Hh.
Qed.

Lemma get2_roll_back_axis1 {A : Type} (h w : nat) (a : list (list A)) (d : A)
  y x :
  wf2 h w a -> (y < h)%nat -> (x < w)%nat ->
  get2 d (np_roll a (-1) 1) y x = get2 d a y (cyc_succ w x).
Proof.
  intros Hwf Hy Hx. unfold get2, cyc_succ. simpl np_roll.
  rewrite (@nth_map_in _ _ _ a y [] []) by (destruct Hwf; lia).
  rewrite nth_roll_back by (rewrite (wf2_row Hwf); lia).
  now rewrite (wf2_row Hwf).
Qed.

Lemma get2_roll_forth_axis1 {A : Type} (h w : nat) (a : list (list A)) (d : A)
  y x :
  wf2 h w a -> (y < h)%nat -> (x < w)%nat ->
  get2 d (np_roll a 1 1) y x = get2 d a y (cyc_pred w x).
Proof.
  intros Hwf Hy Hx. unfold get2, cyc_pred. simpl np_roll.
  rewrite (@nth_map_in _ _ _ a y [] []) by (destruct Hwf; lia).
  rewrite nth_roll_forth by (rewrite (wf2_row Hwf); lia).
  now rewrite (wf2_row Hwf).
Qed.

(** [a[k, :] = c] and [a[:, k] = c] *)
Lemma assign_axis0_const {A : Type} (c : A) (h w : nat) (a : list (list A))
  (k : nat) (d : A) :
  wf2 h w a -> (k < h)%nat ->
  exists b, assign_axis0 (fun _ => c) a (Z.of_nat k) = Ok b /\ wf2 h w b /\
    forall y x, (y < h)%nat -> (x < w)%nat ->
      get2 d b y x = if (y =? k)%nat then c else get2 d a y x.
Proof.
  intros Hwf Hk. assert (Hh : length a = h) by apply Hwf.
  exists (upd k (map (fun _ => c)) a). split; [|split].
  - unfold assign_axis0. rewrite py_index_mod by lia.
    rewrite Z.mod_small by lia. now rewrite Nat2Z.id.
  - apply wf2_intro; [now rewrite length_upd|].
    intros y Hy. rewrite nth_upd by lia.
    destruct (y =? k)%nat; [rewrite length_map|]; now apply (wf2_row Hwf).
  - intros y x Hy Hx. unfold get2. rewrite nth_upd by lia.
    destruct (y =? k)%nat; [|reflexivity].
    rewrite (@nth_map_in _ _ _ (nth y a []) x d d)
      by (rewrite (wf2_row Hwf); lia).
    reflexivity.
Qed.

Lemma assign_axis1_const {A : Type} (c : A) (h w : nat) (a : list (list A))
  (k : nat) (d : A) :
  wf2 h w a -> (0 < h)%nat -> (k < w)%nat ->
  exists b, assign_axis1 (fun _ => c) a (Z.of_nat k) = Ok b /\ wf2 h w b /\
    forall y x, (y < h)%nat -> (x < w)%nat ->
      get2 d b y x = if (x =? k)%nat then c else get2 d a y x.
Proof.
  intros Hwf Hh0 Hk. assert (Hh : length a = h) by apply Hwf.
  assert (Hw : length (hd [] a) = w).
  { pose proof (wf2_row (y:=0%nat) Hwf Hh0). destruct a; simpl in *; [lia|auto]. }
  exists (map (upd k (fun _ => c)) a). split; [|split].
  - unfold assign_axis1. rewrite Hw, py_index_mod by lia.
    rewrite Z.mod_small by lia. now rewrite Nat2Z.id.
  - apply wf2_intro; [now rewrite length_map|].
    intros y Hy. rewrite (@nth_map_in _ _ _ a y [] []) by lia.
    rewrite length_upd. now apply (wf2_row Hwf).
  - intros y x Hy Hx. unfold get2.
    rewrite (@nth_map_in _ _ _ a y [] []) by lia.
    rewrite nth_upd by (rewrite (wf2_row Hwf); lia).
    reflexivity.
Qed.

(** [(d - d') != 0] *)
Lemma potts_entries (h w : nat) (d d' : list (list Z)) y x :
  wf2 h w d -> wf2 h w d' -> (y < h)%nat -> (x < w)%nat ->
  get2 false (np_ne0 (np_subZ d d')) y x =
  negb (get2 0%Z d y x =? get2 0%Z d' y x)%Z.
Proof.
  intros Hd Hd' Hy Hx. unfold np_ne0, np_subZ.
  rewrite (@get2_map _ _ _ h w _ 0%Z false y x (wf2_map2 Z.sub Hd Hd') Hy Hx).
  rewrite (@get2_map2 _ _ _ Z.sub h w d d' 0%Z 0%Z 0%Z y x Hd Hd' Hy Hx).
  f_equal.
  destruct (Z.eqb_spec (get2 0%Z d y x - get2 0%Z d' y x) 0);
    destruct (Z.eqb_spec (get2 0%Z d y x) (get2 0%Z d' y x)); lia || reflexivity.
Qed.

(** [dataCost[y_values, x_values, disparity]] *)
Lemma take_along_axis2_entries (h w L : nat) (a : volume) (d : list (list Z)) :
  (0 < h)%nat -> (0 < w)%nat ->
  wf3 h w L a -> wf2 h w d -> labels_in_range h w L d ->
  exists costs, take_along_axis2 a d = Ok costs /\ wf2 h w costs /\
    forall y x, (y < h)%nat -> (x < w)%nat ->
      get2 0 costs y x = get3 a y x (Z.to_nat (get2 0%Z d y x)).
Proof.
  intros Hh Hw Ha Hd Hrange.
  assert (Hla : length a = h) by apply Ha.
  assert (Hld : length d = h) by apply Hd.
  set (g := fun p : list (list Q) * list Z =>
              map (fun q : list Q * Z => nth (Z.to_nat (snd q)) (fst q) 0)
                  (combine (fst p) (snd p))).
  exists (map g (combine a d)). split; [|split].
  - unfold take_along_axis2.
    rewrite (wf3_shape Ha Hh Hw), (wf2_shape Hd Hh).
    unfold shape2_eqb. simpl. rewrite !Nat.eqb_refl. simpl.
    apply mapM_map. intros p Hp.
    destruct (@In_combine_nth _ _ a d p [] [] Hp) as [y [Hy [_ ->]]].
    rewrite Hla in Hy. unfold g. simpl fst. simpl snd.
    apply mapM_map. intros q Hq.
    destruct (@In_combine_nth _ _ _ _ q [] 0%Z Hq) as [x [Hx [_ ->]]].
    rewrite (wf3_row Ha Hy) in Hx. simpl fst. simpl snd.
    pose proof (wf3_pixel Ha Hy Hx) as HL.
    pose proof (Hrange y x Hy Hx) as Hk. unfold get2 in Hk.
    rewrite (@getitem_mod _ _ _ 0) by lia.
    rewrite Z.mod_small by lia. reflexivity.
  - apply wf2_intro.
    + rewrite length_map, length_combine. lia.
    + intros y Hy.
      rewrite (@nth_map_in _ _ g (combine a d) y ([], []) [])
        by (rewrite length_combine; lia).
      rewrite combine_nth by lia. unfold g. simpl fst. simpl snd.
      rewrite length_map, length_combine, (wf3_row Ha Hy), (wf2_row Hd Hy).
      lia.
  - intros y x Hy Hx. unfold get2, get3.
    rewrite (@nth_map_in _ _ g (combine a d) y ([], []) [])
      by (rewrite length_combine; lia).
    rewrite combine_nth by lia. unfold g. simpl fst. simpl snd.
    rewrite (@nth_map_in _ _ _ (combine (nth y a []) (nth y d [])) x
               ([], 0%Z) 0)
      by (rewrite length_combine, (wf3_row Ha Hy), (wf2_row Hd Hy); lia).
    rewrite combine_nth by (rewrite (wf3_row Ha Hy), (wf2_row Hd Hy); reflexivity).
    reflexivity.
Qed.

(** The energy [compute_energy] returns: the costs of the labels plus
    [Lambda] for every marked pixel. *)
Lemma compute_energy_formula (h w L : nat) (dataCost : volume)
  (d : list (list Z)) (Lambda : Q) :
  (0 < h)%nat -> (0 < w)%nat ->
  wf3 h w L dataCost -> wf2 h w d -> labels_in_range h w L d ->
  compute_energy dataCost d Lambda =
  Ok (data_term h w dataCost d + Lambda * inject_Z (marked_pixels h w d)).
Proof.
  intros Hh Hw Hcost Hd Hrange.
  destruct (take_along_axis2_entries Hh Hw Hcost Hd Hrange)
    as [costs [Ec [Wc Gc]]].
  pose proof (wf2_potts Hd (wf2_roll_axis0 (-1) Hd)) as WU0.
  pose proof (wf2_potts Hd (wf2_roll_axis0 1 Hd)) as WD0.
  pose proof (wf2_potts Hd (wf2_roll_axis1 (-1) Hd)) as WL0.
  pose proof (wf2_potts Hd (wf2_roll_axis1 1 Hd)) as WR0.
  destruct (@assign_axis0_const _ false h w _ 0 false WU0 Hh)
    as [pU [EU [WU GU]]].
  destruct (@assign_axis0_const _ false h w _ (h - 1) false WD0 ltac:(lia))
    as [pD [ED [WD GD]]].
  destruct (@assign_axis1_const _ false h w _ 0 false WL0 Hh Hw)
    as [pL [EL [WL GL]]].
  destruct (@assign_axis1_const _ false h w _ (w - 1) false WR0 Hh ltac:(lia))
    as [pR [ER [WR GR]]].
  replace (Z.of_nat (h - 1)) with (Z.of_nat h - 1)%Z in ED by lia.
  replace (Z.of_nat (w - 1)) with (Z.of_nat w - 1)%Z in ER by lia.
  change (Z.of_nat 0) with 0%Z in EU, EL.
  unfold compute_energy. rewrite (wf3_shape Hcost Hh Hw).
  step Ec. step EU. step ED. step EL. step ER.
  assert (Ecosts : costs =
            map (fun y => map (fun x =>
                   get3 dataCost y x (Z.to_nat (get2 0%Z d y x))) (seq 0 w))
                (seq 0 h)) by (apply (@wf2_tabulate _ h w costs 0 _ Wc); exact Gc).
  pose proof (wf2_map2 orb WU WD) as WUD.
  pose proof (wf2_map2 orb WUD WL) as WUDL.
  pose proof (wf2_map2 orb WUDL WR) as Wp.
  assert (Epotts :
            np_add_bool (np_add_bool (np_add_bool pU pD) pL) pR =
            map (fun y => map (fun x => marked h w d y x) (seq 0 w))
                (seq 0 h)).
  { apply (@wf2_tabulate _ h w _ false _ Wp). intros y x Hy Hx. unfold np_add_bool.
    rewrite (@get2_map2 _ _ _ orb h w _ pR false false false y x WUDL WR Hy Hx).
    rewrite (@get2_map2 _ _ _ orb h w _ pL false false false y x WUD WL Hy Hx).
    rewrite (@get2_map2 _ _ _ orb h w pU pD false false false y x WU WD Hy Hx).
    rewrite (GU y x Hy Hx), (GD y x Hy Hx), (GL y x Hy Hx), (GR y x Hy Hx).
    rewrite (potts_entries Hd (wf2_roll_axis0 (-1) Hd) Hy Hx),
      (potts_entries Hd (wf2_roll_axis0 1 Hd) Hy Hx),
      (potts_entries Hd (wf2_roll_axis1 (-1) Hd) Hy Hx),
      (potts_entries Hd (wf2_roll_axis1 1 Hd) Hy Hx).
    rewrite (get2_roll_back_axis0 0%Z x Hd Hy),
      (get2_roll_forth_axis0 0%Z x Hd Hy),
      (get2_roll_back_axis1 0%Z Hd Hy Hx),
      (get2_roll_forth_axis1 0%Z Hd Hy Hx).
    unfold marked.
    replace (y =? h - 1)%nat with (S y =? h)%nat
      by (destruct (Nat.eqb_spec (S y) h), (Nat.eqb_spec y (h - 1));
          lia || reflexivity).
    replace (x =? w - 1)%nat with (S x =? w)%nat
      by (destruct (Nat.eqb_spec (S x) w), (Nat.eqb_spec x (w - 1));
          lia || reflexivity).
    destruct (y =? 0)%nat, (S y =? h)%nat, (x =? 0)%nat, (S x =? w)%nat;
      reflexivity. }
  rewrite Epotts, count_true_tabulate. rewrite Ecosts, np_sum_tabulate.
  reflexivity.
Qed.

(** X14. On a cost volume and a disparity map of one height and width with
    labels in range, [compute_energy] returns the sum of the costs of the
    chosen labels plus [Lambda] times the number of marked pixels: a pixel
    counts once, however many of its neighbours differ, and the comparisons
    go to the cyclic next row outside row 0, to the cyclic previous row
    outside the last row, and likewise along the columns. *)
Theorem compute_energy_counts_marked_pixels (h w L : nat) (dataCost : volume)
  (d : list (list Z)) (Lambda : Q) :
  (0 < h)%nat -> (0 < w)%nat ->
  wf3 h w L dataCost -> wf2 h w d -> labels_in_range h w L d ->
  compute_energy dataCost d Lambda =
  Ok (data_term h w dataCost d + Lambda * inject_Z (marked_pixels h w d)).
Proof.
  apply compute_energy_formula.
Qed.

Lemma compute_energy_counts_marked_pixels_witness :
  compute_energy [[[1; 2]; [3; 4]]; [[5; 6]; [7; 8]]] [[0; 1]; [1; 1]]%Z 10 =
  Ok (data_term 2 2 [[[1; 2]; [3; 4]]; [[5; 6]; [7; 8]]] [[0; 1]; [1; 1]]%Z
      + 10 * inject_Z (marked_pixels 2 2 [[0; 1]; [1; 1]]%Z)).
Proof.
  apply (@compute_energy_counts_marked_pixels 2 2 2).
  - lia.
  - lia.
  - split; [reflexivity | repeat constructor].
  - split; [reflexivity | repeat constructor].
  - intros [|[|y]] [|[|x]] Hy Hx; try lia; unfold get2; simpl; lia.
Defined.

Lemma count_pixels_none (h w : nat) (p : nat -> nat -> bool) :
  (forall y x, (y < h)%nat -> (x < w)%nat -> p y x = false) ->
  count_pixels h w p = 0%Z.
Proof.
  intros Hp. unfold count_pixels.
  assert (Hrow : forall y, (y < h)%nat ->
            fold_right Z.add 0%Z
              (map (fun x => if p y x then 1%Z else 0%Z) (seq 0 w)) = 0%Z).
  { intros y Hy.
    assert (Hx : forall x, In x (seq 0 w) -> (x < w)%nat)
      by (intros x Hx; apply in_seq in Hx; lia).
    induction (seq 0 w) as [|x t IH]; [reflexivity|].
    cbn [map fold_right]. rewrite (Hp y x Hy) by (apply Hx; now left).
    rewrite IH by (intros; apply Hx; now right). reflexivity. }
  assert (Hy : forall y, In y (seq 0 h) -> (y < h)%nat)
    by (intros y Hy; apply in_seq in Hy; lia).
  induction (seq 0 h) as [|y t IH]; [reflexivity|].
  cbn [map fold_right]. rewrite Hrow by (apply Hy; now left).
  rewrite IH by (intros; apply Hy; now right). reflexivity.
Qed.

Lemma cyc_succ_lt (n i : nat) : (i < n)%nat -> (cyc_succ n i < n)%nat.
Proof.
  unfold cyc_succ. destruct (Nat.eqb_spec (S i) n); lia.
Qed.

Lemma cyc_pred_lt (n i : nat) : (i < n)%nat -> (cyc_pred n i < n)%nat.
Proof.
  unfold cyc_pred. destruct (Nat.eqb_spec i 0); lia.
Qed.

(** X15. On a disparity map that gives every pixel the same label [k], the
    energy [compute_energy] returns is the sum over the pixels of the cost
    of [k]: nothing is added for the smoothness. *)
Theorem compute_energy_constant_map (h w L : nat) (dataCost : volume)
  (d : list (list Z)) (k : nat) (Lambda : Q) :
  (0 < h)%nat -> (0 < w)%nat -> (k < L)%nat ->
  wf3 h w L dataCost -> wf2 h w d ->
  (forall y x, (y < h)%nat -> (x < w)%nat -> get2 0%Z d y x = Z.of_nat k) ->
  exists e, compute_energy dataCost d Lambda = Ok e /\
    e == vsum (map (fun y => vsum (map (fun x => get3 dataCost y x k)
                                       (seq 0 w)))
                   (seq 0 h)).
Proof.
  intros Hh Hw Hk Hcost Hd Hconst.
  assert (Hrange : labels_in_range h w L d).
  { intros y x Hy Hx. rewrite (Hconst y x Hy Hx). lia. }
  eexists. split; [apply (compute_energy_formula Lambda Hh Hw Hcost Hd Hrange)|].
  unfold marked_pixels. rewrite count_pixels_none.
  - assert (Hdata : data_term h w dataCost d =
              vsum (map (fun y => vsum (map (fun x => get3 dataCost y x k)
                                            (seq 0 w))) (seq 0 h))).
    { unfold data_term. f_equal. apply map_ext_in. intros y Hy.
      apply in_seq in Hy. f_equal. apply map_ext_in. intros x Hx.
      apply in_seq in Hx. rewrite Hconst by lia. now rewrite Nat2Z.id. }
    rewrite Hdata. unfold inject_Z. ring.
  - intros y x Hy Hx. unfold marked.
    rewrite !Hconst by
      (try assumption; first [now apply cyc_succ_lt | now apply cyc_pred_lt]).
    rewrite Z.eqb_refl. cbn [negb]. now rewrite !andb_false_r.
Qed.

Lemma compute_energy_constant_map_witness :
  exists e,
    compute_energy [[[1; 2]; [3; 4]]; [[5; 6]; [7; 8]]] [[1; 1]; [1; 1]]%Z 10
    = Ok e /\
    e == vsum (map (fun y =>
                 vsum (map (fun x =>
                         get3 [[[1; 2]; [3; 4]]; [[5; 6]; [7; 8]]] y x 1)
                       (seq 0 2)))
               (seq 0 2)).
Proof.
  apply (@compute_energy_constant_map 2 2 2 _ [[1; 1]; [1; 1]]%Z 1 10).
  - lia.
  - lia.
  - lia.
  - split; [reflexivity | repeat constructor].
  - split; [reflexivity | repeat constructor].
  - intros [|[|y]] [|[|x]] Hy Hx; try lia; reflexivity.
Defined.

Lemma mapM_cases {A B : Type} (f : A -> result B) (l : list A) (e : exn) :
  (forall c, In c l -> f c = Raise e \/ exists b, f c = Ok b) ->
  mapM f l = Raise e \/ exists bs, mapM f l = Ok bs.
Proof.
  induction l as [|c t IH]; intros Hall; [right; now exists []|].
  simpl. destruct (Hall c (or_introl eq_refl)) as [Hc|[b Hc]]; rewrite Hc;
    [now left|]. cbn [bind].
  destruct IH as [Ht|[bs Ht]]; [intros c' Hc'; apply Hall; now right| |];
    rewrite Ht; [now left|]. right. now eexists.
Qed.

(** X16. On a cost volume and a disparity map of one height and width, a
    label outside [-L, L) at some pixel makes [compute_energy] raise the
    [IndexError] of the lookup of the costs. *)
Theorem compute_energy_label_out_of_range (h w L : nat) (dataCost : volume)
  (d : list (list Z)) (Lambda : Q) (y x : nat) :
  wf3 h w L dataCost -> wf2 h w d -> (y < h)%nat -> (x < w)%nat ->
  (get2 0 d y x < - Z.of_nat L \/ Z.of_nat L <= get2 0 d y x)%Z ->
  compute_energy dataCost d Lambda = Raise IndexError.
Proof.
  intros Hcost Hd Hy Hx Hout.
  assert (Hh : (0 < h)%nat) by lia. assert (Hw : (0 < w)%nat) by lia.
  assert (Hla : length dataCost = h) by apply Hcost.
  assert (Hld : length d = h) by apply Hd.
  unfold compute_energy. rewrite (wf3_shape Hcost Hh Hw).
  assert (Et : take_along_axis2 dataCost d = Raise IndexError).
  { unfold take_along_axis2.
    rewrite (wf3_shape Hcost Hh Hw), (wf2_shape Hd Hh).
    unfold shape2_eqb. simpl. rewrite !Nat.eqb_refl. simpl.
    assert (Hcell : forall q : list Q * Z,
              getitem (fst q) (snd q) = Raise IndexError \/
              exists b, getitem (fst q) (snd q) = Ok b).
    { intros q. destruct (getitem_cases (fst q) (snd q)) as [H|[b [H _]]];
        [now left | right; now exists b]. }
    apply (@mapM_raises_uniform _ _ _ (combine dataCost d) IndexError
             (nth y dataCost [], nth y d [])).
    - intros p _. apply mapM_cases. intros q _. apply Hcell.
    - rewrite <- (@combine_nth _ _ dataCost d y [] []) by lia.
      apply nth_In. rewrite length_combine. lia.
    - simpl fst. simpl snd.
      apply (@mapM_raises_uniform _ _ _ _ IndexError
               (nth x (nth y dataCost []) [], nth x (nth y d []) 0%Z)).
      + intros q _. apply Hcell.
      + rewrite <- (@combine_nth _ _ (nth y dataCost []) (nth y d []) x [] 0%Z)
          by (rewrite (wf3_row Hcost Hy), (wf2_row Hd Hy); reflexivity).
        apply nth_In.
        rewrite length_combine, (wf3_row Hcost Hy), (wf2_row Hd Hy). lia.
      + simpl fst. simpl snd. unfold getitem.
        rewrite py_index_out; [reflexivity|].
        rewrite (wf3_pixel Hcost Hy Hx). exact Hout. }
  rewrite Et. reflexivity.
Qed.

Lemma compute_energy_label_out_of_range_witness :
  compute_energy [[[1; 2]; [3; 4]]] [[0; 2]]%Z 10 = Raise IndexError.
Proof.
  apply (@compute_energy_label_out_of_range 1 2 2 _ [[0; 2]]%Z 10 0 1).
  - split; [reflexivity | repeat constructor].
  - split; [reflexivity | repeat constructor].
  - lia.
  - lia.
  - right. unfold get2. simpl. lia.
Defined.

(** ** [stereo_bp] without iteration *)

(** X18. When the data cost can be computed (images of one shape, between 0
    and [w + 1] labels), [stereo_bp] with no iteration raises
    [UnboundLocalError], [disparity] never being assigned, and with a
    negative number of iterations the [ValueError] of [np.zeros]. *)
Theorem stereo_bp_without_iteration (I1 I2 : image) (h w c : nat)
  (L : Z) (Lambda Tau : Q) (n : Z) :
  wf3 h w c I1 -> wf3 h w c I2 -> (0 <= L <= Z.of_nat w + 1)%Z ->
  (n <= 0)%Z ->
  stereo_bp I1 I2 L Lambda Tau n =
  Raise (if (n <? 0)%Z then ValueError else UnboundLocalError).
Proof.
  intros W1 W2 HL Hn.
  destruct (@compute_data_cost_cells I1 I2 h w c L Tau W1 W2 HL)
    as [dataCost [Ecost _]].
  unfold stereo_bp. step Ecost. unfold np_zeros1.
  destruct (Z.ltb_spec n 0) as [Hneg|Hzero]; [reflexivity|].
  cbn [bind]. destruct (shape3 I1) as [[h' w'] c'].
  unfold np_zeros3. destruct (Z.ltb_spec L 0); [lia|]. cbn [bind].
  replace n with 0%Z by lia. reflexivity.
Qed.

Lemma stereo_bp_without_iteration_witness :
  stereo_bp flat15 flat15 16 10 15 0 =
  Raise (if (0 <? 0)%Z then ValueError else UnboundLocalError).
Proof.
  apply (@stereo_bp_without_iteration flat15 flat15 1 15 1 16 10 15 0).
  - split; [reflexivity | repeat constructor].
  - split; [reflexivity | repeat constructor].
  - lia.
  - lia.
Defined.

(** ** A pair of images of one pixel *)

(** C5 on the code.  For a pair of images of one pixel and two labels the
    cost volume is built, both labels costing the same (label 1 reads
    column -1, the same pixel); the first call of [update_msg] then raises
    [IndexError], its loop running over the sixteen labels of the global
    [num_disp_values], and [stereo_bp] returns no message field and no map,
    where the claim has four zero fields and the label 0.  The same happens
    with one label. *)
Theorem stereo_bp_one_pixel_pair :
  (exists c,
     compute_data_cost [[[5]]] [[[2]]] 2 15 = Ok [[[c; c]]] /\ c == 1 /\
     update_msg (zeros3 1 1 2) (zeros3 1 1 2) (zeros3 1 1 2) (zeros3 1 1 2)
                [[[c; c]]] 10 = Raise IndexError) /\
  stereo_bp [[[5]]] [[[2]]] 2 10 15 1 = Raise IndexError /\
  stereo_bp [[[5]]] [[[2]]] 1 10 15 1 = Raise IndexError.
Proof.
  split; [|split; reflexivity].
  eexists. split; [vm_compute; reflexivity|]. split; reflexivity.
Qed.

(** ** Normalising twice, in binary64 *)

(** C9, as the claim has it, fails on the numbers of the code: for the
    messages 1, 2, 4 of one pixel the mean 7/3 is rounded, the normalised
    vector has a mean that is not zero, and the second call of
    [normalize_msg] changes every entry. *)
Lemma normalize_msg_twice_binary64 :
  let m := F64.labels124 in
  let '(u1, d1, l1, r1) := F64.normalize_msg m m m m in
  let '(u2, d2, l2, r2) := F64.normalize_msg u1 d1 l1 r1 in
  (u2, d2, l2, r2) <> (u1, d1, l1, r1) /\
  PrimFloat.eqb (F64.entry u2 0 0 0) (F64.entry u1 0 0 0) = false /\
  PrimFloat.eqb (F64.entry u2 0 0 1) (F64.entry u1 0 0 1) = false /\
  PrimFloat.eqb (F64.entry u2 0 0 2) (F64.entry u1 0 0 2) = false /\
  PrimFloat.eqb (F64.mean (nth 0 (nth 0 u1 []) [])) PrimFloat.zero = false.
Proof.
  cbv zeta.
  destruct (F64.normalize_msg F64.labels124 F64.labels124 F64.labels124
              F64.labels124) as [[[u1 d1] l1] r1] eqn:E1.
  destruct (F64.normalize_msg u1 d1 l1 r1) as [[[u2 d2] l2] r2] eqn:E2.
  vm_compute in E1. injection E1 as <- <- <- <-.
  vm_compute in E2. injection E2 as <- <- <- <-.
  split; [|repeat split; vm_compute; reflexivity].
  intros H.
  assert (K : forall a b : F64.fields, a = b ->
            PrimFloat.eqb (F64.entry (fst (fst (fst a))) 0 0 0)
                          (F64.entry (fst (fst (fst b))) 0 0 0) =
            PrimFloat.eqb (F64.entry (fst (fst (fst b))) 0 0 0)
                          (F64.entry (fst (fst (fst b))) 0 0 0))
    by (intros a b ->; reflexivity).
  apply K in H. vm_compute in H. discriminate.
Qed.

(** ** What [stereo_bp] checks *)

Lemma compute_data_cost_negative_labels (I1 I2 : image) (L : Z) (Tau : Q) :
  (L < 0)%Z -> compute_data_cost I1 I2 L Tau = Raise ValueError.
Proof.
  intros HL. unfold compute_data_cost. destruct (shape3 I1) as [[h w] c].
  unfold np_zeros3. destruct (Z.ltb_spec L 0); [reflexivity | lia].
Qed.

(** The cost volume comes first: what its construction raises is what
    [stereo_bp] raises, whatever the other parameters. *)
Lemma stereo_bp_cost_raises (I1 I2 : image) (L : Z) (Lambda Tau : Q) (n : Z)
  (e : exn) :
  compute_data_cost I1 I2 L Tau = Raise e ->
  stereo_bp I1 I2 L Lambda Tau n = Raise e.
Proof.
  intros H. unfold stereo_bp. now rewrite H.
Qed.

Lemma stereo_bp_cost_built (I1 I2 : image) (L : Z) (Lambda Tau : Q) (n : Z)
  (dataCost : volume) :
  compute_data_cost I1 I2 L Tau = Ok dataCost -> (n <= 0)%Z ->
  stereo_bp I1 I2 L Lambda Tau n =
  Raise (if (n <? 0)%Z then ValueError else UnboundLocalError).
Proof.
  intros Ecost Hn.
  assert (HL : (0 <= L)%Z).
  { destruct (Z_lt_le_dec L 0) as [Hneg|]; [|assumption].
    rewrite (compute_data_cost_negative_labels I1 I2 Tau Hneg) in Ecost.
    discriminate. }
  unfold stereo_bp. step Ecost. unfold np_zeros1.
  destruct (Z.ltb_spec n 0) as [Hneg|Hzero]; [reflexivity|].
  cbn [bind]. destruct (shape3 I1) as [[h' w'] c'].
  unfold np_zeros3. destruct (Z.ltb_spec L 0); [lia|]. cbn [bind].
  replace n with 0%Z by lia. reflexivity.
Qed.

Lemma np_amin_no_label (a : volume) (h w : nat) :
  wf3 h w 0 a -> (0 < h)%nat -> (0 < w)%nat -> np_amin a = Raise ValueError.
Proof.
  intros Hwf Hh Hw.
  pose proof (wf3_row (y:=0%nat) Hwf Hh) as H1.
  pose proof (wf3_pixel (y:=0%nat) (x:=0%nat) Hwf Hh Hw) as H2.
  destruct Hwf as [H0 _].
  destruct a as [|r a]; simpl in *; [lia|].
  destruct r as [|v r]; simpl in *; [lia|].
  destruct v; simpl in *; [reflexivity | lia].
Qed.

(** Without label, on an image with a pixel, [update_msg] gets as far as
    [np.amin], which raises [ValueError] on the empty label axis. *)
Lemma update_msg_no_label (h w : nat) (prev : messages) (dataCost : volume)
  (Lambda : Q) :
  wf_messages h w 0 prev -> wf3 h w 0 dataCost ->
  (0 < h)%nat -> (0 < w)%nat ->
  update_msg (field dir_U prev) (field dir_D prev) (field dir_L prev)
             (field dir_R prev) dataCost Lambda = Raise ValueError.
Proof.
  intros Hprev Hcost Hh Hw.
  unfold update_msg. rewrite (wf3_shape Hcost Hh Hw).
  destruct (@assign_axis0_zero h w 0 _ (h - 1)
              (wf3_roll_axis0 (-1) (Hprev dir_D)) ltac:(lia))
    as [iU [EiU [WiU _]]].
  destruct (@assign_axis0_zero h w 0 _ 0
              (wf3_roll_axis0 1 (Hprev dir_U)) ltac:(lia))
    as [iD [EiD [WiD _]]].
  destruct (@assign_axis1_zero h w 0 _ (w - 1)
              (wf3_roll_axis1 (-1) (Hprev dir_R)) ltac:(lia) ltac:(lia))
    as [iL [EiL [WiL _]]].
  destruct (@assign_axis1_zero h w 0 _ 0
              (wf3_roll_axis1 1 (Hprev dir_L)) ltac:(lia) ltac:(lia))
    as [iR [EiR [WiR _]]].
  replace (Z.of_nat (h - 1)) with (Z.of_nat h - 1)%Z in EiU by lia.
  replace (Z.of_nat (w - 1)) with (Z.of_nat w - 1)%Z in EiL by lia.
  change (Z.of_nat 0) with 0%Z in EiD, EiR.
  step EiU. step EiD. step EiL. step EiR.
  destruct (@radd3_entries h w 0 Hh Hw _ _ _ _ Hcost WiD WiL WiR)
    as [AU [EAU [WAU _]]].
  destruct (@radd3_entries h w 0 Hh Hw _ _ _ _ Hcost WiU WiL WiR)
    as [AD [EAD _]].
  destruct (@radd3_entries h w 0 Hh Hw _ _ _ _ Hcost WiU WiD WiR)
    as [AL [EAL _]].
  destruct (@radd3_entries h w 0 Hh Hw _ _ _ _ Hcost WiU WiD WiL)
    as [AR [EAR _]].
  step EAU. step EAD. step EAL. step EAR.
  rewrite (np_amin_no_label WAU Hh Hw). reflexivity.
Qed.

Lemma stereo_bp_no_label (I1 I2 : image) (Lambda Tau : Q) (n : Z) :
  (0 < n)%Z -> (0 < length I1)%nat -> (0 < length (hd [] I1))%nat ->
  exists dataCost,
    compute_data_cost I1 I2 0 Tau = Ok dataCost /\
    (let z := zeros3 (length I1) (length (hd [] I1)) 0 in
     update_msg z z z z dataCost Lambda = Raise ValueError) /\
    stereo_bp I1 I2 0 Lambda Tau n = Raise ValueError.
Proof.
  intros Hn Hh Hw.
  destruct (compute_data_cost_no_label I1 I2 Tau) as [dataCost [Ecost Wcost]].
  set (h := length I1) in *. set (w := length (hd [] I1)) in *.
  pose proof (@update_msg_no_label h w
                (zeros3 h w 0, zeros3 h w 0, zeros3 h w 0, zeros3 h w 0)
                dataCost Lambda (wf_messages_zeros h w 0) Wcost Hh Hw) as Eup.
  simpl field in Eup.
  exists dataCost. split; [exact Ecost|]. split; [exact Eup|].
  unfold stereo_bp. step Ecost. unfold np_zeros1.
  destruct (Z.ltb_spec n 0); [lia|]. cbn [bind].
  unfold shape3, np_zeros3. fold h w.
  change (0 <? 0)%Z with false. change (Z.to_nat 0) with 0%nat. cbn [bind].
  unfold for_range. destruct (Z.to_nat n) as [|k] eqn:Hk; [lia|].
  cbn [for_from]. unfold bp_iteration. cbn [st_msgs].
  rewrite Eup. reflexivity.
Qed.

(** One iteration returns, whatever the signs of the costs and of
    [Lambda]. *)
Lemma bp_iteration_returns (h w L : nat) (dataCost : volume) (Lambda : Q)
  (iter : nat) (st : bp_state) :
  (0 < h)%nat -> (0 < w)%nat -> L = Z.to_nat num_disp_values ->
  wf3 h w L dataCost -> wf_messages h w L (st_msgs st) ->
  (iter < length (st_energy st))%nat ->
  exists st' d,
    bp_iteration dataCost Lambda iter st = Ok st' /\
    wf_messages h w L (st_msgs st') /\
    length (st_energy st') = length (st_energy st) /\
    st_disparity st' = Some d.
Proof.
  intros Hh Hw HL Hcost Hprev Hiter.
  assert (Hpos : (0 < L)%nat) by (rewrite HL; apply num_disp_values_positive).
  destruct (@update_msg_entries h w L (st_msgs st) dataCost Lambda
              Hh Hw Hpos ltac:(lia) Hprev Hcost) as [out [Eup [Wout _]]].
  destruct out as [[[oU oD] oL] oR].
  pose proof (wf3_normalize (Wout dir_U)) as WU.
  pose proof (wf3_normalize (Wout dir_D)) as WD.
  pose proof (wf3_normalize (Wout dir_L)) as WL.
  pose proof (wf3_normalize (Wout dir_R)) as WR.
  simpl field in WU, WD, WL, WR.
  set (nU := map (map normalize_vec) oU) in *.
  set (nD := map (map normalize_vec) oD) in *.
  set (nL := map (map normalize_vec) oL) in *.
  set (nR := map (map normalize_vec) oR) in *.
  destruct (radd3_entries Hh Hw Hcost WU WD WL) as [s3 [E3 [W3 _]]].
  destruct (np_add_entries W3 WR Hh Hw) as [beliefs [Eb [Wb _]]].
  destruct (np_argmin_first_minimum Wb Hpos) as [d [Ed [Wd Hd]]].
  assert (Hrange : labels_in_range h w L d).
  { intros y x Hy Hx. apply (Hd y x Hy Hx). }
  pose proof (compute_energy_formula Lambda Hh Hw Hcost Wd Hrange) as Ee.
  eexists. exists d. split; [|split; [|split]].
  - unfold bp_iteration.
    destruct (st_msgs st) as [[[pU pD] pL] pR]. simpl field in Eup.
    step Eup. rewrite normalize_msg_fields. fold nU nD nL nR.
    unfold compute_belief.
    change (Ok dataCost +. nU +. nD +. nL +. nR)
      with (radd (Ok dataCost +. nU +. nD +. nL) nR).
    rewrite E3. unfold radd at 1. cbn [bind]. step Eb.
    unfold MAP_labeling. step Ed. step Ee.
    unfold setitem. rewrite py_index_mod by lia.
    cbn [bind]. reflexivity.
  - intros [| | |]; simpl; assumption.
  - simpl. apply length_upd.
  - reflexivity.
Qed.

(** With the labels of the global, images of one shape and a positive
    number of iterations, [stereo_bp] returns for every [Lambda] and every
    [Tau]. *)
Lemma stereo_bp_returns (I1 I2 : image) (h w c : nat) (Lambda Tau : Q)
  (n : Z) :
  wf3 h w c I1 -> wf3 h w c I2 -> (0 < h)%nat ->
  (num_disp_values <= Z.of_nat w + 1)%Z -> (0 < n)%Z ->
  exists d e, stereo_bp I1 I2 num_disp_values Lambda Tau n = Ok (d, e).
Proof.
  intros W1 W2 Hh Hwide Hn.
  set (L := Z.to_nat num_disp_values).
  assert (Hw : (0 < w)%nat) by (unfold num_disp_values in Hwide; lia).
  destruct (@compute_data_cost_cells I1 I2 h w c num_disp_values Tau W1 W2)
    as [dataCost [Ecost [Wcost _]]];
    [unfold num_disp_values in *; lia|].
  fold L in Wcost.
  set (I := fun (i : nat) (st : bp_state) =>
    wf_messages h w L (st_msgs st) /\ length (st_energy st) = Z.to_nat n).
  set (k := (Z.to_nat n - 1)%nat).
  destruct (@for_from_invariant _ I (bp_iteration dataCost Lambda) k 0%nat
              (initial_state h w L (Z.to_nat n))) as [st [Est [Wst Lst]]].
  { intros i t Hi [Wt Lt].
    destruct (@bp_iteration_returns h w L dataCost Lambda i t Hh Hw eq_refl
                Wcost Wt ltac:(unfold k in Hi; lia))
      as [t' [d [Et [Wt' [Lt' _]]]]].
    exists t'. split; [exact Et|]. split; [exact Wt' | lia]. }
  { split; [apply wf_messages_zeros | apply repeat_length]. }
  destruct (@bp_iteration_returns h w L dataCost Lambda k st Hh Hw eq_refl
              Wcost Wst ltac:(unfold k; lia))
    as [st' [d [Est' [_ [_ Hd]]]]].
  exists d, (st_energy st').
  unfold stereo_bp. step Ecost. unfold np_zeros1.
  destruct (Z.ltb_spec n 0); [lia|]. cbn [bind].
  rewrite (wf3_shape W1 Hh Hw). unfold np_zeros3.
  change (num_disp_values <? 0)%Z with false. cbn [bind]. fold L.
  unfold for_range.
  replace (Z.to_nat n) with (k + 1)%nat at 1 by (unfold k; lia).
  rewrite for_from_add.
  change (for_from 0 k (bp_iteration dataCost Lambda)
            (initial_state h w L (Z.to_nat n)) = Ok st) in Est.
  unfold initial_state in Est. rewrite Est. cbn [bind].
  simpl for_from. rewrite Est'. cbn [bind]. now rewrite Hd.
Qed.

Lemma mapM_ext_in {A B : Type} (f g : A -> result B) (l : list A) :
  (forall a, In a l -> f a = g a) -> mapM f l = mapM g l.
Proof.
  induction l as [|a t IH]; intros H; [reflexivity|].
  simpl. rewrite (H a (or_introl eq_refl)).
  rewrite IH by (intros; apply H; now right). reflexivity.
Qed.

Lemma getitem_app_l {A : Type} (l extra : list A) (i : nat) (d : A) :
  (i < length l)%nat ->
  getitem (l ++ extra) (Z.of_nat i) = getitem l (Z.of_nat i).
Proof.
  intros Hi.
  rewrite (@getitem_nat _ (l ++ extra) i d) by (rewrite length_app; lia).
  rewrite (@getitem_nat _ l i d) by assumption.
  now rewrite app_nth1.
Qed.

(** The rows of the second image below the height of the first are never
    read. *)
Lemma compute_data_cost_extra_rows (I1 I2 extra : image) (L : Z) (Tau : Q) :
  (length I1 <= length I2)%nat ->
  compute_data_cost I1 (I2 ++ extra) L Tau = compute_data_cost I1 I2 L Tau.
Proof.
  intros Hlen. unfold compute_data_cost, shape3.
  destruct (np_zeros3 (length I1) (length (hd [] I1)) L); [|reflexivity].
  cbn [bind].
  apply mapM_ext_in. intros y Hy. apply in_seq in Hy.
  apply mapM_ext_in. intros x _. apply mapM_ext_in. intros l _.
  destruct (getitem2 I1 (Z.of_nat y) (Z.of_nat x)); [|reflexivity].
  cbn [bind]. unfold getitem2.
  rewrite (@getitem_app_l _ I2 extra y []) by lia. reflexivity.
Qed.

Lemma vsub_mismatch (a b : vec) :
  length a <> length b -> length a <> 1%nat -> length b <> 1%nat ->
  vsub a b = Raise ValueError.
Proof.
  intros Hab Ha Hb. unfold vsub.
  destruct (Nat.eqb_spec (length a) (length b)); [contradiction|].
  destruct a as [|? [|? ?]]; destruct b as [|? [|? ?]];
    simpl in Ha, Hb; try reflexivity; contradiction.
Qed.

Lemma mapM_head_raises {A B : Type} (f : A -> result B) (a : A)
  (t : list A) (e : exn) :
  f a = Raise e -> mapM f (a :: t) = Raise e.
Proof.
  intros H. simpl. now rewrite H.
Qed.

(** Two images whose pixels have different numbers of channels, neither of
    them one: the subtraction of the first cell raises [ValueError]. *)
Lemma compute_data_cost_channels (I1 I2 : image) (h w c1 c2 : nat) (L : Z)
  (Tau : Q) :
  wf3 h w c1 I1 -> wf3 h w c2 I2 -> (0 < h)%nat -> (0 < w)%nat ->
  (0 < L)%Z -> c1 <> c2 -> c1 <> 1%nat -> c2 <> 1%nat ->
  compute_data_cost I1 I2 L Tau = Raise ValueError.
Proof.
  intros W1 W2 Hh Hw HL Hc H1 H2.
  assert (Hl1 : length I1 = h) by apply W1.
  assert (Hl2 : length I2 = h) by apply W2.
  unfold compute_data_cost. rewrite (wf3_shape W1 Hh Hw).
  unfold np_zeros3. destruct (Z.ltb_spec L 0); [lia|]. cbn [bind].
  destruct h as [|h']; [lia|]. destruct w as [|w']; [lia|].
  destruct (Z.to_nat L) as [|k] eqn:Hk; [lia|].
  cbn [seq]. apply mapM_head_raises. apply mapM_head_raises.
  apply mapM_head_raises.
  unfold getitem2. change (Z.of_nat 0 - Z.of_nat 0)%Z with (Z.of_nat 0).
  rewrite (@getitem_nat _ I1 0 []) by lia. cbn [bind].
  rewrite (@getitem_nat _ (nth 0 I1 []) 0 [])
    by (rewrite (wf3_row W1); lia). cbn [bind].
  rewrite (@getitem_nat _ I2 0 []) by lia. cbn [bind].
  rewrite (@getitem_nat _ (nth 0 I2 []) 0 [])
    by (rewrite (wf3_row W2); lia). cbn [bind].
  rewrite vsub_mismatch; [reflexivity| | |];
    rewrite ?(wf3_pixel (y:=0%nat) (x:=0%nat) W1) by lia;
    rewrite ?(wf3_pixel (y:=0%nat) (x:=0%nat) W2) by lia; assumption.
Qed.

(** C4, as the code has it.  [stereo_bp] checks none of its arguments; what
    happens on the inputs of the claim is decided by the first operation
    that meets the value.
    - A negative number of labels: [compute_data_cost] raises the
      [ValueError] of the allocation of the cost volume.
    - When the cost volume is built: a negative number of iterations gives
      the [ValueError] of the allocation of the energy array, no iteration
      the [UnboundLocalError] of the return statement.
    - No label, a positive number of iterations and an image with a pixel:
      the cost volume is built and the first [update_msg] raises the
      [ValueError] of [np.amin]; so does [stereo_bp].
    - In all these cases, and for every image, the run ends in an exception.
    - [Tau] is not checked: with the labels of the global, images of one
      shape and a positive number of iterations the run returns for every
      [Tau] and [Lambda], of either sign.
    - The shapes are not compared: the rows of the second image beyond the
      height of the first are never read, and channel counts that differ,
      neither being 1, end in the [ValueError] of the first subtraction. *)
Theorem stereo_bp_validates_nothing (I1 I2 : image) (L : Z) (Lambda Tau : Q)
  (n : Z) :
  ((L < 0)%Z ->
     compute_data_cost I1 I2 L Tau = Raise ValueError /\
     stereo_bp I1 I2 L Lambda Tau n = Raise ValueError) /\
  (forall dataCost, compute_data_cost I1 I2 L Tau = Ok dataCost ->
     ((n < 0)%Z -> stereo_bp I1 I2 L Lambda Tau n = Raise ValueError) /\
     (n = 0%Z -> stereo_bp I1 I2 L Lambda Tau n = Raise UnboundLocalError)) /\
  (L = 0%Z -> (0 < n)%Z ->
   (0 < length I1)%nat -> (0 < length (hd [] I1))%nat ->
     exists dataCost,
       compute_data_cost I1 I2 L Tau = Ok dataCost /\
       (let z := zeros3 (length I1) (length (hd [] I1)) 0 in
        update_msg z z z z dataCost Lambda = Raise ValueError) /\
       stereo_bp I1 I2 L Lambda Tau n = Raise ValueError) /\
  ((L <= 0 \/ n <= 0)%Z -> raises (stereo_bp I1 I2 L Lambda Tau n)) /\
  (forall h w c, wf3 h w c I1 -> wf3 h w c I2 -> (0 < h)%nat ->
     L = num_disp_values -> (L <= Z.of_nat w + 1)%Z -> (0 < n)%Z ->
     exists d e, stereo_bp I1 I2 L Lambda Tau n = Ok (d, e)) /\
  (forall extra, (length I1 <= length I2)%nat ->
     stereo_bp I1 (I2 ++ extra) L Lambda Tau n =
     stereo_bp I1 I2 L Lambda Tau n) /\
  (forall h w c1 c2, wf3 h w c1 I1 -> wf3 h w c2 I2 ->
     (0 < h)%nat -> (0 < w)%nat -> (0 < L)%Z ->
     c1 <> c2 -> c1 <> 1%nat -> c2 <> 1%nat ->
     stereo_bp I1 I2 L Lambda Tau n = Raise ValueError).
Proof.
  split; [|split; [|split; [|split; [|split; [|split]]]]].
  - intros HL.
    pose proof (compute_data_cost_negative_labels I1 I2 Tau HL) as E.
    split; [exact E | now apply stereo_bp_cost_raises].
  - intros dataCost Ecost. split; intros Hn.
    + rewrite (@stereo_bp_cost_built I1 I2 L Lambda Tau n dataCost Ecost) by lia.
      destruct (Z.ltb_spec n 0); [reflexivity | lia].
    + rewrite (@stereo_bp_cost_built I1 I2 L Lambda Tau n dataCost Ecost) by lia.
      destruct (Z.ltb_spec n 0); [lia | reflexivity].
  - intros -> Hn Hh Hw. now apply stereo_bp_no_label.
  - apply stereo_bp_raises_not_positive.
  - intros h w c W1 W2 Hh -> Hwide Hn.
    now apply (@stereo_bp_returns I1 I2 h w c).
  - intros extra Hlen. unfold stereo_bp.
    now rewrite compute_data_cost_extra_rows.
  - intros h w c1 c2 W1 W2 Hh Hw HL Hc H1 H2.
    apply stereo_bp_cost_raises.
    now apply (@compute_data_cost_channels I1 I2 h w c1 c2).
Qed.

Lemma stereo_bp_validates_nothing_witness :
  stereo_bp [[[1]]] [[[1]]] (-1) 10 15 1 = Raise ValueError /\
  stereo_bp flat15 flat15 16 10 15 (-1) = Raise ValueError /\
  stereo_bp flat15 flat15 16 10 15 0 = Raise UnboundLocalError /\
  stereo_bp [[[1]]] [[[1]]] 0 10 15 1 = Raise ValueError /\
  raises (stereo_bp [[[1]]] [[[1]]] 0 10 15 0) /\
  (exists d e, stereo_bp flat15 flat15 16 10 (-1) 2 = Ok (d, e)) /\
  stereo_bp flat15 (flat15 ++ [repeat [0] 15]) 16 10 15 1 =
  stereo_bp flat15 flat15 16 10 15 1 /\
  stereo_bp [[[1; 2; 3]]] [[[1; 2]]] 1 10 15 1 = Raise ValueError.
Proof.
  split; [|split; [|split; [|split; [|split; [|split; [|split]]]]]].
  - apply (stereo_bp_validates_nothing [[[1]]] [[[1]]] (-1) 10 15 1). lia.
  - destruct (stereo_bp_validates_nothing flat15 flat15 16 10 15 (-1))
      as [_ [H _]].
    assert (E : exists dataCost,
               compute_data_cost flat15 flat15 16 15 = Ok dataCost)
      by (eexists; vm_compute; reflexivity).
    destruct E as [dataCost E]. destruct (H dataCost E) as [Hneg _].
    apply Hneg. lia.
  - destruct (stereo_bp_validates_nothing flat15 flat15 16 10 15 0)
      as [_ [H _]].
    assert (E : exists dataCost,
               compute_data_cost flat15 flat15 16 15 = Ok dataCost)
      by (eexists; vm_compute; reflexivity).
    destruct E as [dataCost E]. destruct (H dataCost E) as [_ Hzero].
    now apply Hzero.
  - destruct (stereo_bp_validates_nothing [[[1]]] [[[1]]] 0 10 15 1)
      as [_ [_ [H _]]].
    destruct H as [dataCost [_ [_ E]]]; [reflexivity|lia|simpl; lia|simpl; lia|].
    exact E.
  - destruct (stereo_bp_validates_nothing [[[1]]] [[[1]]] 0 10 15 0)
      as [_ [_ [_ [H _]]]].
    apply H. left. lia.
  - destruct (stereo_bp_validates_nothing flat15 flat15 16 10 (-1) 2)
      as [_ [_ [_ [_ [H _]]]]].
    apply (H 1%nat 15%nat 1%nat).
    + split; [reflexivity | repeat constructor].
    + split; [reflexivity | repeat constructor].
    + lia.
    + reflexivity.
    + lia.
    + lia.
  - destruct (stereo_bp_validates_nothing flat15 flat15 16 10 15 1)
      as [_ [_ [_ [_ [_ [H _]]]]]].
    apply H. simpl. lia.
  - destruct (stereo_bp_validates_nothing [[[1; 2; 3]]] [[[1; 2]]] 1 10 15 1)
      as [_ [_ [_ [_ [_ [_ H]]]]]].
    apply (H 1%nat 1%nat 3%nat 2%nat).
    + split; [reflexivity | repeat constructor].
    + split; [reflexivity | repeat constructor].
    + lia.
    + lia.
    + lia.
    + lia.
    + lia.
    + lia.
Defined.
